(** * codex-anamnestia: the hierarchical resolution engine and the standardizer

    A shallow embedding of [src/resolver.py] and
    [src/transformers/standardizer.py], and the properties of the
    specification that concern them; then the resolution stage of
    [main.py], which hands the tables of the standardizer to the resolver,
    and further properties of the three.

    Python values are dynamically typed; the embedding keeps one type
    [value] for them, a result type [outcome] for the exceptions the builtins
    raise, and a writer [M] for the records sent to [logging.warning] and
    [logging.error]. *)

From Stdlib Require Import ZArith List Bool Ascii String Lia.
From Stdlib Require Import Floats.SpecFloat.
From stdpp Require Import base option list gmap strings.

Import ListNotations.
Set Warnings "-register-all".
Local Open Scope string_scope.
Local Open Scope Z_scope.

(** ** Python values *)

(** [None], [bool], [int], [float], [str], [list] and [dict].  A [str] is a
    Rocq string, each character a code point below 256.  A [float] is its
    binary64 value.  A [dict] keeps its entries in insertion order. *)
Inductive value : Type :=
| VNone
| VBool (b : bool)
| VInt (n : Z)
| VFloat (f : spec_float)
| VStr (s : string)
| VList (xs : list value)
| VDict (kvs : list (value * value)).

Definition dict := list (value * value).

(** The exceptions the embedded code can raise. *)
Inductive exn := KeyError | AttributeError | TypeError | ValueError.

Inductive outcome (A : Type) : Type :=
| Return (a : A)
| Raise (e : exn).
Arguments Return {A} a.
Arguments Raise {A} e.

(** ** Hashing and equality of dictionary keys *)

(** Python finds a key by [hash] and [==].  Numbers compare by value across
    [bool], [int] and [float] ([True == 1 == 1.0]); [hkey] is the class of a
    hashable value under that equality.  A NaN is equal to nothing, itself
    included, and is found in a dict by identity only; the embedding has no
    object identity and gives every NaN the class [KNan]. *)
Inductive hkey : Type :=
| KNone
| KNum (n : Z)
| KFrac (s : bool) (m : positive) (e : Z)
| KInf (s : bool)
| KNan
| KStr (s : string).

#[global] Instance hkey_eq_dec : EqDecision hkey.
Proof. solve_decision. Defined.

(** [m * 2^e] with the trailing zero bits of [m] moved into the exponent. *)
Fixpoint strip_zeros (m : positive) (e : Z) : positive * Z :=
  match m with
  | xO m' => strip_zeros m' (e + 1)
  | _ => (m, e)
  end.

Definition float_key (f : spec_float) : hkey :=
  match f with
  | S754_zero _ => KNum 0
  | S754_infinity s => KInf s
  | S754_nan => KNan
  | S754_finite s m e =>
      let '(m', e') := strip_zeros m e in
      if 0 <=? e'
      then KNum ((if s then -1 else 1) * Z.pos m' * 2 ^ e')
      else KFrac s m' e'
  end.

(** [hash(v)]: [None] stands for [TypeError: unhashable type]. *)
Definition hash_key (v : value) : option hkey :=
  match v with
  | VNone => Some KNone
  | VBool b => Some (KNum (if b then 1 else 0))
  | VInt n => Some (KNum n)
  | VFloat f => Some (float_key f)
  | VStr s => Some (KStr s)
  | VList _ | VDict _ => None
  end.

(** The entry of a dict whose key has class [k].  The entries are generic
    in their values: [defaultdict(list)] holds Python lists. *)
Fixpoint dict_find {V} (k : hkey) (d : list (value * V)) : option V :=
  match d with
  | [] => None
  | (k', v) :: d' =>
      if decide (hash_key k' = Some k) then Some v else dict_find k d'
  end.

(** [d[k] = v] for a hashable [k] of class [hk]: an existing entry keeps its
    place and its key object and takes the new value; a new key goes last. *)
Fixpoint dict_set {V} (hk : hkey) (k : value) (v : V) (d : list (value * V))
  : list (value * V) :=
  match d with
  | [] => [(k, v)]
  | (k', v') :: d' =>
      if decide (hash_key k' = Some hk) then (k', v) :: d'
      else (k', v') :: dict_set hk k v d'
  end.

Definition dict_keys {V} (d : list (value * V)) : list value := map fst d.

(** ** Python equality, truth and the builtins the code calls *)

(** [a == b]. *)
Fixpoint py_eqb (a b : value) {struct a} : bool :=
  match a, b with
  | VList xs, VList ys =>
      (fix all2 (xs ys : list value) {struct xs} : bool :=
         match xs, ys with
         | [], [] => true
         | x :: xs', y :: ys' => py_eqb x y && all2 xs' ys'
         | _, _ => false
         end) xs ys
  | VDict d1, VDict d2 =>
      (length d1 =? length d2)%nat &&
      (fix all (d : dict) {struct d} : bool :=
         match d with
         | [] => true
         | (k, v) :: d' =>
             match hash_key k with
             | Some hk =>
                 match dict_find hk d2 with
                 | Some v' => py_eqb v v' && all d'
                 | None => false
                 end
             | None => false
             end
         end) d1
  | VList _, _ | VDict _, _ | _, VList _ | _, VDict _ => false
  | _, _ =>
      match hash_key a, hash_key b with
      | Some ka, Some kb =>
          if decide (ka = KNan) then false else bool_decide (ka = kb)
      | _, _ => false
      end
  end.

(** [bool(v)]. *)
Definition truthy (v : value) : bool :=
  match v with
  | VNone => false
  | VBool b => b
  | VInt n => negb (n =? 0)
  | VFloat f => negb (bool_decide (float_key f = KNum 0))
  | VStr s => negb (String.eqb s "")
  | VList xs => match xs with [] => false | _ => true end
  | VDict d => match d with [] => false | _ => true end
  end.

Definition is_none (v : value) : bool :=
  match v with VNone => true | _ => false end.

Definition is_dict (v : value) : bool :=
  match v with VDict _ => true | _ => false end.

Definition is_list (v : value) : bool :=
  match v with VList _ => true | _ => false end.

(** [d.get(k, default)]: only a dict has the method, and the key is hashed
    before the lookup. *)
Definition py_get (d k dflt : value) : outcome value :=
  match d with
  | VDict kvs =>
      match hash_key k with
      | Some hk => Return (from_option id dflt (dict_find hk kvs))
      | None => Raise TypeError
      end
  | _ => Raise AttributeError
  end.

(** [len(v)], as the f-string of the list branch of [_build_node] calls it. *)
Definition py_len (v : value) : outcome Z :=
  match v with
  | VStr s => Return (Z.of_nat (String.length s))
  | VList xs => Return (Z.of_nat (length xs))
  | VDict d => Return (Z.of_nat (length d))
  | _ => Raise TypeError
  end.

(** The items a [for] loop draws from [v]: the elements of a list, the
    one-character strings of a [str], the keys of a dict. *)
Definition py_iter (v : value) : outcome (list value) :=
  match v with
  | VList xs => Return xs
  | VStr s => Return (map (fun c => VStr (String c "")) (list_ascii_of_string s))
  | VDict d => Return (dict_keys d)
  | _ => Raise TypeError
  end.

Definition is_substring (s1 s2 : string) : bool :=
  match String.index 0 s1 s2 with Some _ => true | None => false end.

(** [k in c].  A list is searched with [==]; the identity test that comes
    first in Python only matters for a NaN. *)
Definition py_in (k c : value) : outcome bool :=
  match c with
  | VDict d =>
      match hash_key k with
      | Some hk => Return (bool_decide (is_Some (dict_find hk d)))
      | None => Raise TypeError
      end
  | VList xs => Return (existsb (fun x => py_eqb x k) xs)
  | VStr s =>
      match k with
      | VStr s' => Return (is_substring s' s)
      | _ => Raise TypeError
      end
  | _ => Raise TypeError
  end.

(** ** Strings: [str.strip], [str.split] and [int] *)

Definition code (c : ascii) : Z := Z.of_N (N_of_ascii c).

(** [str.isspace] on the code points below 256. *)
Definition is_space (c : ascii) : bool :=
  let n := code c in
  ((9 <=? n) && (n <=? 13)) || ((28 <=? n) && (n <=? 32))
  || (n =? 133) || (n =? 160).

(** The white space [int] skips around its argument. *)
Definition is_int_space (c : ascii) : bool :=
  let n := code c in
  ((9 <=? n) && (n <=? 13)) || (n =? 32) || (n =? 133) || (n =? 160).

Fixpoint lstrip_with (sp : ascii -> bool) (s : string) : string :=
  match s with
  | String c s' => if sp c then lstrip_with sp s' else s
  | EmptyString => EmptyString
  end.

Fixpoint rstrip_with (sp : ascii -> bool) (s : string) : string :=
  match s with
  | String c s' =>
      let r := rstrip_with sp s' in
      if String.eqb r "" && sp c then "" else String c r
  | EmptyString => EmptyString
  end.

Definition strip_with (sp : ascii -> bool) (s : string) : string :=
  rstrip_with sp (lstrip_with sp s).

(** [s.strip()]. *)
Definition strip (s : string) : string := strip_with is_space s.

(** The pieces of [s] between the occurrences of a non-empty [sep], found
    from the left and not overlapping; [skip] counts the characters of the
    occurrence under the cursor that are still to be passed. *)
Fixpoint split_from (sep s : string) (skip : nat) (piece : string)
  : list string :=
  match s with
  | EmptyString => [piece]
  | String c s' =>
      match skip with
      | S n => split_from sep s' n piece
      | O =>
          if String.prefix sep s
          then piece :: split_from sep s' (String.length sep - 1) ""
          else split_from sep s' 0 (piece ++ String c "")
      end
  end.

(** [s.split(sep)]: [ValueError: empty separator] on [sep = ""]. *)
Definition py_split (s sep : string) : outcome (list string) :=
  if String.eqb sep "" then Raise ValueError
  else Return (split_from sep s 0 "").

Definition digit_of (c : ascii) : option Z :=
  let n := code c in
  if (48 <=? n) && (n <=? 57) then Some (n - 48) else None.

(** Decimal digits, single underscores allowed between two digits.  Returns
    the number and how many digits were read. *)
Fixpoint int_digits (s : string) (acc : Z) (after_digit : bool) (count : nat)
  : option (Z * nat) :=
  match s with
  | EmptyString => if after_digit then Some (acc, count) else None
  | String c s' =>
      match digit_of c with
      | Some d => int_digits s' (10 * acc + d) true (S count)
      | None =>
          if Ascii.eqb c "_" && after_digit
          then int_digits s' acc false count
          else None
      end
  end.

(** [sys.int_info.default_max_str_digits] of CPython 3.11. *)
Definition int_max_str_digits : nat := 4300.

(** [int(s)] for a [str]; [None] stands for [ValueError]. *)
Definition py_int (s : string) : option Z :=
  let s := strip_with is_int_space s in
  let '(neg, body) :=
    match s with
    | String "+" r => (false, r)
    | String "-" r => (true, r)
    | _ => (false, s)
    end in
  match int_digits body 0 false 0 with
  | Some (n, count) =>
      if (count <=? int_max_str_digits)%nat
      then Some (if neg then - n else n)
      else None
  | None => None
  end.

(** ** Rules *)

(** A rule is a YAML mapping that the resolver probes key by key; the record
    has one optional field per key the resolver reads.  The scalars of a
    specification are typed: names are strings and flags are booleans. *)
Record transform := Transform {
  t_type : option string;          (* type *)
  t_in_source : option string;     (* in_source *)
  t_delimiter : option string;     (* delimiter *)
  t_as_type : option string        (* as_type *)
}.

(** [condition: {source, key, exists}]; [source] and [key] are read by
    subscript, [exists] through [get]. *)
Record condition_of (R : Type) := Condition {
  c_source : string;
  c_key : R;
  c_exists : option bool
}.
Arguments Condition {R}.
Arguments c_source {R}.
Arguments c_key {R}.
Arguments c_exists {R}.

Inductive rule : Type := Rule {
  r_link_key : option rule;                       (* link_key *)
  r_from : option string;                         (* from *)
  r_field : option string;                        (* field *)
  r_from_context : option string;                 (* from_context *)
  r_from_parent : option bool;                    (* from_parent *)
  r_transform : option transform;                 (* transform *)
  r_condition : option (condition_of rule);       (* condition *)
  r_coalesce : option (list rule);                (* coalesce *)
  r_type : option string;                         (* type *)
  r_fields : option (list (string * rule));       (* fields *)
  r_sub_object : option (list (string * rule))    (* sub_object *)
}.

Definition condition := condition_of rule.

(** A structure is the ordered mapping of output field name to rule. *)
Definition structure := list (string * rule).

(** The named tables handed to the resolver ([all_data]). *)
Abbreviation tables := (gmap string value).

(** The forms of rule the specification names, as the mappings a YAML file
    would hold. *)
Definition no_keys : rule :=
  Rule None None None None None None None None None None None.

(** [{from: alias, field: field}]. *)
Definition direct (alias field : string) : rule :=
  Rule None (Some alias) (Some field) None None None None None None None None.

(** [{from_context: alias}]. *)
Definition context_alias (alias : string) : rule :=
  Rule None None None (Some alias) None None None None None None None.

(** [{from_parent: true[, field: field]}]. *)
Definition parent (field : option string) : rule :=
  Rule None None field None (Some true) None None None None None None.

(** [{link_key: link_key, from: table[, field: field]}]. *)
Definition linked (link_key : rule) (table : string) (field : option string)
  : rule :=
  Rule (Some link_key) (Some table) field None None None None None None None
       None.

(** [{coalesce: sub_rules}]. *)
Definition coalesce_of (sub_rules : list rule) : rule :=
  Rule None None None None None None None (Some sub_rules) None None None.

(** [{type: object[, fields: fields]}]. *)
Definition object_of (fields : option structure) : rule :=
  Rule None None None None None None None None (Some "object") fields None.

(** [{type: list, from: table, link_key: link_key[, field: field]
    [, sub_object: sub_object]}]. *)
Definition list_of (table : string) (link_key : rule) (field : option string)
    (sub_object : option structure) : rule :=
  Rule (Some link_key) (Some table) field None None None None None
       (Some "list") None sub_object.

(** [rule] with [condition: c] added. *)
Definition with_condition (c : condition) (r : rule) : rule :=
  match r with
  | Rule lk fr fd fc fp tr _ co ty fs so =>
      Rule lk fr fd fc fp tr (Some c) co ty fs so
  end.

(** [rule] with [transform: t] added. *)
Definition with_transform (t : transform) (r : rule) : rule :=
  match r with
  | Rule lk fr fd fc fp _ cd co ty fs so =>
      Rule lk fr fd fc fp (Some t) cd co ty fs so
  end.

(** ** Diagnostics and the resolver's monad *)

Inductive level := WARNING | ERROR.

(** One constructor per [logging.warning] and [logging.error] call of the
    resolver. *)
Inductive message : Type :=
| SourceNotFound (source_name : string)
| ExpectsDictionary (field : string) (linked_item : value)
| CouldNotResolve (r : rule)
| LookupMissingInSource
| SplitExpectedString (v : value)
| CouldNotCast (as_type : string)
| ObjectMissingFields (key : string).

Definition log_record : Type := level * message.

(** A computation: the records it logged, then its value or the exception
    that ended it. *)
Definition M (A : Type) : Type := list log_record * outcome A.

Definition ret {A} (a : A) : M A := ([], Return a).

Definition raise {A} (e : exn) : M A := ([], Raise e).

Definition lift {A} (o : outcome A) : M A := ([], o).

Definition bind {A B} (m : M A) (f : A -> M B) : M B :=
  match m with
  | (l, Return a) => let '(l', r) := f a in ((l ++ l')%list, r)
  | (l, Raise e) => (l, Raise e)
  end.

Arguments bind : simpl never.

Notation "'let*' x ':=' m 'in' k" := (bind m (fun x => k))
  (at level 10, x pattern, m at level 100, k at level 200).

Definition logging_warning (m : message) : M unit := ([(WARNING, m)], Return tt).

Definition logging_error (m : message) : M unit := ([(ERROR, m)], Return tt).

(** [if not silent: logging.warning(...)]. *)
Definition warn_unless (silent : bool) (m : message) : M unit :=
  if silent then ret tt else logging_warning m.

(** [m] ends with the value [a]. *)
Definition returns {A} (m : M A) (a : A) : Prop := m.2 = Return a.

(** [m] ends with the exception [e]. *)
Definition raises {A} (m : M A) (e : exn) : Prop := m.2 = Raise e.

(** [d[k]] on one of the optional keys of a rule. *)
Definition subscript {A} (o : option A) : M A :=
  match o with
  | Some a => ret a
  | None => raise KeyError
  end.

(** [for x in xs: ys.append(f(x))]. *)
Fixpoint for_each {A B} (f : A -> M B) (xs : list A) : M (list B) :=
  match xs with
  | [] => ret []
  | x :: xs' =>
      let* y := f x in
      let* ys := for_each f xs' in
      ret (y :: ys)
  end.

(** A string read through [get] and tested for truth. *)
Definition nonempty (o : option string) : option string :=
  match o with
  | Some s => if String.eqb s "" then None else Some s
  | None => None
  end.

Definition opt_is (o : option string) (s : string) : bool :=
  match o with
  | Some s' => String.eqb s' s
  | None => false
  end.

(** ** resolver.py *)

(** [_get_value] (lines 11-55).  The recursion is on the rule: the link key
    of a rule is a rule below it. *)
Fixpoint _get_value (context : value) (rule : rule) (all_data : tables)
    (silent : bool) {struct rule} : M value :=
  let unresolved :=
    let* _ := warn_unless silent (CouldNotResolve rule) in
    ret VNone in
  match r_link_key rule with
  | Some link_key =>
      let* source_name := subscript (r_from rule) in
      match all_data !! source_name with
      | None | Some VNone =>
          let* _ := warn_unless silent (SourceNotFound source_name) in
          ret VNone
      | Some target_source =>
          let* lookup_key := _get_value context link_key all_data true in
          if is_none lookup_key then ret VNone else
          let* linked_item := lift (py_get target_source lookup_key VNone) in
          if is_none linked_item then ret VNone else
          match r_field rule with
          | Some field =>
              if is_dict linked_item
              then lift (py_get linked_item (VStr field) VNone)
              else
                let* _ := warn_unless silent
                            (ExpectsDictionary field linked_item) in
                ret VNone
          | None => ret linked_item
          end
      end
  | None =>
      match nonempty (r_from_context rule) with
      | Some alias => lift (py_get context (VStr alias) VNone)
      | None =>
          if bool_decide (r_from_parent rule = Some true) then
            match r_field rule with
            | None => ret context
            | Some field => lift (py_get context (VStr field) VNone)
            end
          else
            match r_from rule with
            | Some source_name =>
                let* source_object :=
                  lift (py_get context (VStr source_name) VNone) in
                match r_field rule with
                | Some field =>
                    if truthy source_object
                    then lift (py_get source_object (VStr field) VNone)
                    else unresolved
                | None => unresolved
                end
            | None => unresolved
            end
      end
  end.

(** [_check_condition] (lines 58-68). *)
Definition _check_condition (context : value) (condition_rule : condition)
    (all_data : tables) : M bool :=
  let source_to_check :=
    default (VDict []) (all_data !! c_source condition_rule) in
  let* key_to_check :=
    _get_value context (c_key condition_rule) all_data true in
  if is_none key_to_check then ret false else
  let* exists_ := lift (py_in key_to_check source_to_check) in
  ret (if bool_decide (c_exists condition_rule = Some true)
       then exists_ else negb exists_).

(** The condition of [rule], if it has one, is met in [context]. *)
Definition condition_holds (context : value) (rule : rule) (all_data : tables)
  : bool :=
  match r_condition rule with
  | None => true
  | Some condition_rule =>
      match (_check_condition context condition_rule all_data).2 with
      | Return met => met
      | Raise _ => false
      end
  end.

(** [bool(transform_rule)]: a mapping without keys is false. *)
Definition has_keys (t : transform) : bool :=
  match t with
  | Transform None None None None => false
  | _ => true
  end.

(** [[v.strip() for v in split_values if v.strip()]]. *)
Definition stripped_pieces (split_values : list string) : list string :=
  List.filter (fun p => negb (String.eqb p "")) (map strip split_values).

Section Resolver.

(** [float(s)] for a [str], [None] for [ValueError]: the builtin is a
    parameter of the development. *)
Variable py_float : string -> option spec_float.

(** [_apply_transform] (lines 71-108).  The [try] covers the casts only:
    [split_values] is computed before it. *)
Definition _apply_transform (val : value) (rule : rule) (all_data : tables)
  : M value :=
  match r_transform rule with
  | None => ret val
  | Some transform_rule =>
      if negb (has_keys transform_rule) || is_none val then ret val else
      let transform_type := t_type transform_rule in
      if opt_is transform_type "lookup" then
        match nonempty (t_in_source transform_rule) with
        | None =>
            let* _ := logging_warning LookupMissingInSource in
            ret val
        | Some lookup_source_name =>
            let target_source :=
              default (VDict []) (all_data !! lookup_source_name) in
            lift (py_get target_source val VNone)
        end
      else if opt_is transform_type "split" then
        let delimiter := default "," (t_delimiter transform_rule) in
        let as_type := default "string" (t_as_type transform_rule) in
        match val with
        | VStr s =>
            let* split_values := lift (py_split s delimiter) in
            let strings := VList (map VStr (stripped_pieces split_values)) in
            let caught :=
              let* _ := logging_warning (CouldNotCast as_type) in
              ret strings in
            if String.eqb as_type "int" then
              match mapM py_int (stripped_pieces split_values) with
              | Some ns => ret (VList (map VInt ns))
              | None => caught
              end
            else if String.eqb as_type "float" then
              match mapM py_float (stripped_pieces split_values) with
              | Some fs => ret (VList (map VFloat fs))
              | None => caught
              end
            else ret strings
        | _ =>
            let* _ := logging_warning (SplitExpectedString val) in
            ret val
        end
      else ret val
  end.

(** [_resolve_simple_value] (lines 111-116). *)
Definition _resolve_simple_value (context : value) (rule : rule)
    (all_data : tables) : M value :=
  let* raw_value := _get_value context rule all_data false in
  _apply_transform raw_value rule all_data.

(** The loop of the coalesce branch (lines 134-146): the first value that
    is not [None]. *)
Fixpoint coalesce (context : value) (sub_rules : list rule)
    (all_data : tables) : M value :=
  match sub_rules with
  | [] => ret VNone
  | sub_rule :: rest =>
      let* val := _resolve_simple_value context sub_rule all_data in
      if is_none val then coalesce context rest all_data else ret val
  end.

(** [linked_item if isinstance(linked_item, list) else []]. *)
Definition list_or_empty (linked_item : value) : value :=
  if is_list linked_item then linked_item else VList [].

(** [_build_node] (lines 119-182) is a loop over the fields of a structure
    that calls itself on the structures below a rule.  Its body is given in
    two parts, [field_value_with] for the branches (lines 130-181) and
    [build_field_with] for the condition before them (lines 126-128), both
    with the recursive call as a parameter; [build_field] then declares the
    recursion, on the rule, with the loop inside it, and [build_from] is that
    loop again, by name.

    [field_value_with] is the value stored under [key], by the branch of the
    rule: coalesce, nested object, list, or simple value.  [build_node]
    stands for the recursive calls of [_build_node].  The f-string of line
    167 takes [len(linked_list)] whatever the logging level. *)
Definition field_value_with
    (build_node : value -> structure -> tables -> M dict)
    (context : value) (key : string) (rule : rule) (all_data : tables)
  : M value :=
  let node_type := r_type rule in
  match r_coalesce rule with
  | Some sub_rules => coalesce context sub_rules all_data
  | None =>
      if opt_is node_type "object" then
        match r_fields rule with
        | None =>
            let* _ := logging_error (ObjectMissingFields key) in
            ret VNone
        | Some fields =>
            let* node := build_node context fields all_data in
            ret (VDict node)
        end
      else if opt_is node_type "list" then
        let* link_key := subscript (r_link_key rule) in
        let* lookup_key := _get_value context link_key all_data false in
        let* source_name := subscript (r_from rule) in
        let target_source := default (VDict []) (all_data !! source_name) in
        let* linked_item := lift (py_get target_source lookup_key VNone) in
        let* linked_list :=
          match r_field rule with
          | Some field =>
              if is_dict linked_item
              then lift (py_get linked_item (VStr field) (VList []))
              else ret (list_or_empty linked_item)
          | None => ret (list_or_empty linked_item)
          end in
        let* _ := lift (py_len linked_list) in
        match r_sub_object rule with
        | Some sub_object =>
            let* items := lift (py_iter linked_list) in
            let* list_items :=
              for_each (fun item => build_node item sub_object all_data)
                       items in
            ret (VList (map VDict list_items))
        | None => ret linked_list
        end
      else _resolve_simple_value context rule all_data
  end.

(** One turn of the loop of [_build_node]: [None] when the condition sends
    the loop to the next field ([continue]), else the value stored under
    [key]. *)
Definition build_field_with
    (build_node : value -> structure -> tables -> M dict)
    (context : value) (key : string) (rule : rule) (all_data : tables)
  : M (option value) :=
  let* met :=
    match r_condition rule with
    | Some condition_rule => _check_condition context condition_rule all_data
    | None => ret true
    end in
  if negb met then ret None else
  let* val := field_value_with build_node context key rule all_data in
  ret (Some val).

(** [output_node[key] = val], or nothing after [continue]. *)
Definition store (key : string) (field : option value) (output_node : dict)
  : dict :=
  match field with
  | Some val => dict_set (KStr key) (VStr key) val output_node
  | None => output_node
  end.

Fixpoint build_field (context : value) (key : string) (rule : rule)
    (all_data : tables) {struct rule} : M (option value) :=
  build_field_with
    (fun context fields all_data =>
       (fix build_from (structure : structure) (output_node : dict)
            {struct structure} : M dict :=
          match structure with
          | [] => ret output_node
          | (key, rule) :: rest =>
              let* field := build_field context key rule all_data in
              build_from rest (store key field output_node)
          end) fields [])
    context key rule all_data.

(** The loop of [_build_node] (line 125) from a given [output_node] on. *)
Definition build_from (context : value) (all_data : tables)
  : structure -> dict -> M dict :=
  fix build_from (structure : structure) (output_node : dict)
      {struct structure} : M dict :=
    match structure with
    | [] => ret output_node
    | (key, rule) :: rest =>
        let* field := build_field context key rule all_data in
        build_from rest (store key field output_node)
    end.

(** [_build_node]: the loop from the empty record (line 123).  [level]
    only reaches [logging.debug] and is left out. *)
Definition _build_node (context : value) (structure : structure)
    (all_data : tables) : M dict :=
  build_from context all_data structure [].

(** The value stored under [key], past the condition of the rule. *)
Definition field_value (context : value) (key : string) (rule : rule)
    (all_data : tables) : M value :=
  field_value_with _build_node context key rule all_data.

(** A specification, as far as [resolve_data] reads it. *)
Record spec := Spec {
  output_structure : option structure;
  resolution_strategy : option string;
  primary_source : option string
}.

(** The context of a primary item (lines 198-201). *)
Definition root_context (spec : spec) (item : value) : M value :=
  if opt_is (resolution_strategy spec) "union"
  then ret (VDict [(VStr "union_id", item)])
  else
    let* alias := subscript (primary_source spec) in
    ret (VDict [(VStr alias, item)]).

(** [resolve_data] (lines 185-205); [items_to_process] is the sequence the
    loop draws. *)
Definition resolve_data (spec : spec) (all_data : tables)
    (items_to_process : list value) : M (list value) :=
  let* output_structure := subscript (output_structure spec) in
  for_each
    (fun item =>
       let* context := root_context spec item in
       let* resolved_obj := _build_node context output_structure all_data in
       ret (VDict resolved_obj))
    items_to_process.

End Resolver.

(** ** standardizer.py *)

(** [d[k] = v]: the key is hashed first. *)
Definition set_item (d : dict) (k v : value) : M dict :=
  match hash_key k with
  | Some hk => ret (dict_set hk k v d)
  | None => raise TypeError
  end.

(** The dict comprehension of [create_lookup_map] (line 15), from the
    entries built so far. *)
Fixpoint lookup_from (items : list value) (key_field : string) (acc : dict)
  : M dict :=
  match items with
  | [] => ret acc
  | item :: rest =>
      let* key := lift (py_get item (VStr key_field) VNone) in
      let* acc' := set_item acc key item in
      lookup_from rest key_field acc'
  end.

(** [create_lookup_map] (lines 11-15). *)
Definition create_lookup_map (data : value) (key_field : string) : M value :=
  let* items := lift (py_iter data) in
  let* table := lookup_from items key_field [] in
  ret (VDict table).

(** The loop of [create_grouping_map] (lines 24-28); [grouped_data] is the
    [defaultdict(list)]. *)
Fixpoint grouping_from (items : list value) (key_field : string)
    (grouped_data : list (value * list value)) : M (list (value * list value)) :=
  match items with
  | [] => ret grouped_data
  | item :: rest =>
      let* key := lift (py_get item (VStr key_field) VNone) in
      if is_none key then grouping_from rest key_field grouped_data else
      match hash_key key with
      | Some hk =>
          let group := default [] (dict_find hk grouped_data) in
          grouping_from rest key_field
            (dict_set hk key (group ++ [item])%list grouped_data)
      | None => raise TypeError
      end
  end.

(** [create_grouping_map] (lines 18-29). *)
Definition create_grouping_map (data : value) (key_field : string) : M value :=
  let* items := lift (py_iter data) in
  let* grouped_data := grouping_from items key_field [] in
  ret (VDict (map (fun '(k, group) => (k, VList group)) grouped_data)).

(** A source's specification, as far as [standardize_source] reads it. *)
Record source_spec := SourceSpec {
  ss_name : string;
  ss_strategy : option string;
  ss_key : option string
}.

(** [standardize_source] (lines 32-47).  The [print] is left out. *)
Definition standardize_source (source_data : value) (source_spec : source_spec)
  : M value :=
  let strategy := default "lookup" (ss_strategy source_spec) in
  let key := ss_key source_spec in
  if String.eqb strategy "group_by" then
    match nonempty key with
    | None => raise ValueError
    | Some key => create_grouping_map source_data key
    end
  else
    match nonempty key with
    | Some key => create_lookup_map source_data key
    | None => ret source_data
    end.

(** ** main.py: the resolution stage *)

(** [d.values()]: only a dict has the method. *)
Definition py_values (d : value) : outcome (list value) :=
  match d with
  | VDict kvs => Return (map snd kvs)
  | _ => Raise AttributeError
  end.

(** An entry of [union_sources]; [name] and [id_field] are read by
    subscript. *)
Record union_source := UnionSource {
  us_name : string;
  us_id_field : string
}.

(** A specification, as far as the resolution stage of
    [run_processing_pipeline] reads it: the keys [resolve_data] reads, and
    [union_sources]. *)
Record stage_spec := StageSpec {
  resolver_spec : spec;
  union_sources : option (list union_source)
}.

(** A [set] is kept as the list of its elements, one per class of key, in
    the order they were added.  [s.add(x)] hashes [x] first. *)
Definition set_add (s : list value) (x : value) : M (list value) :=
  match hash_key x with
  | Some hk =>
      ret (if bool_decide (Some hk ∈ map hash_key s) then s
           else s ++ [x])%list
  | None => raise TypeError
  end.

(** The loop over the records of one union source (lines 75-77). *)
Fixpoint collect_ids (items : list value) (id_field : string)
    (master_id_set : list value) : M (list value) :=
  match items with
  | [] => ret master_id_set
  | item :: rest =>
      let* item_id := lift (py_get item (VStr id_field) VNone) in
      if is_none item_id then collect_ids rest id_field master_id_set else
      let* master_id_set := set_add master_id_set item_id in
      collect_ids rest id_field master_id_set
  end.

(** The loop over the union sources (lines 71-77). *)
Fixpoint union_ids (sources : list union_source) (all_data : tables)
    (master_id_set : list value) : M (list value) :=
  match sources with
  | [] => ret master_id_set
  | source :: rest =>
      let source_data := default (VDict []) (all_data !! us_name source) in
      let* items := lift (py_values source_data) in
      let* master_id_set :=
        collect_ids items (us_id_field source) master_id_set in
      union_ids rest all_data master_id_set
  end.

Section Stage.

Variable py_float : string -> option spec_float.

(** The order in which a loop draws the elements of a set, which Python
    leaves open: a parameter. *)
Variable set_iter : list value -> list value.

(** The items handed to [resolve_data] (lines 68-83): the ids gathered from
    the union sources, or the values of the primary table. *)
Definition stage_items (spec : stage_spec) (all_data : tables)
  : M (list value) :=
  if opt_is (resolution_strategy (resolver_spec spec)) "union" then
    let* master_id_set :=
      union_ids (default [] (union_sources spec)) all_data [] in
    ret (set_iter master_id_set)
  else
    let primary_data :=
      default (VDict [])
        (primary_source (resolver_spec spec) ≫= fun name => all_data !! name) in
    lift (py_values primary_data).

(** Stage 2 of [run_processing_pipeline] (lines 66-84), up to the resolved
    objects. *)
Definition resolution_stage (spec : stage_spec) (all_data : tables)
  : M (list value) :=
  let* items := stage_items spec all_data in
  resolve_data py_float (resolver_spec spec) all_data items.

End Stage.

(** ** Notions used in the statements *)

(** [P] holds of the rules directly below [r]: its link key, the key of its
    condition, the alternatives of its coalesce and the rules of its nested
    structures. *)
Definition below (P : rule -> Prop) (r : rule) : Prop :=
  from_option P True (r_link_key r) /\
  from_option (fun c => P (c_key c)) True (r_condition r) /\
  from_option (Forall P) True (r_coalesce r) /\
  from_option (Forall (fun kr => P kr.2)) True (r_fields r) /\
  from_option (Forall (fun kr => P kr.2)) True (r_sub_object r).

(** The characters of [s] after the first [n]. *)
Fixpoint string_drop (n : nat) (s : string) : string :=
  match n, s with
  | S n', String _ s' => string_drop n' s'
  | _, _ => s
  end.

(** The class of the key a record holds under [key_field], which is
    [item.get(key_field)] hashed: [None] when [item] is not a record or the
    key it holds cannot be hashed. *)
Definition record_key (key_field : string) (item : value) : option hkey :=
  match item with
  | VDict d => hash_key (from_option id VNone (dict_find (KStr key_field) d))
  | _ => None
  end.

(** The records of [items] whose key is of class [hk], in the order of
    [items]. *)
Definition records_with (key_field : string) (hk : hkey) (items : list value)
  : list value :=
  filter (fun item => record_key key_field item = Some hk) items.

(** No two entries of a dict have keys of the same class. *)
Definition distinct_keys {V} (d : list (value * V)) : Prop :=
  NoDup (map hash_key (dict_keys d)).

(** The record after the values [fields] of the fields of [structure] are
    stored, in order, into [output_node]. *)
Fixpoint store_all (structure : structure) (fields : list (option value))
    (output_node : dict) : dict :=
  match structure, fields with
  | (key, _) :: rest, field :: fields' =>
      store_all rest fields' (store key field output_node)
  | _, _ => output_node
  end.

(** The names of the fields that were given a value. *)
Fixpoint stored_keys (structure : structure) (fields : list (option value))
  : list string :=
  match structure, fields with
  | (key, _) :: rest, Some _ :: fields' => key :: stored_keys rest fields'
  | _ :: rest, None :: fields' => stored_keys rest fields'
  | _, _ => []
  end.

(** The list a List rule takes from the entry it fetched: the declared
    field of a record (the empty list when the record lacks the field), else
    the entry when it is a list, else the empty list. *)
Definition extracted_list (field : option string) (linked_item : value)
  : value :=
  match field, linked_item with
  | Some field, VDict record =>
      from_option id (VList []) (dict_find (KStr field) record)
  | _, _ => list_or_empty linked_item
  end.

(** Whatever [m1] returns, [m2] returns. *)
Definition refines {A} (m1 m2 : M A) : Prop :=
  forall a, returns m1 a -> returns m2 a.

(** The records of all the groups of a grouped table, group after group. *)
Definition grouped_records (table : dict) : list value :=
  concat (map (fun kv => match kv.2 with
                         | VList group => group
                         | _ => []
                         end) table).

(** The records of a union source can be read: its table is absent or a
    mapping, and each of its values is a record whose id can be hashed. *)
Definition readable_source (all_data : tables) (source : union_source)
  : Prop :=
  exists table,
    default (VDict []) (all_data !! us_name source) = VDict table /\
    Forall (fun item => is_Some (record_key (us_id_field source) item))
           table.*2.

(** An instance of the [float] parameter for the closed examples, none of
    which casts to float. *)
Definition no_float : string -> option spec_float := fun _ => None.

(** ** Example data *)

(** The tables, contexts and rules of the examples of the specification. *)
Definition creatures : dict :=
  [(VStr "c1", VDict [(VStr "name", VStr "Wolf")])].

Definition wolf_tables : tables := {["creatures" := VDict creatures]}.

Definition spawner_context (creature_id : value) : value :=
  VDict [(VStr "spawner", VDict [(VStr "creature_id", creature_id)])].

Definition creature_name : rule :=
  linked (direct "spawner" "creature_id") "creatures" (Some "name").

Definition spawners : dict :=
  [(VStr "z1", VList [VDict [(VStr "id", VStr "s1")];
                      VDict [(VStr "id", VStr "s2")]])].

Definition loot : dict :=
  [(VStr "z1", VDict [(VStr "drops", VDict [(VStr "gold", VInt 1)])])].

Definition zone_tables : tables :=
  <["loot" := VDict loot]> {["spawners" := VDict spawners]}.

Definition zone_context : value :=
  VDict [(VStr "zone", VDict [(VStr "zone_id", VStr "z1")])].

Definition spawner_list : rule :=
  list_of "spawners" (direct "zone" "zone_id") None
          (Some [("id", parent (Some "id"))]).

Definition drops_list : rule :=
  list_of "loot" (direct "zone" "zone_id") (Some "drops") None.

Definition item_context : value :=
  VDict [(VStr "item", VDict [(VStr "id", VStr "i1"); (VStr "b", VInt 5)])].

Definition item_tables : tables :=
  <["raw" := VList []]> {["items" := VDict [(VStr "i1", VDict [])]]}.

(** A rule that raises when it is resolved against [item_tables]: its
    table is a list. *)
Definition raising_rule : rule := linked (direct "item" "b") "raw" None.

Definition fallback_rule : rule :=
  coalesce_of [direct "item" "a"; direct "item" "b"; raising_rule].

(** A field that is left out when the item is found in the table. *)
Definition unless_listed : rule :=
  with_condition (Condition "items" (direct "item" "id") (Some false))
                 (direct "item" "b").

Definition item_structure : structure :=
  [("id", direct "item" "id");
   ("extra", unless_listed);
   ("stats", object_of None);
   ("b", direct "item" "b")].

Definition semicolon_int : rule :=
  with_transform (Transform (Some "split") None (Some ";") (Some "int"))
                 (direct "item" "ids").

Definition empty_delimiter : rule :=
  with_transform (Transform (Some "split") None (Some "") None)
                 (direct "item" "tags").

Definition records : list value :=
  [VDict [(VStr "id", VStr "a"); (VStr "n", VInt 1)];
   VDict [(VStr "n", VInt 2)];
   VDict [(VStr "id", VStr "a"); (VStr "n", VInt 3)]].

Definition creature_spec : spec :=
  Spec (Some [("name", direct "creatures" "name")]) None (Some "creatures").

Definition item_spec : spec := Spec (Some item_structure) None (Some "item").


(** Two records with distinct keys. *)
Definition distinct_records : list value :=
  [VDict [(VStr "id", VStr "a"); (VStr "n", VInt 1)];
   VDict [(VStr "id", VStr "b"); (VStr "n", VInt 2)]].

(** Two sources of a union: one id is in both, and one record has no id. *)
Definition weapons : dict :=
  [(VStr "w1", VDict [(VStr "item_id", VStr "sword")]);
   (VStr "w2", VDict [(VStr "name", VStr "nameless")])].

Definition armours : dict :=
  [(VStr "a1", VDict [(VStr "item_id", VStr "sword")]);
   (VStr "a2", VDict [(VStr "item_id", VStr "shield")])].

Definition gear_tables : tables :=
  <["armours" := VDict armours]> {["weapons" := VDict weapons]}.

Definition gear_sources : list union_source :=
  [UnionSource "weapons" "item_id"; UnionSource "armours" "item_id"].

Definition gear_spec : stage_spec :=
  StageSpec (Spec (Some [("id", context_alias "union_id")]) (Some "union") None)
            (Some gear_sources).

(** The creatures as the primary source. *)
Definition creature_stage : stage_spec := StageSpec creature_spec None.

(** The name of a creature, found by a lookup transform. *)
Definition creature_lookup : rule :=
  with_transform (Transform (Some "lookup") (Some "creatures") None None)
                 (direct "spawner" "creature_id").

(** The drops of a zone as a table of their own: the entry of the zone is
    the mapping that [loot] holds under the field [drops]. *)
Definition drop_tables : tables :=
  <["drops" := VDict [(VStr "z1", VDict [(VStr "gold", VInt 1)])]]> zone_tables.

(** The same fetch as [drops_list], from [drop_tables] and with no field. *)
Definition drops_entry : rule :=
  list_of "drops" (direct "zone" "zone_id") None None.

(** A lookup transform into the table of the spawners. *)
Definition spawner_lookup : rule :=
  with_transform (Transform (Some "lookup") (Some "spawners") None None)
                 (direct "spawner" "creature_id").


(** * Properties *)

(** ** The monad *)

Lemma bind_outcome {A B} (m : M A) (f : A -> M B) :
  (bind m f).2 = match m.2 with
                 | Return a => (f a).2
                 | Raise e => Raise e
                 end.
Proof.
  destruct m as [l [a|e]]; unfold bind; simpl; [destruct (f a)|]; reflexivity.
Qed.

Lemma returns_bind {A B} (m : M A) (f : A -> M B) (b : B) :
  returns (bind m f) b <-> exists a, returns m a /\ returns (f a) b.
Proof.
  unfold returns. rewrite bind_outcome. split.
  - destruct (m.2) as [a|e]; [eauto | discriminate].
  - intros (a & -> & H). exact H.
Qed.

Lemma raises_bind {A B} (m : M A) (f : A -> M B) (e : exn) :
  raises (bind m f) e <->
  raises m e \/ exists a, returns m a /\ raises (f a) e.
Proof.
  unfold raises, returns. rewrite bind_outcome. split.
  - destruct (m.2) as [a|e']; [eauto | intros [= ->]; auto].
  - intros [-> | (a & -> & H)]; auto.
Qed.

Lemma bind_ret_l {A B} (a : A) (f : A -> M B) : bind (ret a) f = f a.
Proof. unfold bind, ret. destruct (f a); reflexivity. Qed.

Lemma bind_log {A B} (m : M A) (f : A -> M B) (a : A) :
  returns m a -> (bind m f).1 = (m.1 ++ (f a).1)%list.
Proof.
  unfold returns, bind. destruct m as [l o]; simpl. intros ->.
  by destruct (f a).
Qed.

Lemma bind_returned {A B} (m : M A) (f g : A -> M B) (a : A) :
  returns m a -> f a = g a -> bind m f = bind m g.
Proof.
  unfold returns, bind. destruct m as [l o]; simpl. by intros -> ->.
Qed.

Lemma returns_ret {A} (a b : A) : returns (ret a) b <-> a = b.
Proof. unfold returns; simpl. split; [intros [= ->] | intros ->]; auto. Qed.

Lemma returns_lift {A} (o : outcome A) (a : A) :
  returns (lift o) a <-> o = Return a.
Proof. reflexivity. Qed.

Lemma returns_inj {A} (m : M A) (a b : A) :
  returns m a -> returns m b -> a = b.
Proof. unfold returns. intros -> [= ->]. reflexivity. Qed.

Lemma returns_not_raises {A} (m : M A) (a : A) (e : exn) :
  returns m a -> raises m e -> False.
Proof. unfold returns, raises. intros ->. discriminate. Qed.

Lemma returns_for_each {A B} (f : A -> M B) (xs : list A) (ys : list B) :
  returns (for_each f xs) ys <-> Forall2 (fun x y => returns (f x) y) xs ys.
Proof.
  revert ys. induction xs as [|x xs IH]; intros ys; simpl.
  - rewrite returns_ret. split; [intros <-; constructor | by inversion 1].
  - rewrite returns_bind. split.
    + intros (y & Hy & H). apply returns_bind in H as (ys' & Hys & H).
      apply returns_ret in H as <-. constructor; [done | by apply IH].
    + inversion 1 as [|? y ? ys' Hy Hys]; subst. exists y. split; [done|].
      apply returns_bind. exists ys'. split; [by apply IH | by apply returns_ret].
Qed.

(** ** Induction on rules *)

Lemma rule_induction (P : rule -> Prop) :
  (forall r, below P r -> P r) -> forall r, P r.
Proof.
  intros step. fix IH 1. intros r. apply step.
  destruct r as [lk fr fd fc fp tr cd co ty fs so]. unfold below; simpl.
  repeat split.
  - destruct lk as [x|]; simpl; [apply IH | exact I].
  - destruct cd as [[src k ex]|]; simpl; [apply IH | exact I].
  - destruct co as [l|]; simpl; [|exact I].
    induction l as [|x l IHl]; constructor; [apply IH | exact IHl].
  - destruct fs as [l|]; simpl; [|exact I].
    induction l as [|[k x] l IHl]; constructor; [apply IH | exact IHl].
  - destruct so as [l|]; simpl; [|exact I].
    induction l as [|[k x] l IHl]; constructor; [apply IH | exact IHl].
Qed.

(** ** Strings *)

Lemma split_from_cons sep c s skip piece :
  split_from sep (String c s) skip piece =
  match skip with
  | S n => split_from sep s n piece
  | O =>
      if String.prefix sep (String c s)
      then piece :: split_from sep s (String.length sep - 1) ""
      else split_from sep s 0 (piece ++ String c "")
  end.
Proof. reflexivity. Qed.

Lemma split_from_not_nil sep s skip piece : split_from sep s skip piece <> [].
Proof.
  revert skip piece. induction s as [|c s IH]; intros skip piece; [done|].
  rewrite split_from_cons. destruct skip; [|apply IH].
  destruct (String.prefix sep (String c s)); [done|apply IH].
Qed.

Lemma prefix_drop sep s :
  String.prefix sep s = true -> s = (sep ++ string_drop (String.length sep) s)%string.
Proof.
  revert s. induction sep as [|a sep IH]; intros [|c s]; simpl; try done.
  destruct (Ascii.ascii_dec a c) as [->|]; [|done].
  intros H. rewrite (IH s H) at 1. reflexivity.
Qed.

Lemma prefix_length sep s :
  String.prefix sep s = true -> (String.length sep <= String.length s)%nat.
Proof.
  revert s. induction sep as [|a sep IH]; intros [|c s]; simpl;
    try done; try lia.
  destruct (Ascii.ascii_dec a c) as [->|]; [|done].
  intros H. apply IH in H. lia.
Qed.

Lemma append_cons a (x y : string) :
  (String a x ++ y)%string = String a (x ++ y)%string.
Proof. reflexivity. Qed.

Lemma append_assoc' (a b c : string) : ((a ++ b) ++ c = a ++ (b ++ c))%string.
Proof. induction a as [|x a IH]; [done|]. by rewrite !append_cons, IH. Qed.

Lemma append_nil_r' (a : string) : (a ++ "")%string = a.
Proof. induction a as [|x a IH]; [done|]. by rewrite append_cons, IH. Qed.

Lemma concat_cons sep x l :
  l <> [] -> String.concat sep (x :: l) = (x ++ sep ++ String.concat sep l)%string.
Proof. by destruct l. Qed.

Lemma split_from_concat sep s skip piece :
  sep <> "" ->
  (skip <= String.length s)%nat ->
  String.concat sep (split_from sep s skip piece) =
  (piece ++ string_drop skip s)%string.
Proof.
  intros Hsep.
  revert skip piece. induction s as [|c s IH]; intros skip piece Hskip.
  - simpl in *. assert (skip = 0%nat) as -> by lia. simpl.
    by rewrite append_nil_r'.
  - rewrite split_from_cons. destruct skip as [|n].
    + destruct (String.prefix sep (String c s)) eqn:Hp.
      * pose proof (prefix_length _ _ Hp) as Hlen.
        pose proof (prefix_drop _ _ Hp) as Hs.
        rewrite concat_cons by apply split_from_not_nil.
        destruct sep as [|a sep]; [done|].
        simpl String.length in *.
        replace (S (String.length sep) - 1)%nat with (String.length sep)
          by lia.
        rewrite IH by lia. simpl string_drop in *.
        change ("" ++ ?x)%string with x. by rewrite <- Hs.
      * rewrite IH by (simpl; lia). simpl string_drop.
        by rewrite append_assoc'.
    + simpl. apply IH. simpl in Hskip. lia.
Qed.

(** [sep.join(s.split(sep)) == s]: joining the pieces of a split with the
    separator gives the string back. *)
Lemma split_join sep s :
  sep <> "" -> String.concat sep (split_from sep s 0 "") = s.
Proof. intros Hsep. rewrite split_from_concat; [done | done | lia]. Qed.

(** ** Dictionaries *)

Lemma hash_key_none k : hash_key k = Some KNone <-> k = VNone.
Proof.
  split; [|intros ->; reflexivity].
  destruct k as [| | |f| | |]; simpl; try discriminate; [done|].
  destruct f as [| | |s m e]; simpl; try discriminate.
  destruct (strip_zeros m e) as [m' e']. destruct (0 <=? e'); discriminate.
Qed.

Lemma is_none_hash k hk :
  hash_key k = Some hk -> is_none k = bool_decide (hk = KNone).
Proof.
  intros H. case_bool_decide as Hk.
  - subst hk. apply hash_key_none in H as ->. reflexivity.
  - destruct k; try reflexivity. simpl in H. by injection H as <-.
Qed.

Section dict_facts.

Context {V : Type}.
Implicit Types (d : list (value * V)) (v : V).

Lemma dict_find_set_eq hk k v d :
  hash_key k = Some hk -> dict_find hk (dict_set hk k v d) = Some v.
Proof.
  intros Hk. induction d as [|[k' v'] d IH]; simpl.
  - by rewrite decide_True.
  - case_decide as Hk'; simpl.
    + by rewrite decide_True.
    + by rewrite decide_False.
Qed.

Lemma dict_find_set_ne hk hk' k v d :
  hash_key k = Some hk -> hk <> hk' ->
  dict_find hk' (dict_set hk k v d) = dict_find hk' d.
Proof.
  intros Hk Hne. induction d as [|[k' v'] d IH]; simpl.
  - rewrite decide_False; [done | congruence].
  - case_decide as Hk'; simpl.
    + rewrite !decide_False; [done | congruence..].
    + case_decide; [done | apply IH].
Qed.

Lemma dict_find_set hk hk' k v d :
  hash_key k = Some hk ->
  dict_find hk' (dict_set hk k v d) =
  if decide (hk = hk') then Some v else dict_find hk' d.
Proof.
  intros Hk. case_decide as H.
  - subst hk'. by apply dict_find_set_eq.
  - by apply dict_find_set_ne.
Qed.

Lemma dict_find_None hk d :
  dict_find hk d = None <-> Some hk ∉ map hash_key (dict_keys d).
Proof.
  induction d as [|[k' v'] d IH]; simpl.
  - split; [intros _; apply not_elem_of_nil | done].
  - rewrite not_elem_of_cons. case_decide as Hk'.
    + split; [discriminate | intros [H _]; by destruct H].
    + rewrite IH. split; [intros H; split; [congruence | done] | by intros [_ H]].
Qed.

Lemma dict_find_Some_elem hk d v :
  dict_find hk d = Some v -> exists k, hash_key k = Some hk /\ (k, v) ∈ d.
Proof.
  induction d as [|[k' v'] d IH]; simpl; [discriminate|].
  case_decide as Hk'.
  - intros [= ->]. exists k'. split; [done | apply elem_of_cons; by left].
  - intros H. destruct (IH H) as (k & Hk & Hin). exists k.
    split; [done | apply elem_of_cons; by right].
Qed.

(** Assigning keeps the keys when the class is there, and adds the key at
    the end when it is not. *)
Lemma dict_set_keys hk k v d :
  dict_keys (dict_set hk k v d) =
  if decide (Some hk ∈ map hash_key (dict_keys d)) then dict_keys d
  else (dict_keys d ++ [k])%list.
Proof.
  induction d as [|[k' v'] d IH]; simpl; [done|].
  destruct (decide (hash_key k' = Some hk)) as [Hk'|Hk']; simpl.
  - rewrite decide_True; [done | apply elem_of_cons; by left].
  - rewrite IH. unfold dict_keys.
    destruct (decide (Some hk ∈ map hash_key (map fst d))) as [Hin|Hin].
    + rewrite decide_True; [done | apply elem_of_cons; by right].
    + rewrite decide_False; [done|].
      rewrite not_elem_of_cons. split; [congruence | done].
Qed.

Lemma dict_set_distinct hk k v d :
  hash_key k = Some hk -> distinct_keys d -> distinct_keys (dict_set hk k v d).
Proof.
  unfold distinct_keys. intros Hk Hd. rewrite dict_set_keys.
  case_decide as Hin; [done|].
  rewrite map_app. simpl. rewrite Hk.
  apply NoDup_app. split; [done|]. split.
  - intros x Hx Hx'. apply list_elem_of_singleton in Hx' as ->. done.
  - apply NoDup_singleton.
Qed.

End dict_facts.

Lemma distinct_keys_nil {V} : distinct_keys (@nil (value * V)).
Proof. apply NoDup_nil_2. Qed.

Lemma dict_find_map_values {V W} (f : V -> W) hk (d : list (value * V)) :
  dict_find hk (map (fun '(k, v) => (k, f v)) d) = f <$> dict_find hk d.
Proof.
  induction d as [|[k v] d IH]; simpl; [done|]. by case_decide.
Qed.

Lemma dict_keys_map_values {V W} (f : V -> W) (d : list (value * V)) :
  dict_keys (map (fun '(k, v) => (k, f v)) d) = dict_keys d.
Proof.
  unfold dict_keys. induction d as [|[k v] d IH]; simpl; [done|].
  by rewrite IH.
Qed.

(** ** The standardizer *)

Lemma record_key_get key_field item hk :
  record_key key_field item = Some hk ->
  exists k, py_get item (VStr key_field) VNone = Return k /\
            hash_key k = Some hk.
Proof.
  destruct item as [| | | | | |d]; try discriminate. simpl. intros H.
  eexists. split; [reflexivity | exact H].
Qed.

Lemma records_with_cons key_field hk item items :
  records_with key_field hk (item :: items) =
  if decide (record_key key_field item = Some hk)
  then item :: records_with key_field hk items
  else records_with key_field hk items.
Proof. unfold records_with. by rewrite filter_cons. Qed.

(** The comprehension of [create_lookup_map] returns on records with
    hashable keys; each class of key holds the last record of that class. *)
Lemma lookup_from_spec key_field items acc :
  Forall (fun item => is_Some (record_key key_field item)) items ->
  exists table,
    returns (lookup_from items key_field acc) table /\
    (distinct_keys acc -> distinct_keys table) /\
    (forall k, k ∈ dict_keys table ->
               k ∈ dict_keys acc \/
               exists item, item ∈ items /\
                            py_get item (VStr key_field) VNone = Return k) /\
    forall hk,
      dict_find hk table =
      from_option Some (dict_find hk acc)
        (last (records_with key_field hk items)).
Proof.
  intros Hall. revert acc.
  induction Hall as [|item items [hk0 Hitem] _ IH]; intros acc.
  - exists acc. split; [by apply returns_ret|]. split; [done|].
    split; [by left | done].
  - destruct (record_key_get _ _ _ Hitem) as (k & Hget & Hk).
    destruct (IH (dict_set hk0 k item acc)) as (table & Hret & Hdis & Hkeys & Hfind).
    exists table. split; [|split; [|split]].
    + simpl. apply returns_bind. exists k. split; [by apply returns_lift|].
      apply returns_bind. exists (dict_set hk0 k item acc).
      split; [|done]. unfold set_item. rewrite Hk. by apply returns_ret.
    + intros Hacc. apply Hdis. by apply dict_set_distinct.
    + intros k' Hk'. destruct (Hkeys k' Hk') as [Hin|(item' & Hin & Hget')].
      * rewrite dict_set_keys in Hin. case_decide; [by left|].
        apply elem_of_app in Hin as [Hin|Hin]; [by left|].
        apply list_elem_of_singleton in Hin as ->. right. exists item.
        split; [apply elem_of_cons; by left | done].
      * right. exists item'. split; [apply elem_of_cons; by right | done].
    + intros hk. rewrite Hfind, records_with_cons, (dict_find_set _ _ _ _ _ Hk).
      destruct (decide (hk0 = hk)) as [->|Hne].
      * rewrite decide_True by done. rewrite last_cons.
        by destruct (last (records_with key_field hk items)).
      * rewrite decide_False by congruence. done.
Qed.

(** The groups of [create_grouping_map]: every class of key other than
    [None] gathers its records in the order of the source. *)
Lemma grouping_from_spec key_field items acc :
  Forall (fun item => is_Some (record_key key_field item)) items ->
  exists grouped_data,
    returns (grouping_from items key_field acc) grouped_data /\
    (distinct_keys acc -> distinct_keys grouped_data) /\
    forall hk,
      dict_find hk grouped_data =
      match (if decide (hk = KNone) then []
             else records_with key_field hk items) with
      | [] => dict_find hk acc
      | group => Some (default [] (dict_find hk acc) ++ group)%list
      end.
Proof.
  intros Hall. revert acc.
  induction Hall as [|item items [hk0 Hitem] _ IH]; intros acc.
  - exists acc. split; [by apply returns_ret|]. split; [done|].
    intros hk. by case_decide.
  - destruct (record_key_get _ _ _ Hitem) as (k & Hget & Hk).
    pose proof (is_none_hash _ _ Hk) as Hnone.
    destruct (decide (hk0 = KNone)) as [->|Hk0].
    + destruct (IH acc) as (g & Hret & Hdis & Hfind). exists g.
      split; [|split; [done|]].
      * simpl. apply returns_bind. exists k. split; [by apply returns_lift|].
        rewrite Hnone. done.
      * intros hk. rewrite Hfind, records_with_cons.
        destruct (decide (hk = KNone)) as [->|Hne]; [done|].
        rewrite decide_False by congruence. done.
    + set (acc' := dict_set hk0 k (default [] (dict_find hk0 acc) ++ [item])%list acc).
      destruct (IH acc') as (g & Hret & Hdis & Hfind). exists g.
      split; [|split].
      * simpl. apply returns_bind. exists k. split; [by apply returns_lift|].
        rewrite Hnone, bool_decide_eq_false_2 by done. rewrite Hk. exact Hret.
      * intros Hacc. apply Hdis. by apply dict_set_distinct.
      * intros hk. rewrite Hfind, records_with_cons. unfold acc'.
        rewrite (dict_find_set _ _ _ _ _ Hk).
        destruct (decide (hk = KNone)) as [->|Hne].
        { rewrite decide_False by done. done. }
        destruct (decide (hk0 = hk)) as [->|Hne'].
        -- rewrite decide_True by done. simpl.
           destruct (records_with key_field hk items); simpl; [done|].
           by rewrite <- app_assoc.
        -- rewrite decide_False by congruence. done.
Qed.

Lemma records_with_none key_field hk items :
  Forall (fun item => record_key key_field item <> Some hk) items ->
  records_with key_field hk items = [].
Proof.
  induction 1 as [|item items Hitem _ IH]; [done|].
  rewrite records_with_cons. by rewrite decide_False.
Qed.

Lemma create_lookup_map_unfold items key_field :
  create_lookup_map (VList items) key_field =
  let* table := lookup_from items key_field [] in ret (VDict table).
Proof. unfold create_lookup_map. exact (bind_ret_l items _). Qed.

Lemma create_grouping_map_unfold items key_field :
  create_grouping_map (VList items) key_field =
  let* grouped_data := grouping_from items key_field [] in
  ret (VDict (map (fun '(k, group) => (k, VList group)) grouped_data)).
Proof. unfold create_grouping_map. exact (bind_ret_l items _). Qed.

(** What [create_lookup_map] returns on records with hashable keys. *)
Lemma create_lookup_map_spec key_field items :
  Forall (fun item => is_Some (record_key key_field item)) items ->
  exists table,
    returns (create_lookup_map (VList items) key_field) (VDict table) /\
    distinct_keys table /\
    forall hk,
      dict_find hk table = last (records_with key_field hk items).
Proof.
  intros Hall.
  destruct (lookup_from_spec key_field items [] Hall)
    as (table & Hret & Hdis & _ & Hfind).
  exists table. split; [|split].
  - rewrite create_lookup_map_unfold. apply returns_bind. exists table.
    split; [done | by apply returns_ret].
  - apply Hdis, distinct_keys_nil.
  - intros hk. rewrite Hfind. simpl.
    by destruct (last (records_with key_field hk items)).
Qed.

(** What [create_grouping_map] returns on records with hashable keys. *)
Lemma create_grouping_map_spec key_field items :
  Forall (fun item => is_Some (record_key key_field item)) items ->
  exists table,
    returns (create_grouping_map (VList items) key_field) (VDict table) /\
    distinct_keys table /\
    forall hk,
      dict_find hk table =
      if decide (hk = KNone) then None
      else match records_with key_field hk items with
           | [] => None
           | group => Some (VList group)
           end.
Proof.
  intros Hall.
  destruct (grouping_from_spec key_field items [] Hall)
    as (g & Hret & Hdis & Hfind).
  exists (map (fun '(k, group) => (k, VList group)) g). split; [|split].
  - rewrite create_grouping_map_unfold. apply returns_bind. exists g.
    split; [done | by apply returns_ret].
  - unfold distinct_keys. rewrite dict_keys_map_values.
    apply Hdis, distinct_keys_nil.
  - intros hk. rewrite dict_find_map_values, Hfind.
    case_decide; [done|].
    by destruct (records_with key_field hk items).
Qed.

(** C7 (amended). On a list of records whose keys can be hashed, and with a
    key declared: under any strategy but group_by (so under lookup, which is
    also the default) the result is a keyed table with at most one record per
    key, each key holding the last record of the source with that key; under
    group_by each key other than [None] holds the list of all the records
    with that key in the order of the source, and the records whose key is
    missing or [None] are in no group.  With no key declared and a strategy
    other than group_by, the source data is returned unchanged. *)
Theorem standardize_source_spec :
  (forall (items : list value) (source_spec : source_spec) (key : string),
     Forall (fun item => is_Some (record_key key item)) items ->
     nonempty (ss_key source_spec) = Some key ->
     (default "lookup" (ss_strategy source_spec) <> "group_by" ->
      exists table,
        returns (standardize_source (VList items) source_spec) (VDict table) /\
        distinct_keys table /\
        forall hk, dict_find hk table = last (records_with key hk items)) /\
     (default "lookup" (ss_strategy source_spec) = "group_by" ->
      exists table,
        returns (standardize_source (VList items) source_spec) (VDict table) /\
        distinct_keys table /\
        forall hk,
          dict_find hk table =
          if decide (hk = KNone) then None
          else match records_with key hk items with
               | [] => None
               | group => Some (VList group)
               end)) /\
  (forall (source_data : value) (source_spec : source_spec),
     nonempty (ss_key source_spec) = None ->
     default "lookup" (ss_strategy source_spec) <> "group_by" ->
     standardize_source source_data source_spec = ret source_data).
Proof.
  split.
  - intros items source_spec key Hall Hkey. unfold standardize_source.
    rewrite Hkey. split; intros Hs.
    + rewrite (proj2 (String.eqb_neq _ _) Hs).
      by apply create_lookup_map_spec.
    + rewrite (proj2 (String.eqb_eq _ _) Hs).
      by apply create_grouping_map_spec.
  - intros source_data source_spec Hkey Hs. unfold standardize_source.
    by rewrite Hkey, (proj2 (String.eqb_neq _ _) Hs).
Qed.

(** C10. [create_lookup_map] keeps a record that lacks the key field: on
    records with hashable keys it returns a table that has the key [None],
    whose entry is the last record of the source whose key field is missing
    or [None] (the record itself when none follows it), while
    [create_grouping_map] returns a table without the key [None] and with
    the record in no group. *)
Theorem lookup_keeps_keyless_records
    (key_field : string) (before after : list value) (d : dict) :
  let items := (before ++ VDict d :: after)%list in
  dict_find (KStr key_field) d = None ->
  Forall (fun item => is_Some (record_key key_field item)) items ->
  (exists table,
     returns (create_lookup_map (VList items) key_field) (VDict table) /\
     VNone ∈ dict_keys table /\
     is_Some (dict_find KNone table) /\
     dict_find KNone table = last (records_with key_field KNone items) /\
     (Forall (fun item => record_key key_field item <> Some KNone) after ->
      dict_find KNone table = Some (VDict d))) /\
  (exists groups,
     returns (create_grouping_map (VList items) key_field) (VDict groups) /\
     (VNone ∉ dict_keys groups) /\
     dict_find KNone groups = None /\
     forall hk group,
       dict_find hk groups = Some (VList group) -> VDict d ∉ group).
Proof.
  intros items Hd Hall.
  assert (Hrec : record_key key_field (VDict d) = Some KNone).
  { simpl. by rewrite Hd. }
  assert (Hlast : last (records_with key_field KNone items) =
                  last (VDict d :: records_with key_field KNone after)).
  { unfold items, records_with. rewrite filter_app, filter_cons.
    rewrite decide_True by done. apply last_app_cons. }
  split.
  - destruct (create_lookup_map_spec key_field items Hall)
      as (table & Hret & Hdis & Hfind).
    exists table. split; [done|].
    assert (Hsome : is_Some (dict_find KNone table)).
    { rewrite Hfind, Hlast, last_cons.
      by destruct (last (records_with key_field KNone after)). }
    split; [|split; [done|split; [done|]]].
    + destruct Hsome as [v Hv].
      apply dict_find_Some_elem in Hv as (k & Hk & Hin).
      apply hash_key_none in Hk as ->.
      apply list_elem_of_fmap. by exists (VNone, v).
    + intros Hafter. rewrite Hfind, Hlast.
      by rewrite (records_with_none _ _ _ Hafter).
  - destruct (create_grouping_map_spec key_field items Hall)
      as (groups & Hret & Hdis & Hfind).
    exists groups. split; [done|].
    assert (Hnone : dict_find KNone groups = None).
    { rewrite Hfind. by rewrite decide_True. }
    split; [|split; [done|]].
    + intros Hin. apply dict_find_None in Hnone. apply Hnone.
      apply list_elem_of_fmap. by exists VNone.
    + intros hk group Hg Hin. rewrite Hfind in Hg.
      case_decide as Hhk; [done|].
      assert (group = records_with key_field hk items) as ->.
      { destruct (records_with key_field hk items); [done | congruence]. }
      apply list_elem_of_filter in Hin as [Hin _]. congruence.
Qed.
(** ** Unfolding the tree builder *)

Section Properties.

Variable py_float : string -> option spec_float.

Lemma build_field_unfold context key rule all_data :
  build_field py_float context key rule all_data =
  let* met :=
    match r_condition rule with
    | Some condition_rule => _check_condition context condition_rule all_data
    | None => ret true
    end in
  if negb met then ret None else
  let* val := field_value py_float context key rule all_data in
  ret (Some val).
Proof. destruct rule; reflexivity. Qed.

Lemma build_from_cons context all_data key rule rest output_node :
  build_from py_float context all_data ((key, rule) :: rest) output_node =
  let* field := build_field py_float context key rule all_data in
  build_from py_float context all_data rest (store key field output_node).
Proof. reflexivity. Qed.


(** ** The loop of the tree builder *)

(** [_build_node] returns exactly when every field returns, and then it
    returns the fields stored in the order of the structure. *)
Lemma build_from_returns context all_data structure output_node output :
  returns (build_from py_float context all_data structure output_node) output
  <->
  exists fields,
    Forall2 (fun kr field =>
               returns (build_field py_float context kr.1 kr.2 all_data) field)
            structure fields /\
    output = store_all structure fields output_node.
Proof.
  revert output_node.
  induction structure as [|[key rule] rest IH]; intros output_node.
  - simpl. rewrite returns_ret. split.
    + intros <-. exists []. split; [constructor | done].
    + intros (fields & Hall & ->). by inversion Hall.
  - rewrite build_from_cons, returns_bind. split.
    + intros (field & Hfield & H). apply IH in H as (fields & Hall & ->).
      exists (field :: fields). split; [by constructor | done].
    + intros (fields & Hall & ->).
      inversion Hall as [|? field ? fields' Hfield Hall']; subst.
      exists field. split; [done|]. apply IH. by exists fields'.
Qed.

Lemma store_all_keys structure fields output_node :
  length fields = length structure ->
  NoDup structure.*1 ->
  (forall key, key ∈ structure.*1 ->
               Some (KStr key) ∉ map hash_key (dict_keys output_node)) ->
  dict_keys (store_all structure fields output_node) =
  (dict_keys output_node ++ map VStr (stored_keys structure fields))%list.
Proof.
  revert fields output_node.
  induction structure as [|[key rule] rest IH];
    intros fields output_node Hlen Hnd Hfresh.
  - simpl. by rewrite app_nil_r.
  - destruct fields as [|field fields]; [discriminate|].
    simpl in Hlen. injection Hlen as Hlen.
    rewrite fmap_cons in Hnd. apply NoDup_cons in Hnd as [Hkey Hnd].
    simpl store_all. rewrite IH; [|done|done|].
    + destruct field as [val|]; simpl; [|done].
      rewrite dict_set_keys, decide_False.
      * by rewrite <- app_assoc.
      * apply Hfresh. rewrite fmap_cons. apply elem_of_cons. by left.
    + intros key' Hkey'.
      assert (Hold : Some (KStr key') ∉ map hash_key (dict_keys output_node)).
      { apply Hfresh. rewrite fmap_cons. apply elem_of_cons. by right. }
      destruct field as [val|]; simpl; [|done].
      rewrite dict_set_keys, decide_False.
      * rewrite map_app. simpl. intros Hin.
        apply elem_of_app in Hin as [Hin|Hin]; [done|].
        apply list_elem_of_singleton in Hin. injection Hin as ->. done.
      * apply Hfresh. rewrite fmap_cons. apply elem_of_cons. by left.
Qed.

Lemma store_all_find_other structure fields output_node key :
  key ∉ structure.*1 ->
  dict_find (KStr key) (store_all structure fields output_node) =
  dict_find (KStr key) output_node.
Proof.
  revert fields output_node.
  induction structure as [|[key' rule] rest IH]; intros fields output_node Hk.
  - done.
  - destruct fields as [|field fields]; [done|].
    rewrite fmap_cons in Hk. apply not_elem_of_cons in Hk as [Hne Hk].
    simpl store_all. rewrite IH by done.
    destruct field as [val|]; simpl; [|done].
    apply dict_find_set_ne; [done | naive_solver].
Qed.

(** The entry of a field in the record: its value, or no entry when the
    field was skipped and the record had none before. *)
Lemma store_all_find structure fields output_node key rule field :
  NoDup structure.*1 ->
  Forall2 (fun kr field' => kr.1 = key -> kr.2 = rule -> field' = field)
          structure fields ->
  (key, rule) ∈ structure ->
  dict_find (KStr key) (store_all structure fields output_node) =
  match field with
  | Some val => Some val
  | None => dict_find (KStr key) output_node
  end.
Proof.
  intros Hnd Hall. revert output_node Hnd.
  induction Hall as [|[key' rule'] field' rest fields Hfield _ IH];
    intros output_node Hnd Hin.
  - by apply elem_of_nil in Hin.
  - rewrite fmap_cons in Hnd. apply NoDup_cons in Hnd as [Hkey Hnd].
    simpl store_all. apply elem_of_cons in Hin as [[= <- <-]|Hin].
    + rewrite store_all_find_other by done.
      rewrite (Hfield eq_refl eq_refl).
      destruct field as [val|]; simpl; [|done].
      by apply dict_find_set_eq.
    + rewrite IH by done.
      assert (key <> key') as Hne.
      { intros ->. apply Hkey. apply list_elem_of_fmap. by exists (key', rule). }
      destruct field as [val|]; [done|].
      destruct field' as [val'|]; simpl; [|done].
      apply dict_find_set_ne; [done | naive_solver].
Qed.
Lemma condition_holds_met context rule all_data met :
  returns match r_condition rule with
          | Some condition_rule =>
              _check_condition context condition_rule all_data
          | None => ret true
          end met ->
  condition_holds context rule all_data = met.
Proof.
  unfold condition_holds, returns.
  destruct (r_condition rule) as [c|]; [by intros ->|].
  simpl. by intros [= <-].
Qed.

(** A field is skipped exactly when its condition is not met. *)
Lemma build_field_present context key rule all_data field :
  returns (build_field py_float context key rule all_data) field ->
  is_Some field <-> condition_holds context rule all_data = true.
Proof.
  rewrite build_field_unfold. intros H.
  apply returns_bind in H as (met & Hmet & H).
  rewrite (condition_holds_met _ _ _ _ Hmet).
  destruct met; simpl in H.
  - apply returns_bind in H as (val & _ & H). apply returns_ret in H as <-.
    split; [done | by eexists].
  - apply returns_ret in H as <-. split; [by intros [? ?] | done].
Qed.

Lemma condition_holds_returns context rule all_data :
  condition_holds context rule all_data = true ->
  returns match r_condition rule with
          | Some condition_rule =>
              _check_condition context condition_rule all_data
          | None => ret true
          end true.
Proof.
  unfold condition_holds, returns.
  destruct (r_condition rule) as [c|]; [|done].
  destruct (_check_condition context c all_data).2; [by intros ->|done].
Qed.

(** Past a condition that is met, the field holds the value of its
    branch. *)
Lemma build_field_met context key rule all_data field :
  condition_holds context rule all_data = true ->
  returns (build_field py_float context key rule all_data) field <->
  exists val,
    returns (field_value py_float context key rule all_data) val /\
    field = Some val.
Proof.
  intros Hmet. apply condition_holds_returns in Hmet.
  rewrite build_field_unfold, returns_bind. split.
  - intros (met & Hm & H). rewrite (returns_inj _ _ _ Hm Hmet) in H.
    simpl in H. apply returns_bind in H as (val & Hval & H).
    apply returns_ret in H as <-. by exists val.
  - intros (val & Hval & ->). exists true. split; [done|]. simpl.
    apply returns_bind. exists val. split; [done | by apply returns_ret].
Qed.

Lemma stored_keys_met context all_data structure fields :
  Forall2 (fun kr field =>
             returns (build_field py_float context kr.1 kr.2 all_data) field)
          structure fields ->
  stored_keys structure fields =
  (List.filter (fun kr => condition_holds context kr.2 all_data) structure).*1.
Proof.
  induction 1 as [|[key rule] field rest fields Hfield _ IH]; [done|].
  apply build_field_present in Hfield. simpl in *.
  destruct field as [val|].
  - rewrite (proj1 Hfield) by done. simpl. by rewrite IH.
  - destruct (condition_holds context rule all_data); [|done].
    by destruct (proj2 Hfield eq_refl).
Qed.

(** What [_build_node] returns holds, under the name of each field of the
    structure, what the field returned. *)
Lemma build_node_field context all_data structure output key rule field :
  NoDup structure.*1 ->
  returns (_build_node py_float context structure all_data) output ->
  (key, rule) ∈ structure ->
  returns (build_field py_float context key rule all_data) field ->
  dict_find (KStr key) output = field.
Proof.
  intros Hnd Hret Hin Hfield.
  apply build_from_returns in Hret as (fields & Hall & ->).
  rewrite (store_all_find _ _ _ key rule field Hnd); [by destruct field| |done].
  eapply Forall2_impl; [exact Hall|].
  intros [key' rule'] field' Hret' ? ?; simpl in *; subst.
  by eapply returns_inj.
Qed.

(** The keys of the record [_build_node] returns. *)
Lemma build_node_keys context all_data structure output :
  NoDup structure.*1 ->
  returns (_build_node py_float context structure all_data) output ->
  dict_keys output =
  map VStr
    (List.filter (fun kr => condition_holds context kr.2 all_data) structure).*1.
Proof.
  intros Hnd Hret.
  apply build_from_returns in Hret as (fields & Hall & ->).
  rewrite store_all_keys; [|by apply Forall2_length in Hall|done|].
  - simpl. by rewrite (stored_keys_met _ _ _ _ Hall).
  - intros key _. apply not_elem_of_nil.
Qed.

(** ** Conditions *)

Lemma check_condition_unfold context condition_rule all_data :
  _check_condition context condition_rule all_data =
  let* key_to_check :=
    _get_value context (c_key condition_rule) all_data true in
  if is_none key_to_check then ret false else
  let* exists_ :=
    lift (py_in key_to_check
            (default (VDict []) (all_data !! c_source condition_rule))) in
  ret (if bool_decide (c_exists condition_rule = Some true)
       then exists_ else negb exists_).
Proof. reflexivity. Qed.

(** C3. When the names of a structure are distinct and each of its fields
    returns, [_build_node] returns a record whose keys are the names of the
    fields whose condition, if any, is met, in the order of the structure: a
    field whose condition is not met has no entry, and a field whose
    condition is met holds the value the field returned.  A condition is
    not met when its key resolves to [None]; when the key resolves to a
    hashable value and the named table is a mapping (or is absent), the
    condition is the membership of the key among the keys of the table if
    [exists] is true, and the negation of that membership if [exists] is
    false (or is not given). *)
Theorem build_node_fields (context : value) (all_data : tables) :
  (forall structure : structure,
     NoDup structure.*1 ->
     Forall (fun kr => exists field,
               returns (build_field py_float context kr.1 kr.2 all_data) field)
            structure ->
     exists output,
       returns (_build_node py_float context structure all_data) output /\
       dict_keys output =
         map VStr
           (List.filter (fun kr => condition_holds context kr.2 all_data)
                        structure).*1 /\
       (forall key rule,
          (key, rule) ∈ structure ->
          condition_holds context rule all_data = false ->
          dict_find (KStr key) output = None /\
          VStr key ∉ dict_keys output) /\
       (forall key rule,
          (key, rule) ∈ structure ->
          condition_holds context rule all_data = true ->
          exists val,
            returns (build_field py_float context key rule all_data)
                    (Some val) /\
            dict_find (KStr key) output = Some val)) /\
  (forall condition_rule : condition,
     (returns (_get_value context (c_key condition_rule) all_data true) VNone ->
      returns (_check_condition context condition_rule all_data) false) /\
     (forall (key : value) (hk : hkey) (table : dict),
        returns (_get_value context (c_key condition_rule) all_data true) key ->
        key <> VNone ->
        hash_key key = Some hk ->
        default (VDict []) (all_data !! c_source condition_rule) = VDict table ->
        let member := bool_decide (Some hk ∈ map hash_key (dict_keys table)) in
        (c_exists condition_rule = Some true ->
         returns (_check_condition context condition_rule all_data) member) /\
        (c_exists condition_rule <> Some true ->
         returns (_check_condition context condition_rule all_data)
                 (negb member)))).
Proof.
  split.
  - intros structure Hnd Hall.
    assert (exists fields,
              Forall2 (fun kr field =>
                 returns (build_field py_float context kr.1 kr.2 all_data) field)
                structure fields) as (fields & Hfields).
    { clear Hnd. induction Hall as [|kr rest [field Hfield] _ [fields IH]].
      - by exists [].
      - exists (field :: fields). by constructor. }
    set (output := store_all structure fields []).
    assert (Hret : returns (_build_node py_float context structure all_data)
                           output).
    { apply build_from_returns. by exists fields. }
    exists output. split; [done|].
    pose proof (build_node_keys _ _ _ _ Hnd Hret) as Hkeys.
    assert (Hfield : forall key rule, (key, rule) ∈ structure ->
              exists field,
                returns (build_field py_float context key rule all_data) field /\
                dict_find (KStr key) output = field).
    { intros key rule Hin.
      apply (proj1 (Forall_forall _ _) Hall) in Hin as Hf.
      destruct Hf as [field Hf]. exists field. split; [done|].
      by apply (build_node_field _ _ _ _ _ _ _ Hnd Hret Hin). }
    split; [done|]. split.
    + intros key rule Hin Hcond.
      destruct (Hfield key rule Hin) as (field & Hf & Hfind).
      apply build_field_present in Hf as Hpres.
      assert (field = None) as ->.
      { destruct field as [val|]; [|done]. rewrite Hcond in Hpres.
        discriminate (proj1 Hpres (ex_intro _ val eq_refl)). }
      split; [done|]. intros Hk. apply dict_find_None in Hfind.
      apply Hfind. apply list_elem_of_fmap. by exists (VStr key).
    + intros key rule Hin Hcond.
      destruct (Hfield key rule Hin) as (field & Hf & Hfind).
      apply build_field_present in Hf as Hpres.
      destruct (proj2 Hpres Hcond) as [val ->]. by exists val.
  - intros condition_rule. rewrite check_condition_unfold. split.
    + intros Hkey. apply returns_bind. exists VNone.
      split; [done | by apply returns_ret].
    + intros key hk table Hkey Hnn Hhash Htable member.
      assert (Hin : py_in key (VDict table) = Return member).
      { simpl. rewrite Hhash. f_equal. unfold member.
        apply bool_decide_ext. rewrite <- not_eq_None_Some, dict_find_None.
        split; [apply dec_stable | by intros ? ?]. }
      assert (is_none key = false) as Hsome by by destruct key.
      split; intros Hflag; apply returns_bind; exists key; (split; [done|]);
        rewrite Hsome, Htable; apply returns_bind; exists member;
        (split; [done|]); apply returns_ret.
      * by rewrite bool_decide_eq_true_2.
      * by rewrite bool_decide_eq_false_2.
Qed.
(** ** The split transform *)

(** The rule's transform is a split: what [_apply_transform] tests. *)
Lemma apply_split_unfold all_data rule t s :
  r_transform rule = Some t -> t_type t = Some "split" ->
  _apply_transform py_float (VStr s) rule all_data =
  let delimiter := default "," (t_delimiter t) in
  let as_type := default "string" (t_as_type t) in
  let* split_values := lift (py_split s delimiter) in
  let strings := VList (map VStr (stripped_pieces split_values)) in
  let caught :=
    let* _ := logging_warning (CouldNotCast as_type) in ret strings in
  if String.eqb as_type "int" then
    match mapM py_int (stripped_pieces split_values) with
    | Some ns => ret (VList (map VInt ns))
    | None => caught
    end
  else if String.eqb as_type "float" then
    match mapM py_float (stripped_pieces split_values) with
    | Some fs => ret (VList (map VFloat fs))
    | None => caught
    end
  else ret strings.
Proof.
  intros Ht Hty. unfold _apply_transform. rewrite Ht.
  destruct t as [ty src dl asty]; simpl in *; subst ty. reflexivity.
Qed.

(** With an empty delimiter [str.split] raises, before the [try]. *)
Lemma split_empty_delimiter all_data rule t s :
  r_transform rule = Some t -> t_type t = Some "split" ->
  t_delimiter t = Some "" ->
  raises (_apply_transform py_float (VStr s) rule all_data) ValueError.
Proof.
  intros Ht Hty Hd. rewrite (apply_split_unfold _ _ t) by done.
  rewrite Hd. reflexivity.
Qed.

(** C4 (amended). A split transform with a non-empty delimiter (a comma when
    none is configured) never raises on a string: it splits the string on
    the delimiter, strips each piece and drops the pieces that are then
    empty; with [as_type: int] (or [float]) the result is the list of the
    pieces cast when every cast succeeds, and the list of the stripped
    strings, none of them cast, as soon as one cast fails; with any other
    type it is the list of the stripped strings.  ["1, 2,3"] split on a comma
    as int gives [[1, 2, 3]], and ["a, ,b"] with the defaults gives
    [["a", "b"]].  With an empty delimiter the split raises [ValueError]. *)
Theorem split_transform_spec :
  (forall (all_data : tables) (rule : rule) (t : transform) (s : string),
     r_transform rule = Some t ->
     t_type t = Some "split" ->
     default "," (t_delimiter t) <> "" ->
     let pieces :=
       stripped_pieces (split_from (default "," (t_delimiter t)) s 0 "") in
     let as_type := default "string" (t_as_type t) in
     pieces =
       List.filter (fun p => negb (String.eqb p ""))
         (map strip (split_from (default "," (t_delimiter t)) s 0 "")) /\
     exists out,
       returns (_apply_transform py_float (VStr s) rule all_data) out /\
       (as_type = "int" ->
          (forall ns, Forall2 (fun p n => py_int p = Some n) pieces ns ->
                      out = VList (map VInt ns)) /\
          (Exists (fun p => py_int p = None) pieces ->
           out = VList (map VStr pieces))) /\
       (as_type = "float" ->
          (forall fs, Forall2 (fun p f => py_float p = Some f) pieces fs ->
                      out = VList (map VFloat fs)) /\
          (Exists (fun p => py_float p = None) pieces ->
           out = VList (map VStr pieces))) /\
       (as_type <> "int" -> as_type <> "float" ->
        out = VList (map VStr pieces))) /\
  (forall all_data,
     returns
       (_apply_transform py_float (VStr "1, 2,3")
          (with_transform (Transform (Some "split") None (Some ",") (Some "int"))
             (direct "item" "ids"))
          all_data)
       (VList [VInt 1; VInt 2; VInt 3])) /\
  (forall all_data,
     returns
       (_apply_transform py_float (VStr "a, ,b")
          (with_transform (Transform (Some "split") None None None)
             (direct "item" "tags"))
          all_data)
       (VList [VStr "a"; VStr "b"])) /\
  (forall (all_data : tables) (rule : rule) (t : transform) (s : string),
     r_transform rule = Some t ->
     t_type t = Some "split" ->
     t_delimiter t = Some "" ->
     raises (_apply_transform py_float (VStr s) rule all_data) ValueError).
Proof.
  split; [|split; [|split]]; [|intros; reflexivity..|];
    [|intros; by eapply split_empty_delimiter].
  intros all_data rule t s Ht Hty Hd pieces as_type. split; [reflexivity|].
  rewrite (apply_split_unfold _ _ t) by done. cbv zeta.
  unfold py_split. rewrite (proj2 (String.eqb_neq _ _) Hd).
  change (lift (Return ?x)) with (ret x). rewrite bind_ret_l.
  fold pieces as_type. unfold returns.
  assert (Hcast : forall (A : Type) (cast : string -> option A) (ks : list A),
             mapM cast pieces = Some ks ->
             (forall ks', Forall2 (fun p k => cast p = Some k) pieces ks' ->
                          ks = ks') /\
             ~ Exists (fun p => cast p = None) pieces).
  { intros A cast ks Hm. split.
    - intros ks' H. apply mapM_Some in H. congruence.
    - intros H. apply mapM_None in H. congruence. }
  assert (Hfail : forall (A : Type) (cast : string -> option A),
             mapM cast pieces = None ->
             forall ks, ~ Forall2 (fun p k => cast p = Some k) pieces ks).
  { intros A cast Hm ks H. apply mapM_Some in H. congruence. }
  destruct (String.eqb_spec as_type "int") as [Hint|Hint].
  - destruct (mapM py_int pieces) as [ns|] eqn:Hm.
    + exists (VList (map VInt ns)). split; [reflexivity|].
      destruct (Hcast _ _ _ Hm) as [Hall Hnone].
      split; [intros _; split|split].
      * intros ns' H. by rewrite (Hall ns' H).
      * intros H. by destruct Hnone.
      * intros Hf. rewrite Hint in Hf. discriminate.
      * intros Hn. by destruct Hn.
    + exists (VList (map VStr pieces)). split; [reflexivity|].
      split; [intros _; split|split].
      * intros ns' H. by destruct (Hfail _ _ Hm ns').
      * done.
      * intros Hf. rewrite Hint in Hf. discriminate.
      * done.
  - destruct (String.eqb_spec as_type "float") as [Hfl|Hfl].
    + destruct (mapM py_float pieces) as [fs|] eqn:Hm.
      * exists (VList (map VFloat fs)). split; [reflexivity|].
        destruct (Hcast _ _ _ Hm) as [Hall Hnone].
        split; [done|split; [intros _; split|]].
        -- intros fs' H. by rewrite (Hall fs' H).
        -- intros H. by destruct Hnone.
        -- intros _ Hn. by destruct Hn.
      * exists (VList (map VStr pieces)). split; [reflexivity|].
        split; [done|split; [intros _; split|]].
        -- intros fs' H. by destruct (Hfail _ _ Hm fs').
        -- done.
        -- done.
    + exists (VList (map VStr pieces)). split; [reflexivity|].
      split; [done|split; done].
Qed.

(** ** Linked rules *)

(** The unfolding of [_get_value] on a rule that has [link_key] and
    [from]. *)
Lemma get_value_linked context rule all_data silent link_key source_name :
  r_link_key rule = Some link_key -> r_from rule = Some source_name ->
  _get_value context rule all_data silent =
  match all_data !! source_name with
  | None | Some VNone =>
      let* _ := warn_unless silent (SourceNotFound source_name) in
      ret VNone
  | Some target_source =>
      let* lookup_key := _get_value context link_key all_data true in
      if is_none lookup_key then ret VNone else
      let* linked_item := lift (py_get target_source lookup_key VNone) in
      if is_none linked_item then ret VNone else
      match r_field rule with
      | Some field =>
          if is_dict linked_item
          then lift (py_get linked_item (VStr field) VNone)
          else
            let* _ := warn_unless silent
                        (ExpectsDictionary field linked_item) in
            ret VNone
      | None => ret linked_item
      end
  end.
Proof.
  intros Hlk Hfrom. destruct rule; simpl in *; subst.
  exact (bind_ret_l source_name _).
Qed.

Lemma returns_warn_unless {A} silent msg (m : M A) (a : A) :
  returns (let* _ := warn_unless silent msg in m) a <-> returns m a.
Proof.
  rewrite returns_bind. split.
  - by intros (_ & _ & H).
  - intros H. exists tt. split; [by destruct silent | done].
Qed.

(** A link key that cannot be hashed: the lookup in the table raises. *)
Lemma linked_unhashable_key
    (context : value) (all_data : tables) (rule link_key : rule)
    (source_name : string) (silent : bool) (lookup_key : value)
    (table : dict) :
  r_link_key rule = Some link_key ->
  r_from rule = Some source_name ->
  all_data !! source_name = Some (VDict table) ->
  returns (_get_value context link_key all_data true) lookup_key ->
  hash_key lookup_key = None ->
  raises (_get_value context rule all_data silent) TypeError.
Proof.
  intros Hlk Hfrom Htable Hkey Hhash.
  rewrite (get_value_linked _ _ _ _ _ _ Hlk Hfrom), Htable.
  apply raises_bind. right. exists lookup_key. split; [done|].
  assert (is_none lookup_key = false) as -> by by destruct lookup_key.
  apply raises_bind. left. unfold raises. simpl. by rewrite Hhash.
Qed.

(** C5 (amended). For a Linked rule the value is [None], and nothing is
    raised, when the target table is absent, when the link key resolves to
    [None], and when the link key resolves to a hashable key for which the
    target table, a mapping, has no entry.  When the table has an entry for
    the key, the value is the field of the entry that the rule declares if
    the entry is a record ([None] if the record lacks the field), [None] if
    the rule declares a field and the entry is not a record, and the entry
    itself if the rule declares no field.  When the link key resolves to a
    value that cannot be hashed, the lookup in a table that is a mapping
    raises [TypeError]. *)
Theorem linked_rule_spec
    (context : value) (all_data : tables) (rule link_key : rule)
    (source_name : string) (silent : bool) :
  r_link_key rule = Some link_key ->
  r_from rule = Some source_name ->
  (all_data !! source_name = None ->
   returns (_get_value context rule all_data silent) VNone) /\
  (returns (_get_value context link_key all_data true) VNone ->
   returns (_get_value context rule all_data silent) VNone) /\
  (forall (lookup_key : value) (hk : hkey) (table : dict),
     returns (_get_value context link_key all_data true) lookup_key ->
     lookup_key <> VNone ->
     hash_key lookup_key = Some hk ->
     all_data !! source_name = Some (VDict table) ->
     (dict_find hk table = None ->
      returns (_get_value context rule all_data silent) VNone) /\
     (forall entry,
        dict_find hk table = Some entry ->
        (forall field record,
           r_field rule = Some field -> entry = VDict record ->
           returns (_get_value context rule all_data silent)
             (from_option id VNone (dict_find (KStr field) record))) /\
        (forall field,
           r_field rule = Some field -> is_dict entry = false ->
           returns (_get_value context rule all_data silent) VNone) /\
        (r_field rule = None ->
         returns (_get_value context rule all_data silent) entry))) /\
  (forall (lookup_key : value) (table : dict),
     returns (_get_value context link_key all_data true) lookup_key ->
     hash_key lookup_key = None ->
     all_data !! source_name = Some (VDict table) ->
     raises (_get_value context rule all_data silent) TypeError).
Proof.
  intros Hlk Hfrom.
  split; [|split; [|split]];
    [| | |intros; by eapply linked_unhashable_key];
    rewrite (get_value_linked _ _ _ _ _ _ Hlk Hfrom).
  - intros ->. by apply returns_warn_unless, returns_ret.
  - intros Hnull. destruct (all_data !! source_name) as [[]|];
      try (by apply returns_warn_unless, returns_ret);
      (apply returns_bind; exists VNone; split; [done | by apply returns_ret]).
  - intros lookup_key hk table Hkey Hnn Hhash ->.
    assert (Hsome : is_none lookup_key = false) by by destruct lookup_key.
    split.
    + intros Hfind. apply returns_bind. exists lookup_key. split; [done|].
      rewrite Hsome. apply returns_bind. exists VNone. split.
      * apply returns_lift. simpl. by rewrite Hhash, Hfind.
      * by apply returns_ret.
    + intros entry Hfind.
      assert (Hget : py_get (VDict table) lookup_key VNone = Return entry).
      { simpl. by rewrite Hhash, Hfind. }
      split; [|split].
      * intros field record Hfield ->. apply returns_bind.
        exists lookup_key. split; [done|]. rewrite Hsome.
        apply returns_bind. exists (VDict record). split; [done|].
        simpl. rewrite Hfield. by apply returns_lift.
      * intros field Hfield Hnd. apply returns_bind.
        exists lookup_key. split; [done|]. rewrite Hsome.
        apply returns_bind. exists entry. split; [done|].
        destruct (is_none entry); [by apply returns_ret|].
        rewrite Hfield, Hnd. by apply returns_warn_unless, returns_ret.
      * intros Hfield. apply returns_bind.
        exists lookup_key. split; [done|]. rewrite Hsome.
        apply returns_bind. exists entry. split; [done|].
        destruct (is_none entry) eqn:He.
        -- destruct entry; try discriminate. by apply returns_ret.
        -- rewrite Hfield. by apply returns_ret.
Qed.

(** ** A table that is absent and a table that is empty *)

Lemma refines_refl {A} (m : M A) : refines m m.
Proof. by intros a. Qed.

Lemma refines_bind {A B} (m1 m2 : M A) (f1 f2 : A -> M B) :
  refines m1 m2 -> (forall a, refines (f1 a) (f2 a)) ->
  refines (bind m1 f1) (bind m2 f2).
Proof.
  intros Hm Hf b H. apply returns_bind in H as (a & Ha & Hb).
  apply returns_bind. exists a. split; [by apply Hm | by apply Hf].
Qed.

Lemma refines_for_each {A B} (f g : A -> M B) (xs : list A) :
  (forall x, refines (f x) (g x)) -> refines (for_each f xs) (for_each g xs).
Proof.
  intros Hfg. induction xs as [|x xs IH]; simpl; [apply refines_refl|].
  apply refines_bind; [apply Hfg|]. intros y.
  apply refines_bind; [apply IH|]. intros ys. apply refines_refl.
Qed.

Section absent_or_empty.

Variables (all_data : tables) (name : string).
Hypothesis absent : all_data !! name = None.

Let with_empty : tables := <[name := VDict []]> all_data.

Lemma default_with_empty source_name :
  default (VDict []) (with_empty !! source_name) =
  default (VDict []) (all_data !! source_name).
Proof.
  unfold with_empty. destruct (decide (name = source_name)) as [<-|Hne].
  - by rewrite lookup_insert_eq, absent.
  - by rewrite lookup_insert_ne.
Qed.

Lemma get_value_refines rule :
  forall context silent,
    refines (_get_value context rule with_empty silent)
            (_get_value context rule all_data silent).
Proof.
  induction rule as [rule IH] using rule_induction. intros context silent.
  destruct (r_link_key rule) as [link_key|] eqn:Hlk.
  - destruct (r_from rule) as [source_name|] eqn:Hfrom.
    + rewrite !(get_value_linked _ _ _ _ _ _ Hlk Hfrom).
      destruct IH as (IHlk & _). rewrite Hlk in IHlk. simpl in IHlk.
      unfold with_empty. destruct (decide (name = source_name)) as [<-|Hne].
      * rewrite lookup_insert_eq, absent. intros v H.
        apply returns_warn_unless, returns_ret.
        apply returns_bind in H as (k & _ & H).
        destruct (is_none k); [exact (proj1 (returns_ret _ _) H)|].
        apply returns_bind in H as (item & Hitem & H).
        apply returns_lift in Hitem. simpl in Hitem.
        destruct (hash_key k); [|discriminate]. injection Hitem as <-.
        exact (proj1 (returns_ret _ _) H).
      * rewrite lookup_insert_ne by done.
        destruct (all_data !! source_name) as [[]|];
          try apply refines_refl;
          (apply refines_bind; [apply IHlk | intros k; apply refines_refl]).
    + destruct rule; simpl in *; subst.
      intros v H. apply returns_bind in H as (? & H & _). discriminate.
  - destruct rule; simpl in *; subst. apply refines_refl.
Qed.

Lemma check_condition_refines context condition_rule :
  refines (_check_condition context condition_rule with_empty)
          (_check_condition context condition_rule all_data).
Proof.
  unfold _check_condition. rewrite default_with_empty.
  apply refines_bind; [apply get_value_refines | intros k; apply refines_refl].
Qed.

Lemma apply_transform_with_empty val rule :
  _apply_transform py_float val rule with_empty =
  _apply_transform py_float val rule all_data.
Proof.
  unfold _apply_transform. destruct (r_transform rule) as [t|]; [|done].
  destruct (nonempty (t_in_source t)); [|done].
  by rewrite default_with_empty.
Qed.

Lemma resolve_simple_value_refines context rule :
  refines (_resolve_simple_value py_float context rule with_empty)
          (_resolve_simple_value py_float context rule all_data).
Proof.
  unfold _resolve_simple_value.
  apply refines_bind; [apply get_value_refines|]. intros raw_value.
  rewrite apply_transform_with_empty. apply refines_refl.
Qed.

Lemma coalesce_refines context sub_rules :
  refines (coalesce py_float context sub_rules with_empty)
          (coalesce py_float context sub_rules all_data).
Proof.
  induction sub_rules as [|sub_rule rest IH]; simpl; [apply refines_refl|].
  apply refines_bind; [apply resolve_simple_value_refines|]. intros val.
  destruct (is_none val); [apply IH | apply refines_refl].
Qed.

Lemma build_from_refines structure :
  Forall (fun kr => forall context key,
            refines (build_field py_float context key kr.2 with_empty)
                    (build_field py_float context key kr.2 all_data))
         structure ->
  forall context output_node,
    refines (build_from py_float context with_empty structure output_node)
            (build_from py_float context all_data structure output_node).
Proof.
  induction 1 as [|[key rule] rest Hrule _ IH]; intros context output_node.
  - apply refines_refl.
  - rewrite !build_from_cons. apply refines_bind; [apply Hrule|].
    intros field. apply IH.
Qed.

Lemma build_field_refines rule :
  forall context key,
    refines (build_field py_float context key rule with_empty)
            (build_field py_float context key rule all_data).
Proof.
  induction rule as [rule IH] using rule_induction. intros context key.
  destruct IH as (_ & _ & _ & IHfields & IHsub).
  rewrite !build_field_unfold.
  apply refines_bind.
  { destruct (r_condition rule);
      [apply check_condition_refines | apply refines_refl]. }
  intros met. destruct (negb met); [apply refines_refl|].
  apply refines_bind; [|intros val; apply refines_refl].
  unfold field_value, field_value_with.
  destruct (r_coalesce rule) as [sub_rules|]; [apply coalesce_refines|].
  destruct (opt_is (r_type rule) "object").
  { destruct (r_fields rule) as [fields|]; [|apply refines_refl].
    apply refines_bind; [|intros node; apply refines_refl].
    by apply build_from_refines. }
  destruct (opt_is (r_type rule) "list").
  { apply refines_bind; [apply refines_refl|]. intros link_key.
    apply refines_bind; [apply get_value_refines|]. intros lookup_key.
    apply refines_bind; [apply refines_refl|]. intros source_name.
    rewrite default_with_empty.
    apply refines_bind; [apply refines_refl|]. intros linked_item.
    apply refines_bind; [apply refines_refl|]. intros linked_list.
    apply refines_bind; [apply refines_refl|]. intros _.
    destruct (r_sub_object rule) as [sub_object|]; [|apply refines_refl].
    apply refines_bind; [apply refines_refl|]. intros items.
    apply refines_bind; [|intros l; apply refines_refl].
    apply refines_for_each. intros item. by apply build_from_refines. }
  apply resolve_simple_value_refines.
Qed.

End absent_or_empty.

(** C6 (amended). Take a name that the table set does not have.  Whatever
    a resolution returns against the table set with the empty mapping added
    under that name, it returns against the table set itself: this holds of
    the Linked lookups of [_get_value], of [_check_condition], of
    [_build_node] with its List fetches, and [_apply_transform] is the same
    computation in both. *)
Theorem absent_table_as_empty (all_data : tables) (name : string) :
  all_data !! name = None ->
  let with_empty := <[name := VDict []]> all_data in
  (forall context rule silent val,
     returns (_get_value context rule with_empty silent) val ->
     returns (_get_value context rule all_data silent) val) /\
  (forall context condition_rule met,
     returns (_check_condition context condition_rule with_empty) met ->
     returns (_check_condition context condition_rule all_data) met) /\
  (forall val rule,
     _apply_transform py_float val rule with_empty =
     _apply_transform py_float val rule all_data) /\
  (forall context structure output,
     returns (_build_node py_float context structure with_empty) output ->
     returns (_build_node py_float context structure all_data) output).
Proof.
  intros absent with_empty. split; [|split; [|split]].
  - intros context rule silent. by apply get_value_refines.
  - intros context condition_rule. by apply check_condition_refines.
  - intros val rule. by apply apply_transform_with_empty.
  - intros context structure. apply build_from_refines.
    apply Forall_forall. intros [key rule] _ context' key'.
    by apply build_field_refines.
Qed.

(** ** Coalesce rules *)

Lemma coalesce_cons context sub_rule rest all_data :
  coalesce py_float context (sub_rule :: rest) all_data =
  let* val := _resolve_simple_value py_float context sub_rule all_data in
  if is_none val then coalesce py_float context rest all_data else ret val.
Proof. reflexivity. Qed.

(** The loop stops at the first alternative that is not [None]: what comes
    after it does not enter the computation, neither its value nor its
    log. *)
Lemma coalesce_first context all_data before sub_rule after val :
  Forall (fun r => returns (_resolve_simple_value py_float context r all_data)
                           VNone) before ->
  returns (_resolve_simple_value py_float context sub_rule all_data) val ->
  val <> VNone ->
  returns (coalesce py_float context (before ++ sub_rule :: after) all_data)
          val /\
  coalesce py_float context (before ++ sub_rule :: after) all_data =
  coalesce py_float context (before ++ [sub_rule]) all_data.
Proof.
  intros Hbefore Hval Hnn.
  assert (Hsome : is_none val = false) by by destruct val.
  induction Hbefore as [|r before Hr _ [IHret IHeq]]; simpl app.
  - rewrite !coalesce_cons. split.
    + apply returns_bind. exists val. split; [done|]. rewrite Hsome.
      by apply returns_ret.
    + apply (bind_returned _ _ _ val Hval). by rewrite Hsome.
  - rewrite !coalesce_cons. split.
    + apply returns_bind. by exists VNone.
    + by apply (bind_returned _ _ _ VNone Hr).
Qed.

Lemma coalesce_all_none context all_data sub_rules :
  Forall (fun r => returns (_resolve_simple_value py_float context r all_data)
                           VNone) sub_rules ->
  returns (coalesce py_float context sub_rules all_data) VNone.
Proof.
  induction 1 as [|r rest Hr _ IH]; [by apply returns_ret|].
  rewrite coalesce_cons. apply returns_bind. by exists VNone.
Qed.

Lemma field_value_coalesce context key rule all_data sub_rules :
  r_coalesce rule = Some sub_rules ->
  field_value py_float context key rule all_data =
  coalesce py_float context sub_rules all_data.
Proof. intros H. unfold field_value, field_value_with. by rewrite H. Qed.

(** C2. The field of a Coalesce rule whose condition, if any, is met holds
    the value of the first alternative, in the order of the list, whose
    simple resolution (lookup, then transform) is not [None], provided the
    alternatives before it resolve to [None]: the alternatives after it do
    not enter the computation, which is the one of the list cut after that
    alternative, so nothing they would do can change the value.  When every
    alternative resolves to [None] the field is in the record with the
    value [None]. *)
Theorem coalesce_rule_spec
    (context : value) (all_data : tables) (key : string)
    (sub_rules : list rule) (rule : rule) :
  r_coalesce rule = Some sub_rules ->
  condition_holds context rule all_data = true ->
  (forall before sub_rule after val,
     sub_rules = (before ++ sub_rule :: after)%list ->
     Forall (fun r => returns (_resolve_simple_value py_float context r
                                 all_data) VNone) before ->
     returns (_resolve_simple_value py_float context sub_rule all_data) val ->
     val <> VNone ->
     returns (build_field py_float context key rule all_data) (Some val) /\
     coalesce py_float context (before ++ sub_rule :: after) all_data =
       coalesce py_float context (before ++ [sub_rule]) all_data /\
     forall structure output,
       NoDup structure.*1 -> (key, rule) ∈ structure ->
       returns (_build_node py_float context structure all_data) output ->
       dict_find (KStr key) output = Some val) /\
  (Forall (fun r => returns (_resolve_simple_value py_float context r all_data)
                            VNone) sub_rules ->
   returns (build_field py_float context key rule all_data) (Some VNone) /\
   forall structure output,
     NoDup structure.*1 -> (key, rule) ∈ structure ->
     returns (_build_node py_float context structure all_data) output ->
     dict_find (KStr key) output = Some VNone).
Proof.
  intros Hco Hmet.
  assert (Hfield : forall val,
            returns (coalesce py_float context sub_rules all_data) val ->
            returns (build_field py_float context key rule all_data)
                    (Some val) /\
            forall structure output,
              NoDup structure.*1 -> (key, rule) ∈ structure ->
              returns (_build_node py_float context structure all_data)
                      output ->
              dict_find (KStr key) output = Some val).
  { intros val Hval.
    assert (Hf : returns (build_field py_float context key rule all_data)
                         (Some val)).
    { apply build_field_met; [done|]. exists val. split; [|done].
      by rewrite (field_value_coalesce _ _ _ _ _ Hco). }
    split; [done|]. intros structure output Hnd Hin Hret.
    by apply (build_node_field _ _ _ _ _ _ _ Hnd Hret Hin). }
  split.
  - intros before sub_rule after val -> Hbefore Hval Hnn.
    destruct (coalesce_first _ all_data _ _ after _ Hbefore Hval Hnn)
      as [Hret Heq].
    destruct (Hfield val Hret) as [Hf Hout]. by repeat split.
  - intros Hall. apply Hfield. by apply coalesce_all_none.
Qed.

(** ** Object rules *)

(** C9. For an Object rule, a rule of type object without coalesce: when
    the rule has no [fields], its value is [None] and the one record logged
    is the error that names the field; nothing is raised, so the loop of
    [_build_node] goes on with the fields that follow, the field stored as
    [None], and ends as they end.  When the rule has [fields], its value is
    the record [_build_node] builds from them in the same context. *)
Theorem object_rule_spec
    (context : value) (all_data : tables) (key : string) (rule : rule) :
  r_coalesce rule = None ->
  r_type rule = Some "object" ->
  (r_fields rule = None ->
   field_value py_float context key rule all_data =
     ([(ERROR, ObjectMissingFields key)], Return VNone) /\
   (condition_holds context rule all_data = true ->
    returns (build_field py_float context key rule all_data) (Some VNone) /\
    (ERROR, ObjectMissingFields key) ∈
      (build_field py_float context key rule all_data).1 /\
    forall rest output_node,
      (build_from py_float context all_data ((key, rule) :: rest)
         output_node).2 =
      (build_from py_float context all_data rest
         (dict_set (KStr key) (VStr key) VNone output_node)).2)) /\
  (forall fields,
     r_fields rule = Some fields ->
     field_value py_float context key rule all_data =
       (let* node := _build_node py_float context fields all_data in
        ret (VDict node)) /\
     (condition_holds context rule all_data = true ->
      forall field,
        returns (build_field py_float context key rule all_data) field <->
        exists node,
          returns (_build_node py_float context fields all_data) node /\
          field = Some (VDict node))).
Proof.
  intros Hco Hty.
  assert (Hvalue : field_value py_float context key rule all_data =
            match r_fields rule with
            | None =>
                let* _ := logging_error (ObjectMissingFields key) in
                ret VNone
            | Some fields =>
                let* node := _build_node py_float context fields all_data in
                ret (VDict node)
            end).
  { unfold field_value, field_value_with. by rewrite Hco, Hty. }
  split.
  - intros Hfs. rewrite Hfs in Hvalue. split; [done|]. intros Hmet.
    assert (Hret : returns (build_field py_float context key rule all_data)
                           (Some VNone)).
    { apply build_field_met; [done|]. exists VNone. by rewrite Hvalue. }
    split; [done|]. split.
    + apply condition_holds_returns in Hmet.
      rewrite build_field_unfold, (bind_log _ _ true Hmet). simpl negb.
      rewrite Hvalue. apply elem_of_app. right. apply elem_of_cons. by left.
    + intros rest output_node. rewrite build_from_cons, bind_outcome.
      by rewrite Hret.
  - intros fields Hfs. rewrite Hfs in Hvalue. split; [done|].
    intros Hmet field. rewrite (build_field_met _ _ _ _ _ Hmet), Hvalue.
    split.
    + intros (val & Hval & ->). apply returns_bind in Hval as (node & Hn & H).
      apply returns_ret in H as <-. by exists node.
    + intros (node & Hn & ->). exists (VDict node). split; [|done].
      apply returns_bind. exists node. split; [done | by apply returns_ret].
Qed.

(** ** List rules *)

Lemma returns_bind_returned {A B} (m : M A) (f : A -> M B) (a : A) (b : B) :
  returns m a -> returns (bind m f) b <-> returns (f a) b.
Proof.
  intros Ha. rewrite returns_bind. split.
  - intros (a' & Ha' & Hb). by rewrite (returns_inj _ _ _ Ha Ha').
  - intros Hb. by exists a.
Qed.

(** Past the fetch of the entry, the list branch measures the list and
    either maps the sub-object over it or stores it. *)
Lemma field_value_list context all_data key rule link_key source_name
    lookup_key hk table val :
  r_coalesce rule = None ->
  r_type rule = Some "list" ->
  r_link_key rule = Some link_key ->
  r_from rule = Some source_name ->
  returns (_get_value context link_key all_data false) lookup_key ->
  default (VDict []) (all_data !! source_name) = VDict table ->
  hash_key lookup_key = Some hk ->
  let linked_list :=
    extracted_list (r_field rule)
      (from_option id VNone (dict_find hk table)) in
  returns (field_value py_float context key rule all_data) val <->
  returns
    (let* _ := lift (py_len linked_list) in
     match r_sub_object rule with
     | Some sub_object =>
         let* items := lift (py_iter linked_list) in
         let* list_items :=
           for_each (fun item => _build_node py_float item sub_object all_data)
                    items in
         ret (VList (map VDict list_items))
     | None => ret linked_list
     end) val.
Proof.
  intros Hco Hty Hlk Hfrom Hkey Htable Hhash linked_list.
  unfold field_value, field_value_with.
  rewrite Hco, Hty, Hlk, Hfrom. simpl opt_is. cbv iota.
  change (subscript (Some ?x)) with (ret x). rewrite bind_ret_l.
  rewrite (returns_bind_returned _ _ lookup_key) by done.
  rewrite bind_ret_l, Htable.
  set (entry := from_option id VNone (dict_find hk table)) in *.
  etransitivity.
  { apply (returns_bind_returned _ _ entry).
    apply returns_lift. simpl. by rewrite Hhash. }
  cbv beta.
  assert (Hlist : returns
            match r_field rule with
            | Some field =>
                if is_dict entry
                then lift (py_get entry (VStr field) (VList []))
                else ret (list_or_empty entry)
            | None => ret (list_or_empty entry)
            end linked_list).
  { unfold linked_list, extracted_list.
    destruct (r_field rule) as [field|]; [|by apply returns_ret].
    destruct entry; by apply returns_ret. }
  split.
  - intros H. apply returns_bind in H as (l & Hl & H).
    by rewrite (returns_inj _ _ _ Hlist Hl).
  - intros H. apply returns_bind. by exists linked_list.
Qed.

(** X25. For a List rule, a rule of type list without coalesce, let the
    link key resolve against the context to a hashable key and let the named
    table be a mapping (the empty one when the table is absent).  The list
    of the rule is the fetched entry when no field is declared or the entry
    is not a record, the empty list standing for an entry that is not a
    list (a missing entry is [None]); or it is the value the record holds
    under the declared field, when that value is a list, the empty list
    standing for a field the record lacks.  Without [sub_object] the value
    of the rule is that list, unchanged.  With [sub_object] it is the list
    of the records built from the sub-object with each element in turn as
    the whole context, in the order of the list, and the rule returns
    exactly when each of them does.  ([field_value] is what [_build_node]
    stores under the name of a field whose condition is met.) *)
Theorem list_rule_on_lists
    (context : value) (all_data : tables) (key : string)
    (rule link_key : rule) (source_name : string) (lookup_key : value)
    (hk : hkey) (table : dict) :
  r_coalesce rule = None ->
  r_type rule = Some "list" ->
  r_link_key rule = Some link_key ->
  r_from rule = Some source_name ->
  returns (_get_value context link_key all_data false) lookup_key ->
  default (VDict []) (all_data !! source_name) = VDict table ->
  hash_key lookup_key = Some hk ->
  let entry := default VNone (dict_find hk table) in
  forall xs,
    (r_field rule = None \/ is_dict entry = false) /\
    (entry = VList xs \/ is_list entry = false /\ xs = []) \/
    (exists field record,
       r_field rule = Some field /\ entry = VDict record /\
       default (VList []) (dict_find (KStr field) record) = VList xs) ->
    (r_sub_object rule = None ->
     returns (field_value py_float context key rule all_data) (VList xs)) /\
    (forall sub_object,
       r_sub_object rule = Some sub_object ->
       forall val,
         returns (field_value py_float context key rule all_data) val <->
         exists children,
           Forall2 (fun item child =>
                      returns (_build_node py_float item sub_object all_data)
                              child) xs children /\
           val = VList (map VDict children)).
Proof.
  intros Hco Hty Hlk Hfrom Hkey Htable Hhash entry xs Hlist.
  pose proof (fun val => field_value_list context all_data key rule link_key
                source_name lookup_key hk table val Hco Hty Hlk Hfrom Hkey
                Htable Hhash) as Hfv.
  fold entry in Hfv.
  assert (extracted_list (r_field rule) entry = VList xs) as Hxs.
  { unfold extracted_list, list_or_empty.
    destruct Hlist as [[Hfield Hentry]|(field & record & -> & -> & Hvalue)];
      [|exact Hvalue].
    assert (Hlist : (if is_list entry then entry else VList []) = VList xs).
    { destruct Hentry as [->|[-> ->]]; done. }
    destruct Hfield as [->|Hnd]; [by destruct entry|].
    destruct (r_field rule); [|done]. by destruct entry. }
  rewrite Hxs in Hfv. simpl py_len in Hfv. simpl py_iter in Hfv.
  split.
  - intros Hso. apply Hfv. rewrite Hso.
    change (lift (Return ?x)) with (ret x). rewrite bind_ret_l.
    by apply returns_ret.
  - intros sub_object Hso val. rewrite Hfv, Hso.
    change (lift (Return ?x)) with (ret x). rewrite !bind_ret_l.
    rewrite returns_bind. split.
    + intros (children & Hch & H). apply returns_ret in H as <-.
      exists children. split; [by apply returns_for_each | done].
    + intros (children & Hch & ->). exists children.
      split; [by apply returns_for_each | by apply returns_ret].
Qed.

(** ** The driver *)

(** C8. When the specification has its output structure and names its
    root alias (the reserved alias [union_id] under the union strategy, the
    primary source under any other), [resolve_data] returns exactly when
    [_build_node] returns on the root context of every item, and then it
    returns one record for each item, in the order of the items: the i-th
    record is what [_build_node] returns on the context that binds the
    alias to the i-th item. *)
Theorem resolve_data_spec
    (spec : spec) (all_data : tables) (items_to_process : list value)
    (structure : structure) (alias : string) :
  output_structure spec = Some structure ->
  (resolution_strategy spec = Some "union" /\ alias = "union_id" \/
   opt_is (resolution_strategy spec) "union" = false /\
   primary_source spec = Some alias) ->
  forall resolved_objects,
    returns (resolve_data py_float spec all_data items_to_process)
            resolved_objects <->
    (length resolved_objects = length items_to_process /\
     forall i item,
       items_to_process !! i = Some item ->
       exists resolved_obj,
         resolved_objects !! i = Some (VDict resolved_obj) /\
         returns (_build_node py_float (VDict [(VStr alias, item)]) structure
                    all_data) resolved_obj).
Proof.
  intros Hst Halias resolved_objects. unfold resolve_data. rewrite Hst.
  change (subscript (Some ?x)) with (ret x). rewrite bind_ret_l.
  rewrite returns_for_each.
  assert (Hroot : forall item,
            root_context spec item = ret (VDict [(VStr alias, item)])).
  { intros item. unfold root_context.
    destruct Halias as [[-> ->]|[-> ->]]; [done|]. simpl.
    by rewrite bind_ret_l. }
  assert (Hone : forall item out,
    returns (let* context := root_context spec item in
             let* resolved_obj :=
               _build_node py_float context structure all_data in
             ret (VDict resolved_obj)) out <->
    exists resolved_obj,
      out = VDict resolved_obj /\
      returns (_build_node py_float (VDict [(VStr alias, item)]) structure
                 all_data) resolved_obj).
  { intros item out. rewrite Hroot, bind_ret_l, returns_bind. split.
    - intros (obj & Hobj & H). apply returns_ret in H as <-. by exists obj.
    - intros (obj & -> & Hobj). exists obj. split; [done|].
      by apply returns_ret. }
  rewrite Forall2_lookup. split.
  - intros Hall. split.
    + symmetry. apply (Forall2_length (fun _ _ => True)).
      apply Forall2_lookup. intros i. specialize (Hall i).
      destruct Hall; by constructor.
    + intros i item Hi. specialize (Hall i). rewrite Hi in Hall.
      inversion Hall as [? out Hout|]; subst.
      apply Hone in Hout as (obj & -> & Hobj). by exists obj.
  - intros [Hlen Hall] i.
    destruct (items_to_process !! i) as [item|] eqn:Hi.
    + destruct (Hall i item Hi) as (obj & -> & Hobj). constructor.
      apply Hone. by exists obj.
    + apply lookup_ge_None in Hi. rewrite <- Hlen in Hi.
      apply lookup_ge_None in Hi. rewrite Hi. constructor.
Qed.

(** ** More on the monad *)

Lemma bind_assoc {A B C} (m : M A) (f : A -> M B) (g : B -> M C) :
  bind (bind m f) g = bind m (fun a => bind (f a) g).
Proof.
  unfold bind. destruct m as [l [a|e]]; [|done].
  destruct (f a) as [l' [b|e]]; [|done].
  destruct (g b) as [l'' r]. by rewrite app_assoc.
Qed.

Lemma for_each_app {A B} (f : A -> M B) (xs ys : list A) :
  for_each f (xs ++ ys) =
  let* us := for_each f xs in
  let* vs := for_each f ys in
  ret (us ++ vs)%list.
Proof.
  induction xs as [|x xs IH]; simpl.
  - rewrite bind_ret_l. destruct (for_each f ys) as [l [vs|e]]; [|done].
    unfold bind, ret. simpl. by rewrite app_nil_r.
  - rewrite IH.
    destruct (f x) as [l [y|e]], (for_each f xs) as [l1 [us|e1]],
      (for_each f ys) as [l2 [vs|e2]];
      unfold bind, ret; simpl; rewrite ?app_nil_r, ?app_assoc; done.
Qed.

Lemma raises_for_each {A B} (f : A -> M B) (xs : list A) (e : exn) :
  raises (for_each f xs) e <->
  exists before x after,
    xs = (before ++ x :: after)%list /\
    Forall (fun x' => exists y, returns (f x') y) before /\
    raises (f x) e.
Proof.
  induction xs as [|x xs IH]; simpl.
  - split; [discriminate|]. intros (before & x & after & Heq & _).
    by destruct before.
  - rewrite raises_bind. split.
    + intros [Hx|(y & Hy & Hrest)].
      * exists [], x, xs. by repeat split.
      * apply raises_bind in Hrest as [Hrest|(ys & _ & Hr)]; [|discriminate].
        apply IH in Hrest as (before & x' & after & -> & Hbefore & Hx').
        exists (x :: before), x', after. repeat split; [|done].
        constructor; [by exists y | done].
    + intros (before & x' & after & Heq & Hbefore & Hx').
      destruct before as [|x0 before]; simpl in Heq.
      * injection Heq as <- <-. by left.
      * injection Heq as <- ->. apply Forall_cons in Hbefore as [[y Hy] Hbefore].
        right. exists y. split; [done|]. apply raises_bind. left.
        apply IH. by exists before, x', after.
Qed.

(** A computation built from parts that log nothing logs nothing. *)
Lemma bind_quiet {A B} (m : M A) (f : A -> M B) :
  m.1 = [] -> (forall a, (f a).1 = []) -> (bind m f).1 = [].
Proof.
  destruct m as [l [a|e]]; simpl; intros -> Hf; unfold bind; [|done].
  specialize (Hf a). by destruct (f a) as [l' r]; simpl in *; subst.
Qed.

(** The outcome of a computation depends on the outcomes of its parts
    only. *)
Lemma bind_same_outcome {A B} (m1 m2 : M A) (f1 f2 : A -> M B) :
  m1.2 = m2.2 -> (forall a, (f1 a).2 = (f2 a).2) ->
  (bind m1 f1).2 = (bind m2 f2).2.
Proof.
  intros Hm Hf. rewrite !bind_outcome, Hm. by destruct (m2.2).
Qed.

Lemma warn_unless_outcome {A} silent msg (m : M A) :
  (let* _ := warn_unless silent msg in m).2 = m.2.
Proof. rewrite bind_outcome. by destruct silent. Qed.

(** ** Stripping *)

Lemma rstrip_with_idem sp s :
  rstrip_with sp (rstrip_with sp s) = rstrip_with sp s.
Proof.
  induction s as [|c s IH]; simpl; [done|].
  destruct (String.eqb (rstrip_with sp s) "" && sp c) eqn:Hc; [done|].
  simpl. by rewrite IH, Hc.
Qed.

Lemma lstrip_with_head sp s :
  match lstrip_with sp s with
  | String c _ => sp c = false
  | EmptyString => True
  end.
Proof.
  induction s as [|c s IH]; simpl; [done|].
  by destruct (sp c) eqn:Hc.
Qed.

Lemma rstrip_with_keep sp c r :
  sp c = false -> rstrip_with sp (String c r) = String c (rstrip_with sp r).
Proof. simpl. intros ->. by destruct (String.eqb _ _). Qed.

Lemma strip_with_idem sp s : strip_with sp (strip_with sp s) = strip_with sp s.
Proof.
  unfold strip_with. pose proof (lstrip_with_head sp s) as Hhead.
  destruct (lstrip_with sp s) as [|c r]; [done|].
  rewrite (rstrip_with_keep _ _ _ Hhead). simpl lstrip_with. rewrite Hhead.
  rewrite (rstrip_with_keep _ _ _ Hhead). by rewrite rstrip_with_idem.
Qed.

Lemma lstrip_with_blank sp s :
  lstrip_with sp s = "" <-> Forall (fun c => sp c = true) (list_ascii_of_string s).
Proof.
  induction s as [|c s IH]; simpl; [by split; [constructor|]|].
  destruct (sp c) eqn:Hc.
  - rewrite IH. split; [by constructor|]. by intros [_ ?]%Forall_cons.
  - split; [done|]. intros [? _]%Forall_cons. congruence.
Qed.

Lemma strip_with_blank sp s :
  strip_with sp s = "" <-> Forall (fun c => sp c = true) (list_ascii_of_string s).
Proof.
  rewrite <- lstrip_with_blank. unfold strip_with.
  pose proof (lstrip_with_head sp s) as Hhead.
  destruct (lstrip_with sp s) as [|c r]; [done|].
  by rewrite (rstrip_with_keep _ _ _ Hhead).
Qed.

Lemma list_ascii_of_string_app (a b : string) :
  list_ascii_of_string (a ++ b) =
  (list_ascii_of_string a ++ list_ascii_of_string b)%list.
Proof.
  induction a as [|c a IH]; [done|].
  rewrite append_cons. simpl. by rewrite IH.
Qed.

(** The pieces of a string are made of its characters. *)
Lemma split_from_chars (P : ascii -> Prop) sep s skip piece :
  Forall P (list_ascii_of_string s) ->
  Forall P (list_ascii_of_string piece) ->
  Forall (fun p => Forall P (list_ascii_of_string p))
         (split_from sep s skip piece).
Proof.
  revert skip piece. induction s as [|c s IH]; intros skip piece Hs Hpiece.
  - simpl. by constructor.
  - simpl in Hs. apply Forall_cons in Hs as [Hc Hs].
    rewrite split_from_cons. destruct skip as [|n]; [|by apply IH].
    destruct (String.prefix sep (String c s)).
    + constructor; [done|]. apply IH; [done | constructor].
    + apply IH; [done|]. rewrite list_ascii_of_string_app.
      apply Forall_app. split; [done|]. simpl. by constructor.
Qed.

Lemma stripped_pieces_trimmed pieces :
  Forall (fun p => p <> "" /\ strip p = p) (stripped_pieces pieces).
Proof.
  unfold stripped_pieces. induction pieces as [|p pieces IH]; simpl; [done|].
  destruct (String.eqb (strip p) "") eqn:Hp; simpl; [done|].
  constructor; [|done]. split.
  - intros Heq. rewrite Heq in Hp. done.
  - apply strip_with_idem.
Qed.

Lemma stripped_pieces_blank pieces :
  Forall (fun p => Forall (fun c => is_space c = true) (list_ascii_of_string p))
         pieces ->
  stripped_pieces pieces = [].
Proof.
  unfold stripped_pieces. induction 1 as [|p pieces Hp _ IH]; simpl; [done|].
  apply strip_with_blank in Hp. unfold strip. rewrite Hp. simpl. exact IH.
Qed.
(** ** The standardizer: sizes, order, groups and errors *)

Lemma dict_set_new {V} hk k (v : V) d :
  dict_find hk d = None -> dict_set hk k v d = (d ++ [(k, v)])%list.
Proof.
  induction d as [|[k' v'] d IH]; simpl; [done|].
  case_decide; [done|]. intros Hd. by rewrite IH.
Qed.

Lemma dict_find_app_None {V} hk (d d' : list (value * V)) :
  dict_find hk d = None -> dict_find hk (d ++ d') = dict_find hk d'.
Proof.
  induction d as [|[k' v'] d IH]; simpl; [done|].
  case_decide; [done|]. exact IH.
Qed.

Lemma record_key_of_get key_field item k :
  py_get item (VStr key_field) VNone = Return k ->
  record_key key_field item = hash_key k.
Proof.
  destruct item as [| | | | | |d]; try discriminate. simpl.
  intros [= <-]. done.
Qed.

(** With keys that are pairwise distinct the comprehension appends one
    entry per record. *)
Lemma lookup_from_distinct key_field items acc :
  Forall (fun item => is_Some (record_key key_field item)) items ->
  NoDup (map (record_key key_field) items) ->
  (forall item hk, item ∈ items -> record_key key_field item = Some hk ->
                   dict_find hk acc = None) ->
  exists keys,
    Forall2 (fun k item => py_get item (VStr key_field) VNone = Return k)
            keys items /\
    returns (lookup_from items key_field acc) (acc ++ zip keys items)%list.
Proof.
  intros Hall. revert acc.
  induction Hall as [|item items [hk0 Hitem] _ IH]; intros acc Hnd Hacc.
  - exists []. split; [constructor|]. rewrite app_nil_r. by apply returns_ret.
  - destruct (record_key_get _ _ _ Hitem) as (k & Hget & Hk).
    simpl in Hnd. apply NoDup_cons in Hnd as [Hnotin Hnd].
    assert (Hnew : dict_find hk0 acc = None).
    { apply (Hacc item); [apply elem_of_cons; by left | done]. }
    destruct (IH (acc ++ [(k, item)])%list Hnd) as (keys & Hkeys & Hret).
    { intros item' hk Hin Hkey. rewrite dict_find_app_None.
      - simpl. rewrite Hk. case_decide as Heq; [|done].
        injection Heq as ->. exfalso. apply Hnotin. rewrite Hitem, <- Hkey.
        apply list_elem_of_fmap. by exists item'.
      - apply (Hacc item'); [apply elem_of_cons; by right | done]. }
    exists (k :: keys). split; [by constructor|].
    simpl. apply returns_bind. exists k. split; [by apply returns_lift|].
    apply returns_bind. exists (acc ++ [(k, item)])%list. split.
    + unfold set_item. rewrite Hk. apply returns_ret. by apply dict_set_new.
    + by rewrite <- app_assoc in Hret.
Qed.

(** X1. When the keys of the records are pairwise distinct,
    [create_lookup_map] keeps every record: the values of the table are the
    records of the source in the order of the source, each filed under the
    key it holds. *)
Theorem lookup_map_distinct_keys (key_field : string) (items : list value) :
  Forall (fun item => is_Some (record_key key_field item)) items ->
  NoDup (map (record_key key_field) items) ->
  exists table,
    returns (create_lookup_map (VList items) key_field) (VDict table) /\
    table.*2 = items /\
    Forall2 (fun k item => py_get item (VStr key_field) VNone = Return k)
            (dict_keys table) items.
Proof.
  intros Hall Hnd.
  destruct (lookup_from_distinct key_field items [] Hall Hnd)
    as (keys & Hkeys & Hret); [done|].
  exists (zip keys items).
  pose proof (Forall2_length _ _ _ Hkeys) as Hlen.
  split; [|split].
  - rewrite create_lookup_map_unfold. apply returns_bind.
    exists (zip keys items). split; [done | by apply returns_ret].
  - apply snd_zip. lia.
  - unfold dict_keys. change (map fst (zip keys items)) with ((zip keys items).*1).
    rewrite fst_zip by lia. done.
Qed.

(** The classes of the keys of the table are those of the records. *)
Lemma lookup_from_classes key_field items :
  Forall (fun item => is_Some (record_key key_field item)) items ->
  exists table,
    returns (lookup_from items key_field []) table /\
    NoDup (map hash_key (dict_keys table)) /\
    (forall c, c ∈ map hash_key (dict_keys table) <->
               c ∈ map (record_key key_field) items) /\
    forall hk, dict_find hk table = last (records_with key_field hk items).
Proof.
  intros Hall.
  destruct (lookup_from_spec key_field items [] Hall)
    as (table & Hret & Hdis & Hkeys & Hfind).
  assert (Hlast : forall hk,
             dict_find hk table = last (records_with key_field hk items)).
  { intros hk. rewrite Hfind. simpl.
    by destruct (last (records_with key_field hk items)). }
  exists table. split; [done|]. split; [apply Hdis, distinct_keys_nil|].
  split; [|done]. intros c. split.
  - intros (k & -> & Hk)%list_elem_of_fmap.
    destruct (Hkeys k Hk) as [Hin|(item & Hin & Hget)].
    + by apply elem_of_nil in Hin.
    + apply list_elem_of_fmap. exists item.
      split; [symmetry; by apply record_key_of_get | done].
  - intros (item & -> & Hin)%list_elem_of_fmap.
    rewrite Forall_forall in Hall. destruct (Hall item Hin) as [hk Hhk].
    rewrite Hhk. destruct (decide (Some hk ∈ map hash_key (dict_keys table)))
      as [|Hnot]; [done|].
    apply dict_find_None in Hnot. rewrite Hlast in Hnot.
    apply last_None in Hnot.
    assert (item ∈ records_with key_field hk items) as Hrec.
    { unfold records_with. apply list_elem_of_filter. done. }
    rewrite Hnot in Hrec. by apply elem_of_nil in Hrec.
Qed.

(** X2. The table of [create_lookup_map] has an entry for a key exactly
    when some record of the source holds that key; it never has more entries
    than the source has records, and it has as many exactly when the keys
    of the records are pairwise distinct, so that a repeated key always
    loses a record. *)
Theorem lookup_map_size (key_field : string) (items : list value) :
  Forall (fun item => is_Some (record_key key_field item)) items ->
  exists table,
    returns (create_lookup_map (VList items) key_field) (VDict table) /\
    (forall hk, is_Some (dict_find hk table) <->
                exists item, item ∈ items /\
                             record_key key_field item = Some hk) /\
    (length table <= length items)%nat /\
    (length table = length items <->
     NoDup (map (record_key key_field) items)).
Proof.
  intros Hall.
  destruct (lookup_from_classes key_field items Hall)
    as (table & Hret & Hnd & Hsame & Hlast).
  exists table.
  assert (Hlen1 : length (map hash_key (dict_keys table)) = length table).
  { unfold dict_keys. by rewrite !length_map. }
  assert (Hlen2 : length (map (record_key key_field) items) = length items).
  { by rewrite length_map. }
  assert (Hsub : map hash_key (dict_keys table) ⊆+
                 map (record_key key_field) items).
  { apply NoDup_submseteq; [done|]. intros c Hc. by apply Hsame. }
  split; [|split; [|split]].
  - rewrite create_lookup_map_unfold. apply returns_bind. exists table.
    split; [done | by apply returns_ret].
  - intros hk. split.
    + intros Hsome.
      assert (Some hk ∈ map hash_key (dict_keys table)) as Hin.
      { destruct (decide (Some hk ∈ map hash_key (dict_keys table)))
          as [|Hnot]; [done|].
        apply dict_find_None in Hnot. rewrite Hnot in Hsome.
        by destruct Hsome. }
      apply Hsame in Hin. apply list_elem_of_fmap in Hin as (item & ? & ?).
      by exists item.
    + intros (item & Hin & Hkey).
      destruct (dict_find hk table) eqn:Hfind; [by eexists|].
      apply dict_find_None in Hfind. exfalso. apply Hfind, Hsame.
      rewrite <- Hkey. apply list_elem_of_fmap. by exists item.
  - rewrite <- Hlen1, <- Hlen2. by apply submseteq_length.
  - rewrite <- Hlen1, <- Hlen2. split.
    + intros Hlen. eapply NoDup_Permutation_proper; [|exact Hnd].
      symmetry. apply submseteq_length_Permutation; [done | lia].
    + intros Hnd2. apply Nat.le_antisymm; [by apply submseteq_length|].
      apply submseteq_length, NoDup_submseteq; [done|].
      intros c Hc. by apply Hsame.
Qed.

(** Appending a record to the group of its key adds that record, and no
    other, to the records of the groups. *)
Lemma dict_set_group hk k (item : value) (d : list (value * list value)) :
  concat (dict_set hk k (default [] (dict_find hk d) ++ [item])%list d).*2
  ≡ₚ (concat d.*2 ++ [item])%list.
Proof.
  induction d as [|[k' g] d IH]; simpl; [done|].
  case_decide; simpl.
  - by rewrite <- app_assoc, (Permutation_app_comm [item]), app_assoc.
  - by rewrite IH, app_assoc.
Qed.

Lemma dict_set_group_nonempty hk k (item : value)
    (d : list (value * list value)) :
  Forall (fun kg => kg.2 <> []) d ->
  Forall (fun kg => kg.2 <> [])
         (dict_set hk k (default [] (dict_find hk d) ++ [item])%list d).
Proof.
  induction 1 as [|[k' g] d Hg Hd IH]; simpl.
  - constructor; [|done]. simpl. discriminate.
  - case_decide.
    + constructor; [|done]. simpl. by destruct g.
    + by constructor.
Qed.

(** The loop of [create_grouping_map] files every record with a key other
    than [None] in one group. *)
Lemma grouping_from_partition key_field items acc :
  Forall (fun item => is_Some (record_key key_field item)) items ->
  exists grouped_data,
    returns (grouping_from items key_field acc) grouped_data /\
    concat grouped_data.*2 ≡ₚ
      (concat acc.*2 ++
       filter (fun item => record_key key_field item <> Some KNone) items)%list /\
    (Forall (fun kg => kg.2 <> []) acc ->
     Forall (fun kg => kg.2 <> []) grouped_data).
Proof.
  intros Hall. revert acc.
  induction Hall as [|item items [hk0 Hitem] _ IH]; intros acc.
  - exists acc. split; [by apply returns_ret|]. split; [|done].
    by rewrite filter_nil, app_nil_r.
  - destruct (record_key_get _ _ _ Hitem) as (k & Hget & Hk).
    pose proof (is_none_hash _ _ Hk) as Hnone.
    rewrite filter_cons.
    destruct (decide (hk0 = KNone)) as [->|Hk0].
    + destruct (IH acc) as (g & Hret & Hperm & Hne). exists g.
      split; [|split; [|done]].
      * simpl. apply returns_bind. exists k. split; [by apply returns_lift|].
        by rewrite Hnone.
      * rewrite decide_False by (intros Hx; by apply Hx). done.
    + set (acc' := dict_set hk0 k (default [] (dict_find hk0 acc) ++ [item])%list acc).
      destruct (IH acc') as (g & Hret & Hperm & Hne). exists g.
      split; [|split].
      * simpl. apply returns_bind. exists k. split; [by apply returns_lift|].
        rewrite Hnone, bool_decide_eq_false_2 by done. rewrite Hk. exact Hret.
      * rewrite decide_True by congruence.
        rewrite Hperm. unfold acc'. rewrite dict_set_group.
        by rewrite <- app_assoc.
      * intros Hacc. apply Hne. by apply dict_set_group_nonempty.
Qed.

(** X3. The groups of [create_grouping_map] share out the records whose
    key is not [None]: taken together they hold each of these records once,
    and no other record; no group is empty. *)
Theorem grouping_map_partition (key_field : string) (items : list value) :
  Forall (fun item => is_Some (record_key key_field item)) items ->
  exists table,
    returns (create_grouping_map (VList items) key_field) (VDict table) /\
    grouped_records table ≡ₚ
      filter (fun item => record_key key_field item <> Some KNone) items /\
    Forall (fun kv => exists item group, kv.2 = VList (item :: group)) table.
Proof.
  intros Hall.
  destruct (grouping_from_partition key_field items [] Hall)
    as (g & Hret & Hperm & Hne).
  exists (map (fun '(k, group) => (k, VList group)) g). split; [|split].
  - rewrite create_grouping_map_unfold. apply returns_bind. exists g.
    split; [done | by apply returns_ret].
  - rewrite <- Hperm. unfold grouped_records.
    apply reflexive_eq. f_equal. clear. induction g as [|[k group] g IH]; simpl; [done|].
    by rewrite IH.
  - specialize (Hne (Forall_nil_2 _)). clear -Hne.
    induction Hne as [|[k group] g Hgroup _ IH]; simpl; constructor; [|done].
    simpl in *. destruct group as [|item group]; [done|]. by eexists _, _.
Qed.

(** The loops of the standardizer stop at the first item on which a step
    raises. *)
Lemma lookup_from_bad key_field before bad after acc e :
  Forall (fun item => is_Some (record_key key_field item)) before ->
  (forall acc', raises (lookup_from (bad :: after) key_field acc') e) ->
  raises (lookup_from (before ++ bad :: after) key_field acc) e.
Proof.
  intros Hall Hbad. revert acc.
  induction Hall as [|item items [hk0 Hitem] _ IH]; intros acc; [apply Hbad|].
  destruct (record_key_get _ _ _ Hitem) as (k & Hget & Hk).
  simpl. apply raises_bind. right. exists k. split; [by apply returns_lift|].
  apply raises_bind. right. exists (dict_set hk0 k item acc).
  split; [|apply IH]. unfold set_item. rewrite Hk. by apply returns_ret.
Qed.

Lemma grouping_from_bad key_field before bad after acc e :
  Forall (fun item => is_Some (record_key key_field item)) before ->
  (forall acc', raises (grouping_from (bad :: after) key_field acc') e) ->
  raises (grouping_from (before ++ bad :: after) key_field acc) e.
Proof.
  intros Hall Hbad. revert acc.
  induction Hall as [|item items [hk0 Hitem] _ IH]; intros acc; [apply Hbad|].
  destruct (record_key_get _ _ _ Hitem) as (k & Hget & Hk).
  simpl. apply raises_bind. right. exists k. split; [by apply returns_lift|].
  destruct (is_none k); [apply IH|]. rewrite Hk. apply IH.
Qed.

(** X4. [create_lookup_map] and [create_grouping_map] raise on the first
    item they cannot file: [AttributeError] when it is not a record,
    [TypeError] when the key it holds cannot be hashed.  On [None] in place
    of the data, which is what an extractor hands over when it fails, both
    raise [TypeError]. *)
Theorem standardizer_errors (key_field : string) :
  (forall data before bad after,
     py_iter data = Return (before ++ bad :: after)%list ->
     Forall (fun item => is_Some (record_key key_field item)) before ->
     (is_dict bad = false ->
      raises (create_lookup_map data key_field) AttributeError /\
      raises (create_grouping_map data key_field) AttributeError) /\
     (forall record k,
        bad = VDict record ->
        dict_find (KStr key_field) record = Some k ->
        hash_key k = None ->
        raises (create_lookup_map data key_field) TypeError /\
        raises (create_grouping_map data key_field) TypeError)) /\
  raises (create_lookup_map VNone key_field) TypeError /\
  raises (create_grouping_map VNone key_field) TypeError.
Proof.
  split; [|done].
  intros data before bad after Hiter Hall.
  assert (Hloops : forall e,
    (forall acc, raises (lookup_from (bad :: after) key_field acc) e) ->
    (forall acc, raises (grouping_from (bad :: after) key_field acc) e) ->
    raises (create_lookup_map data key_field) e /\
    raises (create_grouping_map data key_field) e).
  { intros e Hl Hg. unfold create_lookup_map, create_grouping_map.
    rewrite Hiter. change (lift (Return ?x)) with (ret x).
    rewrite !bind_ret_l. split; apply raises_bind; left.
    - by apply lookup_from_bad.
    - by apply grouping_from_bad. }
  split.
  - intros Hbad. apply Hloops; intros acc; simpl; apply raises_bind; left;
      by destruct bad.
  - intros record k -> Hfind Hk. apply Hloops; intros acc; simpl;
      rewrite Hfind; simpl; change (lift (Return ?x)) with (ret x);
      rewrite bind_ret_l.
    + unfold set_item. by rewrite Hk.
    + destruct k; try discriminate; simpl; done.
Qed.

(** X5. The two strategies agree on the same source: under every key
    other than [None] the lookup table holds the last record of the group
    that group_by builds for that key, and nothing when there is no such
    group. *)
Theorem lookup_entry_is_last_of_group (key_field : string)
    (items : list value) :
  Forall (fun item => is_Some (record_key key_field item)) items ->
  exists table groups,
    returns (create_lookup_map (VList items) key_field) (VDict table) /\
    returns (create_grouping_map (VList items) key_field) (VDict groups) /\
    forall hk, hk <> KNone ->
      dict_find hk table =
      match dict_find hk groups with
      | Some (VList group) => last group
      | _ => None
      end.
Proof.
  intros Hall.
  destruct (create_lookup_map_spec key_field items Hall)
    as (table & Hret & _ & Hfind).
  destruct (create_grouping_map_spec key_field items Hall)
    as (groups & Hret' & _ & Hfind').
  exists table, groups. split; [done|]. split; [done|].
  intros hk Hhk. rewrite Hfind, Hfind', decide_False by done.
  by destruct (records_with key_field hk items).
Qed.

(** The table of [create_lookup_map]: never longer than the source, and the
    source itself, record by record, when the keys are pairwise distinct. *)
Lemma lookup_map_size_of key_field items :
  Forall (fun item => is_Some (record_key key_field item)) items ->
  exists table,
    returns (create_lookup_map (VList items) key_field) (VDict table) /\
    (length table <= length items)%nat /\
    (NoDup (map (record_key key_field) items) -> table.*2 = items).
Proof.
  intros Hall.
  destruct (lookup_from_classes key_field items Hall)
    as (table & Hret & Hnd & Hsame & _).
  exists table. split; [|split].
  - rewrite create_lookup_map_unfold. apply returns_bind. exists table.
    split; [done | by apply returns_ret].
  - replace (length table) with (length (map hash_key (dict_keys table)))
      by (unfold dict_keys; by rewrite !length_map).
    replace (length items) with (length (map (record_key key_field) items))
      by (by rewrite length_map).
    apply submseteq_length, NoDup_submseteq; [done|].
    intros c Hc. by apply Hsame.
  - intros Hdistinct.
    destruct (lookup_from_distinct key_field items [] Hall Hdistinct)
      as (keys & Hkeys & Hret'); [done|].
    rewrite (returns_inj _ _ _ Hret Hret'). apply snd_zip.
    rewrite (Forall2_length _ _ _ Hkeys). lia.
Qed.

(** ** The ids of the union sources *)

Lemma collect_ids_spec id_field items acc :
  Forall (fun item => is_Some (record_key id_field item)) items ->
  exists s,
    returns (collect_ids items id_field acc) s /\
    (NoDup (map hash_key acc) -> NoDup (map hash_key s)) /\
    (Forall (fun id => id <> VNone) acc -> Forall (fun id => id <> VNone) s) /\
    forall hk,
      Some hk ∈ map hash_key s <->
      Some hk ∈ map hash_key acc \/
      hk <> KNone /\
      exists item, item ∈ items /\ record_key id_field item = Some hk.
Proof.
  intros Hall. revert acc.
  induction Hall as [|item items [hk0 Hitem] _ IH]; intros acc.
  - exists acc. split; [by apply returns_ret|]. split; [done|].
    split; [done|]. intros hk. split; [by left|].
    intros [?|(_ & item & Hin & _)]; [done|]. by apply elem_of_nil in Hin.
  - destruct (record_key_get _ _ _ Hitem) as (k & Hget & Hk).
    pose proof (is_none_hash _ _ Hk) as Hnone.
    destruct (decide (hk0 = KNone)) as [->|Hk0].
    + destruct (IH acc) as (s & Hret & Hnd & Hnn & Hin). exists s.
      split; [|split; [done|split; [done|]]].
      * simpl. apply returns_bind. exists k. split; [by apply returns_lift|].
        by rewrite Hnone.
      * intros hk. rewrite Hin. split.
        -- intros [?|(Hne & item' & Hin' & Hkey)]; [by left|]. right.
           split; [done|]. exists item'.
           split; [apply elem_of_cons; by right | done].
        -- intros [?|(Hne & item' & Hin' & Hkey)]; [by left|]. right.
           split; [done|]. apply elem_of_cons in Hin' as [->|Hin'].
           ++ congruence.
           ++ by exists item'.
    + set (acc' := if bool_decide (Some hk0 ∈ map hash_key acc) then acc
                   else (acc ++ [k])%list).
      destruct (IH acc') as (s & Hret & Hnd & Hnn & Hin). exists s.
      assert (Hacc' : forall hk,
                Some hk ∈ map hash_key acc' <->
                Some hk ∈ map hash_key acc \/ hk = hk0).
      { intros hk. unfold acc'.
        destruct (decide (Some hk0 ∈ map hash_key acc)) as [Hmem|Hmem];
          [rewrite (bool_decide_eq_true_2 _ Hmem)
          |rewrite (bool_decide_eq_false_2 _ Hmem)].
        - split; [by left|]. by intros [?| ->].
        - rewrite List.map_app, elem_of_app. simpl. rewrite Hk.
          rewrite list_elem_of_singleton. split; intros [?|?]; auto.
          + right. congruence.
          + right. congruence. }
      split; [|split; [|split]].
      * simpl. apply returns_bind. exists k. split; [by apply returns_lift|].
        rewrite Hnone, bool_decide_eq_false_2 by done.
        apply returns_bind. exists acc'. split; [|done].
        unfold set_item, set_add. rewrite Hk. by apply returns_ret.
      * intros Hacc. apply Hnd. unfold acc'.
        destruct (decide (Some hk0 ∈ map hash_key acc)) as [Hmem|Hmem];
          [by rewrite (bool_decide_eq_true_2 _ Hmem)
          |rewrite (bool_decide_eq_false_2 _ Hmem)].
        rewrite List.map_app. simpl. rewrite Hk. apply NoDup_app.
        split; [done|]. split; [|apply NoDup_singleton].
        intros c Hc ->%list_elem_of_singleton. done.
      * intros Hacc. apply Hnn. unfold acc'.
        destruct (bool_decide (Some hk0 ∈ map hash_key acc)); [done|].
        apply Forall_app. split; [done|]. constructor; [|done].
        intros ->. simpl in Hk. congruence.
      * intros hk. rewrite Hin, Hacc'. split.
        -- intros [[?| ->]|(Hne & item' & Hin' & Hkey)].
           ++ by left.
           ++ right. split; [done|]. exists item.
              split; [apply elem_of_cons; by left | done].
           ++ right. split; [done|]. exists item'.
              split; [apply elem_of_cons; by right | done].
        -- intros [?|(Hne & item' & Hin' & Hkey)]; [by left; left|].
           apply elem_of_cons in Hin' as [->|Hin'].
           ++ left. right. congruence.
           ++ right. split; [done|]. by exists item'.
Qed.

Lemma union_ids_from sources all_data acc :
  Forall (readable_source all_data) sources ->
  exists s,
    returns (union_ids sources all_data acc) s /\
    (NoDup (map hash_key acc) -> NoDup (map hash_key s)) /\
    (Forall (fun id => id <> VNone) acc -> Forall (fun id => id <> VNone) s) /\
    forall hk,
      Some hk ∈ map hash_key s <->
      Some hk ∈ map hash_key acc \/
      hk <> KNone /\
      exists source table item,
        source ∈ sources /\
        default (VDict []) (all_data !! us_name source) = VDict table /\
        item ∈ table.*2 /\
        record_key (us_id_field source) item = Some hk.
Proof.
  intros Hall. revert acc.
  induction Hall as [|source sources (table & Htable & Hitems) _ IH];
    intros acc.
  - exists acc. split; [by apply returns_ret|]. split; [done|].
    split; [done|]. intros hk. split; [by left|].
    intros [?|(_ & ? & ? & ? & Hin & _)]; [done|]. by apply elem_of_nil in Hin.
  - destruct (collect_ids_spec (us_id_field source) table.*2 acc Hitems)
      as (s1 & Hret1 & Hnd1 & Hnn1 & Hin1).
    destruct (IH s1) as (s & Hret & Hnd & Hnn & Hin). exists s.
    split; [|split; [|split]].
    + simpl. rewrite Htable. simpl. change (lift (Return ?x)) with (ret x).
      rewrite bind_ret_l. apply returns_bind. by exists s1.
    + intros Hacc. by apply Hnd, Hnd1.
    + intros Hacc. by apply Hnn, Hnn1.
    + intros hk. rewrite Hin, Hin1. split.
      * intros [[?|(Hne & item & Hitem & Hkey)]
               |(Hne & source' & table' & item & Hs & Ht & Hitem & Hkey)].
        -- by left.
        -- right. split; [done|]. exists source, table, item.
           split; [apply elem_of_cons; by left | done].
        -- right. split; [done|]. exists source', table', item.
           split; [apply elem_of_cons; by right | done].
      * intros [?|(Hne & source' & table' & item & Hs & Ht & Hitem & Hkey)];
          [by left; left|].
        apply elem_of_cons in Hs as [->|Hs].
        -- left. right. split; [done|]. exists item.
           rewrite Htable in Ht. injection Ht as <-. done.
        -- right. split; [done|]. by exists source', table', item.
Qed.

(** X6. When the records of the union sources can be read, the loop that
    gathers the ids returns a set with no [None] in it and no id twice, and
    an id is in the set exactly when some record of some union source holds
    it under the id field of that source.  A union source whose table is
    absent adds nothing. *)
Theorem union_ids_spec (sources : list union_source) (all_data : tables) :
  Forall (readable_source all_data) sources ->
  exists master_id_set,
    returns (union_ids sources all_data []) master_id_set /\
    NoDup (map hash_key master_id_set) /\
    (VNone ∉ master_id_set) /\
    forall hk,
      Some hk ∈ map hash_key master_id_set <->
      hk <> KNone /\
      exists source table item,
        source ∈ sources /\
        default (VDict []) (all_data !! us_name source) = VDict table /\
        item ∈ table.*2 /\
        record_key (us_id_field source) item = Some hk.
Proof.
  intros Hall.
  destruct (union_ids_from sources all_data [] Hall)
    as (s & Hret & Hnd & Hnn & Hin).
  exists s. split; [done|]. split; [apply Hnd; constructor|]. split.
  - specialize (Hnn (Forall_nil_2 _)). rewrite Forall_forall in Hnn.
    intros Hnone. by apply (Hnn VNone).
  - intros hk. rewrite Hin. split; [|by right].
    intros [Hnil|?]; [|done]. by apply elem_of_nil in Hnil.
Qed.

Lemma collect_ids_bad id_field good bad rest acc e :
  Forall (fun item => is_Some (record_key id_field item)) good ->
  (forall acc', raises (collect_ids (bad :: rest) id_field acc') e) ->
  raises (collect_ids (good ++ bad :: rest) id_field acc) e.
Proof.
  intros Hall Hbad. revert acc.
  induction Hall as [|item items [hk0 Hitem] _ IH]; intros acc; [apply Hbad|].
  destruct (record_key_get _ _ _ Hitem) as (k & Hget & Hk).
  simpl. apply raises_bind. right. exists k. split; [by apply returns_lift|].
  destruct (is_none k); [apply IH|].
  unfold set_add. rewrite Hk, bind_ret_l. apply IH.
Qed.

Lemma union_ids_bad before source after all_data acc e :
  Forall (readable_source all_data) before ->
  (forall acc', raises (union_ids (source :: after) all_data acc') e) ->
  raises (union_ids (before ++ source :: after) all_data acc) e.
Proof.
  intros Hall Hbad. revert acc.
  induction Hall as [|source' sources (table & Htable & Hitems) _ IH];
    intros acc; [apply Hbad|].
  destruct (collect_ids_spec (us_id_field source') table.*2 acc Hitems)
    as (s1 & Hret1 & _).
  simpl. rewrite Htable. simpl. change (lift (Return ?x)) with (ret x).
  rewrite bind_ret_l. apply raises_bind. right. exists s1. split; [done|].
  apply IH.
Qed.

(** X7. The gathering of ids raises at the first union source it cannot
    read: [AttributeError] when the table is present and not a mapping, or
    when a value of the table is not a record, and [TypeError] when an id
    cannot be hashed.  A table of groups that is not empty, which is what
    group_by builds, therefore raises [AttributeError]. *)
Theorem union_source_errors
    (before after : list union_source) (source : union_source)
    (all_data : tables) :
  Forall (readable_source all_data) before ->
  let sources := (before ++ source :: after)%list in
  (forall target,
     all_data !! us_name source = Some target ->
     is_dict target = false ->
     raises (union_ids sources all_data []) AttributeError) /\
  (forall table good bad rest,
     all_data !! us_name source = Some (VDict table) ->
     table.*2 = (good ++ bad :: rest)%list ->
     Forall (fun item => is_Some (record_key (us_id_field source) item)) good ->
     (is_dict bad = false ->
      raises (union_ids sources all_data []) AttributeError) /\
     (forall record id,
        bad = VDict record ->
        dict_find (KStr (us_id_field source)) record = Some id ->
        hash_key id = None ->
        raises (union_ids sources all_data []) TypeError)) /\
  (forall table,
     all_data !! us_name source = Some (VDict table) ->
     table <> [] ->
     Forall (fun kv => is_list kv.2 = true) table ->
     raises (union_ids sources all_data []) AttributeError).
Proof.
  intros Hbefore sources.
  assert (Hitems : forall table good bad rest e,
    all_data !! us_name source = Some (VDict table) ->
    table.*2 = (good ++ bad :: rest)%list ->
    Forall (fun item => is_Some (record_key (us_id_field source) item)) good ->
    (forall acc,
       raises (collect_ids (bad :: rest) (us_id_field source) acc) e) ->
    raises (union_ids sources all_data []) e).
  { intros table good bad rest e Htable Hsplit Hgood Hbad.
    apply union_ids_bad; [done|]. intros acc. simpl. rewrite Htable. simpl.
    change (lift (Return ?x)) with (ret x). rewrite bind_ret_l.
    apply raises_bind. left.
    change (map snd table) with (table.*2). rewrite Hsplit.
    by apply collect_ids_bad. }
  split; [|split].
  - intros target Htable Hdict. apply union_ids_bad; [done|]. intros acc.
    simpl. rewrite Htable. simpl. apply raises_bind. left. by destruct target.
  - intros table good bad rest Htable Hsplit Hgood. split.
    + intros Hdict. apply (Hitems table good bad rest); [done..|].
      intros acc. simpl. apply raises_bind. left. by destruct bad.
    + intros record id -> Hfind Hid.
      apply (Hitems table good (VDict record) rest); [done..|].
      intros acc. simpl. rewrite Hfind. simpl.
      change (lift (Return ?x)) with (ret x). rewrite bind_ret_l.
      assert (is_none id = false) as -> by by destruct id.
      unfold set_add. by rewrite Hid.
  - intros table Htable Hne Hlists.
    destruct table as [|[k v] table]; [done|].
    apply Forall_cons in Hlists as [Hv _]. simpl in Hv.
    apply (Hitems _ [] v table.*2 AttributeError Htable); [done | constructor|].
    intros acc. simpl. apply raises_bind. left. by destruct v.
Qed.
(** ** Values of rules without a link *)

(** The unfolding of [_get_value] on a rule that has no [link_key]. *)
Lemma get_value_unlinked context rule all_data silent :
  r_link_key rule = None ->
  _get_value context rule all_data silent =
  let unresolved :=
    let* _ := warn_unless silent (CouldNotResolve rule) in
    ret VNone in
  match nonempty (r_from_context rule) with
  | Some alias => lift (py_get context (VStr alias) VNone)
  | None =>
      if bool_decide (r_from_parent rule = Some true) then
        match r_field rule with
        | None => ret context
        | Some field => lift (py_get context (VStr field) VNone)
        end
      else
        match r_from rule with
        | Some source_name =>
            let* source_object :=
              lift (py_get context (VStr source_name) VNone) in
            match r_field rule with
            | Some field =>
                if truthy source_object
                then lift (py_get source_object (VStr field) VNone)
                else unresolved
            | None => unresolved
            end
        | None => unresolved
        end
  end.
Proof. intros Hlk. destruct rule; simpl in *; subst. reflexivity. Qed.

Lemma get_value_quiet all_data rule :
  forall context, (_get_value context rule all_data true).1 = [].
Proof.
  induction rule as [rule IH] using rule_induction. intros context.
  destruct IH as (IHlk & _).
  destruct (r_link_key rule) as [link_key|] eqn:Hlk.
  - destruct (r_from rule) as [source_name|] eqn:Hfrom.
    + rewrite (get_value_linked _ _ _ _ _ _ Hlk Hfrom).
      assert (Hwarn : (let* _ := warn_unless true (SourceNotFound source_name) in
                       ret VNone).1 = []) by done.
      destruct (all_data !! source_name) as [target|]; [|done].
      destruct target; try done;
        (apply bind_quiet; [apply IHlk|]; intros k;
         destruct (is_none k); [done|];
         apply bind_quiet; [done|]; intros item;
         destruct (is_none item); [done|];
         destruct (r_field rule); [|done];
         by destruct (is_dict item)).
    + destruct rule; simpl in *; subst. done.
  - rewrite (get_value_unlinked _ _ _ _ Hlk). simpl.
    destruct (nonempty (r_from_context rule)); [done|].
    case_bool_decide; [by destruct (r_field rule)|].
    destruct (r_from rule); [|done].
    apply bind_quiet; [done|]. intros obj.
    destruct (r_field rule); [|done]. by destruct (truthy obj).
Qed.

Lemma get_value_outcome context rule all_data silent :
  (_get_value context rule all_data silent).2 =
  (_get_value context rule all_data true).2.
Proof.
  destruct (r_link_key rule) as [link_key|] eqn:Hlk.
  - destruct (r_from rule) as [source_name|] eqn:Hfrom.
    + rewrite !(get_value_linked _ _ _ _ _ _ Hlk Hfrom).
      destruct (all_data !! source_name) as [target|];
        [|by rewrite !warn_unless_outcome].
      destruct target; try (by rewrite !warn_unless_outcome);
        (apply bind_same_outcome; [done|]; intros k;
         destruct (is_none k); [done|];
         apply bind_same_outcome; [done|]; intros item;
         destruct (is_none item); [done|];
         destruct (r_field rule); [|done];
         destruct (is_dict item); [done|];
         by rewrite !warn_unless_outcome).
    + destruct rule; simpl in *; subst. done.
  - rewrite !(get_value_unlinked _ _ _ _ Hlk). simpl.
    destruct (nonempty (r_from_context rule)); [done|].
    case_bool_decide; [done|].
    destruct (r_from rule); [|by rewrite !warn_unless_outcome].
    apply bind_same_outcome; [done|]. intros obj.
    destruct (r_field rule); [|by rewrite !warn_unless_outcome].
    destruct (truthy obj); [done|]. by rewrite !warn_unless_outcome.
Qed.

Lemma check_condition_quiet context condition_rule all_data :
  (_check_condition context condition_rule all_data).1 = [].
Proof.
  unfold _check_condition. apply bind_quiet; [apply get_value_quiet|].
  intros k. destruct (is_none k); [done|]. by apply bind_quiet.
Qed.

(** X8. A Direct rule [{from: alias, field: field}] reads the field of
    the record the context binds to the alias: the value of the field, or
    [None] when the record lacks it, with nothing logged.  When the alias is
    unbound, or bound to a value that is false in Python ([None], an empty
    record, [0], the empty string), the result is [None] and, unless silent,
    one warning.  When the alias is bound to a true value that is not a
    record, or the context is not a mapping, [AttributeError] is raised. *)
Theorem direct_rule_spec
    (context : value) (all_data : tables) (rule : rule)
    (alias field : string) (silent : bool) :
  r_link_key rule = None ->
  nonempty (r_from_context rule) = None ->
  r_from_parent rule <> Some true ->
  r_from rule = Some alias ->
  r_field rule = Some field ->
  (is_dict context = false ->
   raises (_get_value context rule all_data silent) AttributeError) /\
  (forall c,
     context = VDict c ->
     let source_object := default VNone (dict_find (KStr alias) c) in
     (forall record,
        source_object = VDict record -> record <> [] ->
        _get_value context rule all_data silent =
          ret (default VNone (dict_find (KStr field) record))) /\
     (truthy source_object = false ->
      _get_value context rule all_data silent =
        (if silent then [] else [(WARNING, CouldNotResolve rule)],
         Return VNone)) /\
     (truthy source_object = true -> is_dict source_object = false ->
      raises (_get_value context rule all_data silent) AttributeError)).
Proof.
  intros Hlk Hctx Hparent Hfrom Hfield.
  rewrite (get_value_unlinked _ _ _ _ Hlk), Hctx, Hfrom, Hfield.
  rewrite bool_decide_eq_false_2 by done. simpl. split.
  - intros Hdict. apply raises_bind. left. by destruct context.
  - intros c ->. simpl. change (lift (Return ?x)) with (ret x).
    rewrite bind_ret_l.
    change (from_option id VNone (dict_find (KStr alias) c))
      with (default VNone (dict_find (KStr alias) c)).
    split; [|split].
    + intros record -> Hne. by destruct record.
    + intros ->. by destruct silent.
    + intros -> Hdict.
      by destruct (default VNone (dict_find (KStr alias) c)).
Qed.

(** X9. On a rule without [link_key]: a [from_context] that is not empty
    wins over every other key and gives what the context binds to the alias,
    [None] when it is unbound; otherwise [from_parent: true] gives the
    context itself when there is no [field], whatever the context is, and
    the field of the context when there is one.  Both log nothing, and both
    raise [AttributeError] when they have to read a context that is not a
    mapping.  A rule with none of these keys and no [from] is [None], with
    one warning unless silent, and never raises. *)
Theorem context_and_parent_rules
    (context : value) (all_data : tables) (rule : rule) (silent : bool) :
  r_link_key rule = None ->
  (forall alias,
     nonempty (r_from_context rule) = Some alias ->
     (forall c, context = VDict c ->
        _get_value context rule all_data silent =
          ret (default VNone (dict_find (KStr alias) c))) /\
     (is_dict context = false ->
      raises (_get_value context rule all_data silent) AttributeError)) /\
  (nonempty (r_from_context rule) = None ->
   r_from_parent rule = Some true ->
   (r_field rule = None ->
    _get_value context rule all_data silent = ret context) /\
   (forall field,
      r_field rule = Some field ->
      (forall c, context = VDict c ->
         _get_value context rule all_data silent =
           ret (default VNone (dict_find (KStr field) c))) /\
      (is_dict context = false ->
       raises (_get_value context rule all_data silent) AttributeError))) /\
  (nonempty (r_from_context rule) = None ->
   r_from_parent rule <> Some true ->
   r_from rule = None ->
   _get_value context rule all_data silent =
     (if silent then [] else [(WARNING, CouldNotResolve rule)],
      Return VNone)).
Proof.
  intros Hlk. rewrite (get_value_unlinked _ _ _ _ Hlk). simpl.
  split; [|split].
  - intros alias ->. split; [by intros c -> | by destruct context].
  - intros -> ->. rewrite bool_decide_eq_true_2 by done.
    split; [by intros -> |]. intros field ->.
    split; [by intros c -> | by destruct context].
  - intros -> Hparent ->. rewrite bool_decide_eq_false_2 by done.
    by destruct silent.
Qed.

(** ** Silence, exceptions and the composition of runs *)

(** X10. The [silent] flag of [_get_value] only concerns the log: a
    silent call logs nothing, and it ends as the call that is not silent
    ends, with the same value or the same exception.  [_check_condition]
    logs nothing, and a field that its condition leaves out has logged
    nothing. *)
Theorem silent_lookups (context : value) (all_data : tables) :
  (forall rule,
     (_get_value context rule all_data true).1 = [] /\
     (_get_value context rule all_data true).2 =
       (_get_value context rule all_data false).2) /\
  (forall condition_rule,
     (_check_condition context condition_rule all_data).1 = []) /\
  (forall key rule,
     returns (build_field py_float context key rule all_data) None ->
     (build_field py_float context key rule all_data).1 = []).
Proof.
  split; [|split].
  - intros rule. split; [apply get_value_quiet|].
    symmetry. apply get_value_outcome.
  - intros condition_rule. apply check_condition_quiet.
  - intros key rule. rewrite build_field_unfold. intros Hret.
    apply returns_bind in Hret as (met & Hmet & Hret).
    rewrite (bind_log _ _ _ Hmet).
    destruct (r_condition rule) as [condition_rule|];
      [rewrite check_condition_quiet|]; simpl;
      (destruct met; simpl in *; [|done]);
      apply returns_bind in Hret as (val & _ & Hret); discriminate.
Qed.

(** The loop of [_build_node] raises what the first field that does not
    return raises. *)
Lemma build_from_raises context all_data structure output_node e :
  raises (build_from py_float context all_data structure output_node) e <->
  exists before key rule after,
    structure = (before ++ (key, rule) :: after)%list /\
    Forall (fun kr => exists field,
              returns (build_field py_float context kr.1 kr.2 all_data) field)
           before /\
    raises (build_field py_float context key rule all_data) e.
Proof.
  revert output_node.
  induction structure as [|[key rule] rest IH]; intros output_node.
  - simpl. split; [discriminate|]. intros (before & ? & ? & ? & Heq & _).
    by destruct before.
  - rewrite build_from_cons, raises_bind. split.
    + intros [Hfield|(field & Hfield & Hrest)].
      * exists [], key, rule, rest. by repeat split.
      * apply IH in Hrest as (before & key' & rule' & after & -> & Hb & Hr).
        exists ((key, rule) :: before), key', rule', after.
        repeat split; [|done]. constructor; [by exists field | done].
    + intros (before & key' & rule' & after & Heq & Hb & Hr).
      destruct before as [|kr before]; simpl in Heq.
      * injection Heq as <- <- <-. by left.
      * injection Heq as <- ->. apply Forall_cons in Hb as [[field Hfield] Hb].
        right. exists field. split; [done|]. apply IH.
        by exists before, key', rule', after.
Qed.

(** X11. [_build_node] raises an exception exactly when some field
    raises it while every field before it returned: the fields after it are
    not resolved and no record is returned.  A field raises either in its
    condition, or, the condition being met, in its value. *)
Theorem build_node_raises
    (context : value) (all_data : tables) (e : exn) :
  (forall structure,
     raises (_build_node py_float context structure all_data) e <->
     exists before key rule after,
       structure = (before ++ (key, rule) :: after)%list /\
       Forall (fun kr => exists field,
                 returns (build_field py_float context kr.1 kr.2 all_data)
                         field) before /\
       raises (build_field py_float context key rule all_data) e) /\
  (forall key rule,
     raises (build_field py_float context key rule all_data) e <->
     (exists condition_rule,
        r_condition rule = Some condition_rule /\
        raises (_check_condition context condition_rule all_data) e) \/
     (condition_holds context rule all_data = true /\
      raises (field_value py_float context key rule all_data) e)).
Proof.
  split; [intros structure; apply build_from_raises|].
  intros key rule. rewrite build_field_unfold, raises_bind.
  unfold condition_holds. split.
  - intros [Hcond|(met & Hmet & Hval)].
    + left. destruct (r_condition rule) as [condition_rule|]; [|done].
      by exists condition_rule.
    + right. destruct met; simpl in Hval; [|done].
      apply raises_bind in Hval as [Hval|(val & _ & ?)]; [|done].
      split; [|done]. destruct (r_condition rule); [|done].
      unfold returns in Hmet. by rewrite Hmet.
  - intros [(condition_rule & -> & Hcond)|[Hholds Hval]]; [by left|].
    right. exists true. split.
    + destruct (r_condition rule) as [condition_rule|]; [|done].
      unfold returns.
      destruct ((_check_condition context condition_rule all_data).2)
        as [met|]; [by subst | done].
    + simpl. apply raises_bind. by left.
Qed.

Lemma root_context_alias spec alias item :
  (resolution_strategy spec = Some "union" /\ alias = "union_id" \/
   opt_is (resolution_strategy spec) "union" = false /\
   primary_source spec = Some alias) ->
  root_context spec item = ret (VDict [(VStr alias, item)]).
Proof.
  intros Halias. unfold root_context.
  destruct Halias as [[-> ->]|[-> ->]]; [done|]. simpl. by rewrite bind_ret_l.
Qed.

(** X12. With the output structure and the root alias in place,
    [resolve_data] raises an exception exactly when the build of some item
    raises it and the build of every item before it returned: one item that
    fails ends the run, and the records of the items before it are not
    returned. *)
Theorem resolve_data_raises
    (spec : spec) (all_data : tables) (items_to_process : list value)
    (structure : structure) (alias : string) (e : exn) :
  output_structure spec = Some structure ->
  (resolution_strategy spec = Some "union" /\ alias = "union_id" \/
   opt_is (resolution_strategy spec) "union" = false /\
   primary_source spec = Some alias) ->
  raises (resolve_data py_float spec all_data items_to_process) e <->
  exists before item after,
    items_to_process = (before ++ item :: after)%list /\
    Forall (fun item' => exists resolved_obj,
              returns (_build_node py_float (VDict [(VStr alias, item')])
                         structure all_data) resolved_obj) before /\
    raises (_build_node py_float (VDict [(VStr alias, item)]) structure
              all_data) e.
Proof.
  intros Hst Halias. unfold resolve_data. rewrite Hst.
  change (subscript (Some ?x)) with (ret x). rewrite bind_ret_l.
  rewrite raises_for_each.
  assert (Hret : forall item,
    (exists out,
       returns (let* context := root_context spec item in
                let* resolved_obj :=
                  _build_node py_float context structure all_data in
                ret (VDict resolved_obj)) out) <->
    exists resolved_obj,
      returns (_build_node py_float (VDict [(VStr alias, item)]) structure
                 all_data) resolved_obj).
  { intros item. rewrite (root_context_alias _ _ _ Halias), bind_ret_l. split.
    - intros (out & (obj & Hobj & _)%returns_bind). by exists obj.
    - intros (obj & Hobj). exists (VDict obj). apply returns_bind.
      exists obj. split; [done | by apply returns_ret]. }
  assert (Hraise : forall item,
    raises (let* context := root_context spec item in
            let* resolved_obj :=
              _build_node py_float context structure all_data in
            ret (VDict resolved_obj)) e <->
    raises (_build_node py_float (VDict [(VStr alias, item)]) structure
              all_data) e).
  { intros item. rewrite (root_context_alias _ _ _ Halias), bind_ret_l.
    rewrite raises_bind. split; [|by left].
    by intros [?|(obj & _ & ?)]. }
  split; intros (before & item & after & -> & Hbefore & Hitem);
    exists before, item, after; (split; [done|]); (split; [|by apply Hraise]);
    eapply Forall_impl; [exact Hbefore | | exact Hbefore |];
    intros item' Hitem'; by apply Hret.
Qed.

(** X13. Without [output_structure], [resolve_data] raises [KeyError]
    whatever the items.  With it, no item gives the empty list even when the
    specification names no primary source; the missing [primary_source]
    raises [KeyError] as soon as there is an item, unless the strategy is
    union. *)
Theorem resolve_data_edges (spec : spec) (all_data : tables) :
  (output_structure spec = None ->
   forall items_to_process,
     resolve_data py_float spec all_data items_to_process = raise KeyError) /\
  (is_Some (output_structure spec) ->
   resolve_data py_float spec all_data [] = ret []) /\
  (is_Some (output_structure spec) ->
   opt_is (resolution_strategy spec) "union" = false ->
   primary_source spec = None ->
   forall item rest,
     resolve_data py_float spec all_data (item :: rest) = raise KeyError).
Proof.
  unfold resolve_data. split; [|split].
  - by intros ->.
  - by intros [structure ->].
  - intros [structure ->] Hunion Hprimary item rest.
    change (subscript (Some ?x)) with (ret x). rewrite bind_ret_l. simpl.
    unfold root_context. by rewrite Hunion, Hprimary.
Qed.

(** X14. Resolving two runs of items one after the other is resolving
    them separately: [resolve_data] returns on the concatenation exactly
    when it returns on both parts, the result is the concatenation of the
    two results, and the log is the concatenation of the two logs. *)
Theorem resolve_data_app
    (spec : spec) (all_data : tables) (items more : list value) :
  (forall resolved_objects,
     returns (resolve_data py_float spec all_data (items ++ more))
             resolved_objects <->
     exists first rest,
       returns (resolve_data py_float spec all_data items) first /\
       returns (resolve_data py_float spec all_data more) rest /\
       resolved_objects = (first ++ rest)%list) /\
  (forall first,
     returns (resolve_data py_float spec all_data items) first ->
     (resolve_data py_float spec all_data (items ++ more)).1 =
     ((resolve_data py_float spec all_data items).1 ++
      (resolve_data py_float spec all_data more).1)%list).
Proof.
  unfold resolve_data.
  destruct (output_structure spec) as [structure|].
  - change (subscript (Some ?x)) with (ret x). rewrite !bind_ret_l.
    rewrite for_each_app. split.
    + intros out. rewrite returns_bind. split.
      * intros (first & Hfirst & (rest & Hrest & <-%returns_ret)%returns_bind).
        by exists first, rest.
      * intros (first & rest & Hfirst & Hrest & ->). exists first.
        split; [done|]. apply returns_bind. exists rest.
        split; [done | by apply returns_ret].
    + intros first Hfirst. rewrite (bind_log _ _ _ Hfirst). f_equal.
      destruct (for_each _ more) as [l [rest|e]]; unfold bind, ret; simpl;
        [by rewrite app_nil_r | done].
  - split.
    + intros out. split; [discriminate|]. by intros (? & ? & ? & _).
    + discriminate.
Qed.

(** ** Transforms *)

(** The unfolding of [_apply_transform] on a lookup transform and a value
    other than [None]. *)
Lemma apply_lookup_unfold all_data rule t val :
  r_transform rule = Some t -> t_type t = Some "lookup" -> val <> VNone ->
  _apply_transform py_float val rule all_data =
  match nonempty (t_in_source t) with
  | None =>
      let* _ := logging_warning LookupMissingInSource in
      ret val
  | Some lookup_source_name =>
      lift (py_get (default (VDict []) (all_data !! lookup_source_name))
                   val VNone)
  end.
Proof.
  intros Htr Hty Hval. unfold _apply_transform. rewrite Htr.
  assert (has_keys t = true) as -> by (destruct t; simpl in *; by subst).
  assert (is_none val = false) as -> by by destruct val.
  simpl. by rewrite Hty.
Qed.

(** X15. The lookup transform leaves [None] as it is, without a look in
    the table.  Without [in_source] it returns the value unchanged and logs
    one warning.  Otherwise the result is the entry of the table under the
    value, [None] when the table has no such entry or is absent;
    [TypeError] is raised when the value cannot be hashed and
    [AttributeError] when the table is present and not a mapping. *)
Theorem lookup_transform_spec
    (all_data : tables) (rule : rule) (t : transform) (val : value) :
  r_transform rule = Some t ->
  t_type t = Some "lookup" ->
  _apply_transform py_float VNone rule all_data = ret VNone /\
  (val <> VNone ->
   (nonempty (t_in_source t) = None ->
    _apply_transform py_float val rule all_data =
      ([(WARNING, LookupMissingInSource)], Return val)) /\
   (forall source,
      nonempty (t_in_source t) = Some source ->
      (forall table hk,
         default (VDict []) (all_data !! source) = VDict table ->
         hash_key val = Some hk ->
         _apply_transform py_float val rule all_data =
           ret (default VNone (dict_find hk table))) /\
      (forall table,
         default (VDict []) (all_data !! source) = VDict table ->
         hash_key val = None ->
         raises (_apply_transform py_float val rule all_data) TypeError) /\
      (forall target,
         all_data !! source = Some target ->
         is_dict target = false ->
         raises (_apply_transform py_float val rule all_data)
                AttributeError))).
Proof.
  intros Htr Hty. split.
  - unfold _apply_transform. rewrite Htr. simpl. by rewrite orb_true_r.
  - intros Hval. rewrite (apply_lookup_unfold _ _ _ _ Htr Hty Hval).
    split; [by intros ->|]. intros source ->. split; [|split].
    + intros table hk -> Hk. unfold lift, ret. simpl. by rewrite Hk.
    + intros table -> Hk. unfold raises. simpl. by rewrite Hk.
    + intros target -> Hdict. by destruct target.
Qed.

(** X16. In a coalesce the test for [None] comes after the transform: an
    alternative whose raw value is found but whose lookup transform finds
    no entry counts as [None], and the coalesce goes on with the
    alternatives after it. *)
Theorem coalesce_skips_lookup_miss
    (context : value) (all_data : tables) (sub_rule : rule)
    (rest : list rule) (t : transform) (source : string) (raw : value)
    (hk : hkey) (table : dict) :
  r_transform sub_rule = Some t ->
  t_type t = Some "lookup" ->
  nonempty (t_in_source t) = Some source ->
  returns (_get_value context sub_rule all_data false) raw ->
  hash_key raw = Some hk ->
  default (VDict []) (all_data !! source) = VDict table ->
  default VNone (dict_find hk table) = VNone ->
  returns (_resolve_simple_value py_float context sub_rule all_data) VNone /\
  (coalesce py_float context (sub_rule :: rest) all_data).2 =
  (coalesce py_float context rest all_data).2.
Proof.
  intros Htr Hty Hsrc Hraw Hk Htable Hmiss.
  assert (Hnone : returns (_resolve_simple_value py_float context sub_rule
                             all_data) VNone).
  { apply returns_bind. exists raw. split; [done|].
    assert (raw = VNone \/ raw <> VNone) as [->|Hne]
      by (destruct raw; (by left) || (by right)).
    - unfold _apply_transform. rewrite Htr. simpl. by rewrite orb_true_r.
    - rewrite (apply_lookup_unfold _ _ _ _ Htr Hty Hne), Hsrc, Htable.
      unfold returns. simpl. rewrite Hk. simpl. f_equal. exact Hmiss. }
  split; [done|]. rewrite coalesce_cons, bind_outcome.
  unfold returns in Hnone. by rewrite Hnone.
Qed.

(** X17. [_apply_transform] returns the value unchanged, and logs
    nothing, when the rule has no transform, when the transform is an empty
    mapping, when the value is [None], and when the type of the transform
    is neither lookup nor split.  A split of a value that is neither [None]
    nor a string returns the value unchanged and logs one warning. *)
Theorem transform_leaves_value
    (all_data : tables) (rule : rule) (val : value) :
  (r_transform rule = None ->
   _apply_transform py_float val rule all_data = ret val) /\
  (forall t,
     r_transform rule = Some t ->
     (has_keys t = false \/ val = VNone \/
      t_type t <> Some "lookup" /\ t_type t <> Some "split" ->
      _apply_transform py_float val rule all_data = ret val) /\
     (t_type t = Some "split" -> val <> VNone -> (forall s, val <> VStr s) ->
      _apply_transform py_float val rule all_data =
        ([(WARNING, SplitExpectedString val)], Return val))).
Proof.
  unfold _apply_transform. split; [by intros ->|]. intros t ->. split.
  - intros [->|[->|[Hl Hs]]]; [done | by rewrite orb_true_r |].
    destruct (negb (has_keys t) || is_none val); [done|].
    assert (opt_is (t_type t) "lookup" = false) as ->.
    { destruct (t_type t) as [ty|]; [|done]. simpl.
      apply String.eqb_neq. congruence. }
    assert (opt_is (t_type t) "split" = false) as ->.
    { destruct (t_type t) as [ty|]; [|done]. simpl.
      apply String.eqb_neq. congruence. }
    done.
  - intros Hty Hval Hkind.
    assert (has_keys t = true) as -> by (destruct t; simpl in *; by subst).
    assert (is_none val = false) as -> by by destruct val.
    rewrite Hty. simpl.
    destruct val as [| | | |s| |]; try done. by destruct (Hkind s).
Qed.

(** X18. For a split with a delimiter that is not empty: the pieces that
    are kept are not empty and have no white space at either end; the
    result is a list with one element for each of them, whether the cast
    succeeds or not; and a string of white space only gives the empty list,
    with nothing logged, under every [as_type]. *)
Theorem split_pieces_spec
    (all_data : tables) (rule : rule) (t : transform) (s : string) :
  r_transform rule = Some t ->
  t_type t = Some "split" ->
  default "," (t_delimiter t) <> "" ->
  let pieces :=
    stripped_pieces (split_from (default "," (t_delimiter t)) s 0 "") in
  Forall (fun p => p <> "" /\ strip p = p) pieces /\
  (exists xs,
     returns (_apply_transform py_float (VStr s) rule all_data) (VList xs) /\
     length xs = length pieces) /\
  (strip s = "" ->
   _apply_transform py_float (VStr s) rule all_data = ret (VList [])).
Proof.
  intros Htr Hty Hdelim pieces.
  pose proof (apply_split_unfold all_data rule t s Htr Hty) as Hunfold.
  cbv zeta in Hunfold. unfold py_split in Hunfold.
  apply String.eqb_neq in Hdelim. rewrite Hdelim in Hunfold.
  change (lift (Return ?x)) with (ret x) in Hunfold.
  rewrite bind_ret_l in Hunfold. fold pieces in Hunfold.
  split; [apply stripped_pieces_trimmed|]. split.
  - rewrite Hunfold.
    destruct (String.eqb (default "string" (t_as_type t)) "int").
    { destruct (mapM py_int pieces) as [ns|] eqn:Hns.
      - exists (map VInt ns). split; [done|]. rewrite length_map.
        symmetry. by eapply length_mapM.
      - exists (map VStr pieces). split; [done|]. by rewrite length_map. }
    destruct (String.eqb (default "string" (t_as_type t)) "float").
    { destruct (mapM py_float pieces) as [fs|] eqn:Hfs.
      - exists (map VFloat fs). split; [done|]. rewrite length_map.
        symmetry. by eapply length_mapM.
      - exists (map VStr pieces). split; [done|]. by rewrite length_map. }
    exists (map VStr pieces). split; [done|]. by rewrite length_map.
  - intros Hblank. rewrite Hunfold.
    assert (pieces = []) as ->.
    { apply stripped_pieces_blank.
      apply (split_from_chars (fun c => is_space c = true));
        [by apply strip_with_blank | constructor]. }
    simpl. by repeat destruct (String.eqb _ _).
Qed.

(** ** Tables that are not mappings *)

(** X19. A table that is present but not a mapping.  A Linked rule
    treats the table [None] as absent ([None] and, unless silent, one
    warning) and raises [AttributeError] on any other such table as soon as
    its link key is not [None].  A List rule raises [AttributeError] on
    every such table, [None] included.  A condition raises [TypeError] on
    the table [None], and on a list it looks for the key among the elements
    of the list. *)
Theorem non_mapping_table
    (context : value) (all_data : tables) (source_name : string)
    (target : value) :
  all_data !! source_name = Some target ->
  is_dict target = false ->
  (forall rule link_key silent,
     r_link_key rule = Some link_key ->
     r_from rule = Some source_name ->
     (target = VNone ->
      _get_value context rule all_data silent =
        (if silent then [] else [(WARNING, SourceNotFound source_name)],
         Return VNone)) /\
     (forall lookup_key,
        target <> VNone ->
        returns (_get_value context link_key all_data true) lookup_key ->
        lookup_key <> VNone ->
        raises (_get_value context rule all_data silent) AttributeError)) /\
  (forall key rule link_key lookup_key,
     r_coalesce rule = None ->
     r_type rule = Some "list" ->
     r_link_key rule = Some link_key ->
     r_from rule = Some source_name ->
     returns (_get_value context link_key all_data false) lookup_key ->
     raises (field_value py_float context key rule all_data) AttributeError) /\
  (forall condition_rule key_to_check,
     c_source condition_rule = source_name ->
     returns (_get_value context (c_key condition_rule) all_data true)
             key_to_check ->
     key_to_check <> VNone ->
     (target = VNone ->
      raises (_check_condition context condition_rule all_data) TypeError) /\
     (forall xs,
        target = VList xs ->
        let listed := existsb (fun x => py_eqb x key_to_check) xs in
        returns (_check_condition context condition_rule all_data)
                (if bool_decide (c_exists condition_rule = Some true)
                 then listed else negb listed))).
Proof.
  intros Htable Hdict. split; [|split].
  - intros rule link_key silent Hlk Hfrom.
    rewrite (get_value_linked _ _ _ _ _ _ Hlk Hfrom), Htable. split.
    + intros ->. by destruct silent.
    + intros lookup_key Htarget Hkey Hnone.
      assert (raises
                (let* lookup_key := _get_value context link_key all_data true in
                 if is_none lookup_key then ret VNone else
                 let* linked_item := lift (py_get target lookup_key VNone) in
                 if is_none linked_item then ret VNone else
                 match r_field rule with
                 | Some field =>
                     if is_dict linked_item
                     then lift (py_get linked_item (VStr field) VNone)
                     else
                       let* _ := warn_unless silent
                                   (ExpectsDictionary field linked_item) in
                       ret VNone
                 | None => ret linked_item
                 end) AttributeError) as Hraise.
      { apply raises_bind. right. exists lookup_key. split; [done|].
        assert (is_none lookup_key = false) as -> by by destruct lookup_key.
        apply raises_bind. left. by destruct target. }
      by destruct target.
  - intros key rule link_key lookup_key Hco Hty Hlk Hfrom Hkey.
    unfold field_value, field_value_with. rewrite Hco, Hty, Hlk, Hfrom. simpl.
    change (subscript (Some ?x)) with (ret x). rewrite bind_ret_l.
    apply raises_bind. right. exists lookup_key. split; [done|].
    rewrite bind_ret_l, Htable. simpl.
    apply raises_bind. left. by destruct target.
  - intros condition_rule key_to_check Hsrc Hkey Hnone.
    rewrite check_condition_unfold, Hsrc, Htable. simpl.
    assert (Hnot : is_none key_to_check = false) by by destruct key_to_check.
    split.
    + intros ->. apply raises_bind. right. exists key_to_check.
      split; [done|]. rewrite Hnot. apply raises_bind. by left.
    + intros xs ->. apply returns_bind. exists key_to_check.
      split; [done|]. rewrite Hnot. simpl.
      change (lift (Return ?x)) with (ret x). by rewrite bind_ret_l.
Qed.

(** X20. A condition with [exists: true] and the same condition with
    [exists] false or missing are opposite only when the key is found to be
    other than [None]: then one is met exactly when the other is not.  When
    the key is [None] both are false, and both raise the same
    exceptions. *)
Theorem condition_polarity
    (context : value) (all_data : tables) (source : string) (key : rule)
    (other : option bool) :
  other <> Some true ->
  let present := Condition source key (Some true) in
  let absent := Condition source key other in
  (returns (_get_value context key all_data true) VNone ->
   returns (_check_condition context present all_data) false /\
   returns (_check_condition context absent all_data) false) /\
  (forall key_to_check,
     returns (_get_value context key all_data true) key_to_check ->
     key_to_check <> VNone ->
     forall met,
       returns (_check_condition context present all_data) met <->
       returns (_check_condition context absent all_data) (negb met)) /\
  (forall e,
     raises (_check_condition context present all_data) e <->
     raises (_check_condition context absent all_data) e).
Proof.
  intros Hother present absent. rewrite !check_condition_unfold.
  assert (Hflag : bool_decide (other = Some true) = false)
    by by apply bool_decide_eq_false_2.
  simpl. destruct (bool_decide (other = Some true)); [done|]. clear Hflag.
  split; [|split].
  - intros Hkey. split; apply returns_bind; exists VNone;
      (split; [exact Hkey | reflexivity]).
  - intros k Hkey Hnone met.
    rewrite !(returns_bind_returned _ _ _ _ Hkey).
    assert (is_none k = false) as -> by by destruct k.
    destruct (py_in k (default (VDict []) (all_data !! source))) as [b|e'].
    + change (lift (Return ?x)) with (ret x). rewrite !bind_ret_l.
      rewrite !returns_ret. split; [by intros ->|].
      by destruct b, met.
    + split; intros H; apply returns_bind in H as (? & ? & _); discriminate.
  - intros e. rewrite !raises_bind. split.
    + intros [?|(k & Hk & Hr)]; [by left|]. right. exists k. split; [done|].
      destruct (is_none k); [done|].
      apply raises_bind in Hr as [Hr|(b & _ & ?)]; [|done].
      apply raises_bind. by left.
    + intros [?|(k & Hk & Hr)]; [by left|]. right. exists k. split; [done|].
      destruct (is_none k); [done|].
      apply raises_bind in Hr as [Hr|(b & _ & ?)]; [|done].
      apply raises_bind. by left.
Qed.

(** X21. The value of a List rule depends on the context through the link
    key only: two contexts in which the link key resolves to the same value
    give the same list, or the same exception.  The sub-objects are built
    from the items of the list and see nothing of the context of the
    rule. *)
Theorem list_rule_context_free
    (context context' : value) (all_data : tables) (key : string)
    (rule link_key : rule) (lookup_key : value) :
  r_coalesce rule = None ->
  r_type rule = Some "list" ->
  r_link_key rule = Some link_key ->
  returns (_get_value context link_key all_data false) lookup_key ->
  returns (_get_value context' link_key all_data false) lookup_key ->
  (field_value py_float context key rule all_data).2 =
  (field_value py_float context' key rule all_data).2.
Proof.
  intros Hco Hty Hlk Hkey Hkey'.
  unfold field_value, field_value_with. rewrite Hco, Hty, Hlk. simpl.
  change (subscript (Some ?x)) with (ret x). rewrite !bind_ret_l.
  rewrite !bind_outcome. unfold returns in Hkey, Hkey'.
  by rewrite Hkey, Hkey'.
Qed.

(** ** The resolution stage *)

(** What [resolve_data] returns, item by item. *)
Lemma resolve_data_returns spec all_data items structure alias resolved :
  output_structure spec = Some structure ->
  (resolution_strategy spec = Some "union" /\ alias = "union_id" \/
   opt_is (resolution_strategy spec) "union" = false /\
   primary_source spec = Some alias) ->
  returns (resolve_data py_float spec all_data items) resolved <->
  Forall2 (fun item obj =>
             exists node,
               obj = VDict node /\
               returns (_build_node py_float (VDict [(VStr alias, item)])
                          structure all_data) node)
          items resolved.
Proof.
  intros Hst Halias. unfold resolve_data. rewrite Hst.
  change (subscript (Some ?x)) with (ret x). rewrite bind_ret_l.
  rewrite returns_for_each.
  split; intros Hall; (eapply Forall2_impl; [exact Hall|]); intros item obj;
    cbv beta;
    rewrite (root_context_alias _ _ _ Halias), bind_ret_l, returns_bind.
  - intros (node & Hnode & <-%returns_ret). by exists node.
  - intros (node & -> & Hnode). exists node. split; [done|].
    by apply returns_ret.
Qed.

Section stage.

Variable set_iter : list value -> list value.
Hypothesis set_iter_order : forall s, set_iter s ≡ₚ s.

(** X22. Under the union strategy, in whatever order the set of ids is
    drawn, the resolution stage returns exactly when [_build_node] returns
    on the context [{union_id: id}] of every id, and it then returns as many
    records as there are ids in the set, with a record for each id. *)
Theorem union_stage_spec
    (spec : stage_spec) (all_data : tables) (structure : structure)
    (master_id_set : list value) :
  resolution_strategy (resolver_spec spec) = Some "union" ->
  output_structure (resolver_spec spec) = Some structure ->
  returns (union_ids (default [] (union_sources spec)) all_data [])
          master_id_set ->
  forall resolved_objects,
    (returns (resolution_stage py_float set_iter spec all_data)
             resolved_objects <->
     Forall2 (fun id obj =>
                exists node,
                  obj = VDict node /\
                  returns (_build_node py_float (VDict [(VStr "union_id", id)])
                             structure all_data) node)
             (set_iter master_id_set) resolved_objects) /\
    (returns (resolution_stage py_float set_iter spec all_data)
             resolved_objects ->
     length resolved_objects = length master_id_set /\
     forall id,
       id ∈ master_id_set ->
       exists node,
         VDict node ∈ resolved_objects /\
         returns (_build_node py_float (VDict [(VStr "union_id", id)])
                    structure all_data) node).
Proof.
  intros Hunion Hst Hids resolved_objects.
  assert (Hstage :
    returns (resolution_stage py_float set_iter spec all_data)
            resolved_objects <->
    Forall2 (fun id obj =>
               exists node,
                 obj = VDict node /\
                 returns (_build_node py_float (VDict [(VStr "union_id", id)])
                            structure all_data) node)
            (set_iter master_id_set) resolved_objects).
  { unfold resolution_stage, stage_items. rewrite Hunion. simpl.
    rewrite bind_assoc, (returns_bind_returned _ _ _ _ Hids), bind_ret_l.
    apply resolve_data_returns; [done|]. by left. }
  split; [done|]. intros Hall%Hstage. split.
  - rewrite <- (Forall2_length _ _ _ Hall). by rewrite set_iter_order.
  - intros id Hid. rewrite <- set_iter_order in Hid.
    apply list_elem_of_lookup in Hid as [i Hi].
    destruct (Forall2_lookup_l _ _ _ _ _ Hall Hi) as (obj & Hobj & node & -> & Hnode).
    exists node. split; [|done]. by eapply list_elem_of_lookup_2.
Qed.

(** X23. Under any strategy but union the resolution stage resolves the
    values of the primary table in the order of the table.  When no primary
    source is named or its table is absent there is no item: the result is
    the empty list, or [KeyError] when the output structure is missing.
    When the table is present and not a mapping, [AttributeError] is
    raised. *)
Theorem primary_stage_spec (spec : stage_spec) (all_data : tables) :
  opt_is (resolution_strategy (resolver_spec spec)) "union" = false ->
  (primary_source (resolver_spec spec) = None \/
   (exists name, primary_source (resolver_spec spec) = Some name /\
                 all_data !! name = None) ->
   (is_Some (output_structure (resolver_spec spec)) ->
    resolution_stage py_float set_iter spec all_data = ret []) /\
   (output_structure (resolver_spec spec) = None ->
    resolution_stage py_float set_iter spec all_data = raise KeyError)) /\
  (forall name table,
     primary_source (resolver_spec spec) = Some name ->
     all_data !! name = Some (VDict table) ->
     resolution_stage py_float set_iter spec all_data =
     resolve_data py_float (resolver_spec spec) all_data table.*2) /\
  (forall name target,
     primary_source (resolver_spec spec) = Some name ->
     all_data !! name = Some target ->
     is_dict target = false ->
     resolution_stage py_float set_iter spec all_data = raise AttributeError).
Proof.
  intros Hunion. unfold resolution_stage, stage_items. rewrite Hunion.
  split; [|split].
  - intros Habsent.
    assert ((primary_source (resolver_spec spec) ≫=
               fun name => all_data !! name) = None) as ->.
    { destruct Habsent as [->|(name & -> & Hname)]; [done|]. exact Hname. }
    simpl. change (lift (Return ?x)) with (ret x). rewrite bind_ret_l.
    unfold resolve_data. split; [by intros [structure ->] | by intros ->].
  - intros name table -> Htable. simpl. rewrite Htable. simpl.
    change (lift (Return ?x)) with (ret x). by rewrite bind_ret_l.
  - intros name target -> Htable Hdict. simpl. rewrite Htable. simpl.
    by destruct target.
Qed.

(** X24. From the source to the records: a list of records standardized
    with a key under the lookup strategy gives a table which, as the primary
    table, has the stage return exactly when [_build_node] returns on the
    context of every value of the table, with one record for each value in
    the order of the table.  That is one record for each record of the
    source, in the order of the source, when the keys are pairwise distinct,
    and never more records than the source has. *)
Theorem lookup_source_resolved
    (spec : stage_spec) (all_data : tables) (name key_field : string)
    (source_spec : source_spec) (items : list value)
    (structure : structure) :
  opt_is (resolution_strategy (resolver_spec spec)) "union" = false ->
  primary_source (resolver_spec spec) = Some name ->
  output_structure (resolver_spec spec) = Some structure ->
  nonempty (ss_key source_spec) = Some key_field ->
  default "lookup" (ss_strategy source_spec) <> "group_by" ->
  Forall (fun item => is_Some (record_key key_field item)) items ->
  exists table,
    returns (standardize_source (VList items) source_spec) (VDict table) /\
    (length table <= length items)%nat /\
    (NoDup (map (record_key key_field) items) -> table.*2 = items) /\
    (all_data !! name = Some (VDict table) ->
     forall resolved_objects,
       returns (resolution_stage py_float set_iter spec all_data)
               resolved_objects <->
       Forall2 (fun item obj =>
                  exists node,
                    obj = VDict node /\
                    returns (_build_node py_float (VDict [(VStr name, item)])
                               structure all_data) node)
               table.*2 resolved_objects).
Proof.
  intros Hunion Hprimary Hst Hkey Hstrategy Hall.
  assert (Hstd : standardize_source (VList items) source_spec =
                 create_lookup_map (VList items) key_field).
  { unfold standardize_source. apply String.eqb_neq in Hstrategy.
    by rewrite Hstrategy, Hkey. }
  destruct (lookup_map_size_of key_field items Hall)
    as (table & Hret & Hlen & Hdistinct).
  exists table. rewrite Hstd. split; [done|]. split; [done|].
  split; [done|]. intros Htable resolved_objects.
  unfold resolution_stage, stage_items. rewrite Hunion, Hprimary. simpl.
  rewrite Htable. simpl. change (lift (Return ?x)) with (ret x).
  rewrite bind_ret_l. apply resolve_data_returns; [done|]. by right.
Qed.

End stage.
End Properties.

(** * Closed instances *)

(** A split on a semicolon, as int: one cast fails and the result is the
    stripped strings. *)
Lemma split_transform_witness :
  default "," (Some ";") <> "" /\
  returns (_apply_transform no_float (VStr "4; x") semicolon_int ∅)
          (VList [VStr "4"; VStr "x"]).
Proof.
  split; [discriminate|].
  destruct (proj1 (split_transform_spec no_float) ∅ semicolon_int
              (Transform (Some "split") None (Some ";") (Some "int"))
              "4; x" eq_refl eq_refl)
    as (_ & out & Hret & Hint & _); [discriminate|].
  rewrite (proj2 (Hint eq_refl)) in Hret; [exact Hret|].
  apply Exists_cons_tl, Exists_cons_hd. reflexivity.
Defined.

(** C4 as stated fails on an empty delimiter: the exception of [split]
    escapes. *)
Lemma split_transform_counterexample :
  raises (_apply_transform no_float (VStr "a,b") empty_delimiter ∅) ValueError.
Proof. reflexivity. Qed.

(** The specification's example of a link: the creature of a spawner. *)
Lemma linked_rule_witness :
  returns (_get_value (spawner_context (VStr "c1")) creature_name wolf_tables
             false) (VStr "Wolf") /\
  returns (_get_value (spawner_context (VStr "missing")) creature_name
             wolf_tables false) VNone.
Proof.
  split.
  - destruct (linked_rule_spec (spawner_context (VStr "c1")) wolf_tables
                creature_name (direct "spawner" "creature_id") "creatures"
                false eq_refl eq_refl) as (_ & _ & H & _).
    destruct (H (VStr "c1") (KStr "c1") creatures eq_refl ltac:(discriminate)
                eq_refl eq_refl) as [_ Hentry].
    destruct (Hentry _ eq_refl) as (Hfield & _).
    exact (Hfield "name" _ eq_refl eq_refl).
  - destruct (linked_rule_spec (spawner_context (VStr "missing")) wolf_tables
                creature_name (direct "spawner" "creature_id") "creatures"
                false eq_refl eq_refl) as (_ & _ & H & _).
    destruct (H (VStr "missing") (KStr "missing") creatures eq_refl
                ltac:(discriminate) eq_refl eq_refl) as [Hnone _].
    exact (Hnone eq_refl).
Defined.

(** C5 as stated fails on a link key that is a list: the link key resolves
    to a value that is not [None], no key of the table is equal to it, and
    the lookup raises. *)
Lemma linked_rule_counterexample :
  returns (_get_value (spawner_context (VList [VStr "c1"]))
             (direct "spawner" "creature_id") wolf_tables true)
          (VList [VStr "c1"]) /\
  Forall (fun k => py_eqb k (VList [VStr "c1"]) = false) (dict_keys creatures) /\
  raises (_get_value (spawner_context (VList [VStr "c1"])) creature_name
            wolf_tables false) TypeError.
Proof. split; [reflexivity|]. split; [by repeat constructor | reflexivity]. Qed.

(** A link into a table that is absent. *)
Lemma absent_table_witness :
  wolf_tables !! "spawners" = None /\
  returns (_get_value (spawner_context (VStr "c1"))
             (linked (direct "spawner" "creature_id") "spawners" None)
             wolf_tables false) VNone.
Proof.
  split; [reflexivity|].
  apply (proj1 (absent_table_as_empty no_float wolf_tables "spawners" eq_refl)).
  reflexivity.
Defined.

(** C6 as stated fails on a link key that is a list: against the absent
    table the rule is [None], against the empty mapping the lookup raises.
    It also fails for a table that is present as the empty list, which is
    what the standardizer passes through for a source without a key: a
    lookup transform into it raises, and into the absent table it is
    [None]. *)
Lemma absent_table_counterexample :
  wolf_tables !! "spawners" = None /\
  returns (_get_value (spawner_context (VList [VStr "c1"]))
             (linked (direct "spawner" "creature_id") "spawners" None)
             wolf_tables false) VNone /\
  raises (_get_value (spawner_context (VList [VStr "c1"]))
            (linked (direct "spawner" "creature_id") "spawners" None)
            (<["spawners" := VDict []]> wolf_tables) false) TypeError /\
  returns (_apply_transform no_float (VStr "c1") spawner_lookup wolf_tables)
          VNone /\
  raises (_apply_transform no_float (VStr "c1") spawner_lookup
            (<["spawners" := VList []]> wolf_tables)) AttributeError.
Proof. by repeat split. Qed.

(** The specification's example of a list of sub-objects: the spawners of a
    zone. *)
Lemma list_rule_witness :
  returns (field_value no_float zone_context "spawners" spawner_list
             zone_tables)
          (VList [VDict [(VStr "id", VStr "s1")];
                  VDict [(VStr "id", VStr "s2")]]).
Proof.
  destruct (list_rule_on_lists no_float zone_context zone_tables "spawners"
              spawner_list (direct "zone" "zone_id") "spawners" (VStr "z1")
              (KStr "z1") spawners eq_refl eq_refl eq_refl eq_refl eq_refl
              eq_refl eq_refl
              [VDict [(VStr "id", VStr "s1")]; VDict [(VStr "id", VStr "s2")]])
    as [_ H].
  - left. split; [by left | by left].
  - apply (H [("id", parent (Some "id"))] eq_refl).
    exists [[(VStr "id", VStr "s1")]; [(VStr "id", VStr "s2")]].
    split; [by repeat constructor | reflexivity].
Defined.

(** C1. The code departs from the claim on a List rule that declares a
    field, when the record holds under that field a value that is not a
    list: line 164 takes [linked_item.get(field, [])] as it stands, where
    line 166, the path of a rule without [field], puts the empty list in
    the place of whatever is not a list.  Here the field [drops] holds a
    mapping: the rule has no [sub_object] and the value stored for it is the
    mapping, which is not a sequence.  The same mapping fetched as the
    entry itself, by the rule without [field], gives the empty list. *)
Lemma list_rule_field_unguarded :
  r_sub_object drops_list = None /\
  returns (_build_node no_float zone_context [("drops", drops_list)]
             zone_tables)
          [(VStr "drops", VDict [(VStr "gold", VInt 1)])] /\
  is_list (VDict [(VStr "gold", VInt 1)]) = false /\
  returns (_build_node no_float zone_context [("drops", drops_entry)]
             drop_tables)
          [(VStr "drops", VList [])].
Proof. by repeat split. Qed.

(** The specification's example of a coalesce: the first alternative is
    [None], the second is [5], and the third, which would raise, is not
    resolved. *)
Lemma coalesce_rule_witness :
  raises (_resolve_simple_value no_float item_context raising_rule item_tables)
         AttributeError /\
  returns (build_field no_float item_context "value" fallback_rule item_tables)
          (Some (VInt 5)).
Proof.
  split; [reflexivity|].
  destruct (coalesce_rule_spec no_float item_context item_tables "value"
              _ fallback_rule eq_refl eq_refl) as [H _].
  apply (H [direct "item" "a"] (direct "item" "b") [raising_rule] (VInt 5)
           eq_refl); [by repeat constructor | reflexivity | discriminate].
Defined.

(** The specification's example of a condition: the field is left out
    when the item is listed, and the object without fields is [None]. *)
Lemma build_node_fields_witness :
  exists output,
    returns (_build_node no_float item_context item_structure item_tables)
            output /\
    dict_keys output = [VStr "id"; VStr "stats"; VStr "b"] /\
    dict_find (KStr "extra") output = None.
Proof.
  destruct (proj1 (build_node_fields no_float item_context item_tables)
              item_structure) as (output & Hret & Hkeys & Hout & _).
  - compute_done.
  - repeat constructor; eexists; reflexivity.
  - exists output. split; [exact Hret|]. split; [exact Hkeys|].
    apply (Hout "extra" unless_listed); [|reflexivity].
    apply elem_of_cons. right. apply elem_of_cons. by left.
Defined.

(** An object without fields among other fields: the fields after it and
    the items after the first are resolved. *)
Lemma object_rule_witness :
  field_value no_float item_context "stats" (object_of None) item_tables =
    ([(ERROR, ObjectMissingFields "stats")], Return VNone) /\
  (build_from no_float item_context item_tables
     [("stats", object_of None); ("b", direct "item" "b")] []).2 =
  Return [(VStr "stats", VNone); (VStr "b", VInt 5)] /\
  returns (resolve_data no_float item_spec item_tables
             [VDict [(VStr "id", VStr "i1"); (VStr "b", VInt 5)];
              VDict [(VStr "id", VStr "i2"); (VStr "b", VInt 6)]])
          [VDict [(VStr "id", VStr "i1"); (VStr "stats", VNone);
                  (VStr "b", VInt 5)];
           VDict [(VStr "id", VStr "i2"); (VStr "extra", VInt 6);
                  (VStr "stats", VNone); (VStr "b", VInt 6)]].
Proof.
  destruct (object_rule_spec no_float item_context item_tables "stats"
              (object_of None) eq_refl eq_refl) as [H _].
  destruct (H eq_refl) as [Hvalue Hloop]. split; [exact Hvalue|].
  destruct (Hloop eq_refl) as (_ & _ & Hrest). rewrite Hrest.
  split; reflexivity.
Defined.

(** Two records with the same key and one without the key. *)
Lemma standardize_source_witness :
  exists table,
    returns (standardize_source (VList records)
               (SourceSpec "things" None (Some "id"))) (VDict table) /\
    dict_find (KStr "a") table =
      Some (VDict [(VStr "id", VStr "a"); (VStr "n", VInt 3)]).
Proof.
  destruct (proj1 standardize_source_spec records
              (SourceSpec "things" None (Some "id")) "id") as [H _].
  - repeat constructor; eexists; reflexivity.
  - reflexivity.
  - destruct H as (table & Hret & _ & Hfind); [discriminate|].
    exists table. split; [exact Hret|]. rewrite Hfind. reflexivity.
Defined.

(** C7 as stated fails under group_by: with no key declared the source is
    not returned, [ValueError] is raised. *)
Lemma standardize_source_counterexample :
  ss_key (SourceSpec "things" (Some "group_by") None) = None /\
  raises (standardize_source (VList records)
            (SourceSpec "things" (Some "group_by") None)) ValueError.
Proof. by split. Qed.

(** The record without the key is kept under the key [None]. *)
Lemma lookup_keeps_keyless_records_witness :
  exists table,
    returns (create_lookup_map (VList records) "id") (VDict table) /\
    dict_find KNone table = Some (VDict [(VStr "n", VInt 2)]).
Proof.
  destruct (lookup_keeps_keyless_records "id"
              [VDict [(VStr "id", VStr "a"); (VStr "n", VInt 1)]]
              [VDict [(VStr "id", VStr "a"); (VStr "n", VInt 3)]]
              [(VStr "n", VInt 2)] eq_refl)
    as [(table & Hret & _ & _ & _ & Hlast) _].
  - repeat constructor; eexists; reflexivity.
  - exists table. split; [exact Hret|]. apply Hlast.
    repeat constructor. discriminate.
Defined.

(** One record for each creature, in the order of the creatures. *)
Lemma resolve_data_witness :
  exists resolved_objects,
    returns (resolve_data no_float creature_spec wolf_tables
               [VDict [(VStr "name", VStr "Wolf")];
                VDict [(VStr "name", VStr "Bear")]]) resolved_objects /\
    length resolved_objects = 2%nat.
Proof.
  exists [VDict [(VStr "name", VStr "Wolf")];
          VDict [(VStr "name", VStr "Bear")]].
  split; [reflexivity|].
  destruct (proj1 (resolve_data_spec no_float creature_spec wolf_tables
                     [VDict [(VStr "name", VStr "Wolf")];
                      VDict [(VStr "name", VStr "Bear")]]
                     [("name", direct "creatures" "name")] "creatures" eq_refl
                     (or_intror (conj eq_refl eq_refl))
                     [VDict [(VStr "name", VStr "Wolf")];
                      VDict [(VStr "name", VStr "Bear")]]) eq_refl)
    as [Hlen _].
  exact Hlen.
Defined.

(** * Closed instances of the further properties *)

(** Two records with distinct keys: the table lists them in order. *)
Lemma lookup_map_distinct_keys_witness :
  exists table,
    returns (create_lookup_map (VList distinct_records) "id") (VDict table) /\
    table.*2 = distinct_records.
Proof.
  destruct (lookup_map_distinct_keys "id" distinct_records)
    as (table & Hret & Hvalues & _).
  - repeat constructor; eexists; reflexivity.
  - compute_done.
  - exists table. split; [exact Hret | exact Hvalues].
Defined.

(** Three records, two of them with the same key: one record is lost. *)
Lemma lookup_map_size_witness :
  exists table,
    returns (create_lookup_map (VList records) "id") (VDict table) /\
    length table <> length records.
Proof.
  destruct (lookup_map_size "id" records)
    as (table & Hret & _ & _ & Hsize).
  - repeat constructor; eexists; reflexivity.
  - exists table. split; [exact Hret|]. intros Hlen.
    apply Hsize in Hlen. revert Hlen. compute_done.
Defined.

(** The two records with the key ["a"] are in the groups, the record
    without a key is not. *)
Lemma grouping_map_partition_witness :
  exists table,
    returns (create_grouping_map (VList records) "id") (VDict table) /\
    length (grouped_records table) = 2%nat.
Proof.
  destruct (grouping_map_partition "id" records) as (table & Hret & Hperm & _).
  - repeat constructor; eexists; reflexivity.
  - exists table. split; [exact Hret|]. by rewrite Hperm.
Defined.

(** A number among the records. *)
Lemma standardizer_errors_witness :
  raises (create_lookup_map (VList (distinct_records ++ [VInt 5])) "id")
         AttributeError /\
  raises (create_grouping_map (VList (distinct_records ++ [VInt 5])) "id")
         AttributeError.
Proof.
  apply (proj1 (standardizer_errors "id")
           (VList (distinct_records ++ [VInt 5])) distinct_records (VInt 5) []
           eq_refl).
  - repeat constructor; eexists; reflexivity.
  - reflexivity.
Defined.

(** The key ["a"]: the lookup table holds the last of the two records. *)
Lemma lookup_entry_is_last_of_group_witness :
  exists table groups,
    returns (create_lookup_map (VList records) "id") (VDict table) /\
    returns (create_grouping_map (VList records) "id") (VDict groups) /\
    dict_find (KStr "a") table =
    match dict_find (KStr "a") groups with
    | Some (VList group) => last group
    | _ => None
    end.
Proof.
  destruct (lookup_entry_is_last_of_group "id" records)
    as (table & groups & Hret & Hret' & Hlast).
  - repeat constructor; eexists; reflexivity.
  - exists table, groups. split; [exact Hret|]. split; [exact Hret'|].
    apply Hlast. discriminate.
Defined.

(** The ids of the weapons and the armours: the sword is in both. *)
Lemma union_ids_witness :
  exists master_id_set,
    returns (union_ids gear_sources gear_tables []) master_id_set /\
    Some (KStr "shield") ∈ map hash_key master_id_set.
Proof.
  destruct (union_ids_spec gear_sources gear_tables)
    as (master_id_set & Hret & _ & _ & Hin).
  - repeat constructor; eexists; (split; [reflexivity|]);
      repeat constructor; eexists; reflexivity.
  - exists master_id_set. split; [exact Hret|]. apply Hin.
    split; [discriminate|].
    exists (UnionSource "armours" "item_id"), armours,
      (VDict [(VStr "item_id", VStr "shield")]).
    split; [|split; [reflexivity|split; [|reflexivity]]].
    + apply elem_of_cons. right. apply elem_of_cons. by left.
    + apply elem_of_cons. right. apply elem_of_cons. by left.
Defined.

(** A table of groups as a union source. *)
Lemma union_source_errors_witness :
  raises (union_ids [UnionSource "weapons" "item_id";
                     UnionSource "spawners" "id"] 
            (<["spawners" := VDict spawners]> gear_tables) [])
         AttributeError.
Proof.
  destruct (union_source_errors [UnionSource "weapons" "item_id"] []
              (UnionSource "spawners" "id")
              (<["spawners" := VDict spawners]> gear_tables))
    as (_ & _ & Hgroups).
  - repeat constructor; eexists; (split; [reflexivity|]);
      repeat constructor; eexists; reflexivity.
  - apply (Hgroups spawners); [reflexivity | discriminate|].
    by repeat constructor.
Defined.

(** The id of the item, and the field of an alias that is not bound. *)
Lemma direct_rule_witness :
  _get_value item_context (direct "item" "id") item_tables false =
    ret (VStr "i1") /\
  _get_value item_context (direct "zone" "id") item_tables false =
    ([(WARNING, CouldNotResolve (direct "zone" "id"))], Return VNone).
Proof.
  split.
  - destruct (direct_rule_spec item_context item_tables (direct "item" "id")
                "item" "id" false eq_refl eq_refl ltac:(discriminate) eq_refl
                eq_refl) as [_ H].
    destruct (H _ eq_refl) as [Hrecord _].
    apply (Hrecord _ eq_refl). discriminate.
  - destruct (direct_rule_spec item_context item_tables (direct "zone" "id")
                "zone" "id" false eq_refl eq_refl ltac:(discriminate) eq_refl
                eq_refl) as [_ H].
    destruct (H _ eq_refl) as (_ & Hfalse & _).
    apply Hfalse. reflexivity.
Defined.

(** The context under its alias, and the context itself. *)
Lemma context_and_parent_rules_witness :
  _get_value zone_context (context_alias "zone") zone_tables false =
    ret (VDict [(VStr "zone_id", VStr "z1")]) /\
  _get_value (VStr "z1") (parent None) zone_tables false = ret (VStr "z1").
Proof.
  split.
  - destruct (context_and_parent_rules zone_context zone_tables
                (context_alias "zone") false eq_refl) as [H _].
    exact (proj1 (H "zone" eq_refl) _ eq_refl).
  - destruct (context_and_parent_rules (VStr "z1") zone_tables (parent None)
                false eq_refl) as (_ & H & _).
    exact (proj1 (H eq_refl eq_refl) eq_refl).
Defined.

(** The field that its condition leaves out logs nothing. *)
Lemma silent_lookups_witness :
  (build_field no_float item_context "extra" unless_listed item_tables).1 = [].
Proof.
  apply (proj2 (proj2 (silent_lookups no_float item_context item_tables))).
  reflexivity.
Defined.

(** The rule that raises as the second of three fields. *)
Lemma build_node_raises_witness :
  raises (_build_node no_float item_context
            [("id", direct "item" "id"); ("raw", raising_rule);
             ("b", direct "item" "b")] item_tables) AttributeError.
Proof.
  apply (proj1 (build_node_raises no_float item_context item_tables
                  AttributeError)).
  exists [("id", direct "item" "id")], "raw", raising_rule,
    [("b", direct "item" "b")].
  split; [reflexivity|]. split; [|reflexivity].
  repeat constructor. eexists. reflexivity.
Defined.

(** The second of three items is a string: the run ends there. *)
Lemma resolve_data_raises_witness :
  raises (resolve_data no_float creature_spec wolf_tables
            [VDict [(VStr "name", VStr "Wolf")]; VStr "Bear";
             VDict [(VStr "name", VStr "Boar")]]) AttributeError.
Proof.
  apply (resolve_data_raises no_float creature_spec wolf_tables _
           [("name", direct "creatures" "name")] "creatures" AttributeError
           eq_refl (or_intror (conj eq_refl eq_refl))).
  exists [VDict [(VStr "name", VStr "Wolf")]], (VStr "Bear"),
    [VDict [(VStr "name", VStr "Boar")]].
  split; [reflexivity|]. split; [|reflexivity].
  repeat constructor. eexists. reflexivity.
Defined.

(** A specification that names no primary source: no item, then one. *)
Lemma resolve_data_edges_witness :
  resolve_data no_float (Spec (Some item_structure) None None) item_tables [] =
    ret [] /\
  resolve_data no_float (Spec (Some item_structure) None None) item_tables
    [VDict []] = raise KeyError.
Proof.
  destruct (resolve_data_edges no_float (Spec (Some item_structure) None None)
              item_tables) as (_ & Hnone & Hsome).
  split.
  - apply Hnone. by eexists.
  - apply Hsome; [by eexists | reflexivity | reflexivity].
Defined.

(** Two creatures resolved one after the other. *)
Lemma resolve_data_app_witness :
  returns (resolve_data no_float creature_spec wolf_tables
             ([VDict [(VStr "name", VStr "Wolf")]] ++
              [VDict [(VStr "name", VStr "Bear")]])%list)
          ([VDict [(VStr "name", VStr "Wolf")]] ++
           [VDict [(VStr "name", VStr "Bear")]])%list.
Proof.
  apply (proj1 (resolve_data_app no_float creature_spec wolf_tables
                  [VDict [(VStr "name", VStr "Wolf")]]
                  [VDict [(VStr "name", VStr "Bear")]])).
  exists [VDict [(VStr "name", VStr "Wolf")]],
    [VDict [(VStr "name", VStr "Bear")]].
  split; [reflexivity|]. split; reflexivity.
Defined.

(** The creature of a spawner, by a lookup transform. *)
Lemma lookup_transform_witness :
  _apply_transform no_float (VStr "c1") creature_lookup wolf_tables =
    ret (VDict [(VStr "name", VStr "Wolf")]) /\
  _apply_transform no_float (VStr "c9") creature_lookup wolf_tables =
    ret VNone.
Proof.
  split.
  - destruct (lookup_transform_spec no_float wolf_tables creature_lookup
                (Transform (Some "lookup") (Some "creatures") None None)
                (VStr "c1") eq_refl eq_refl) as [_ H].
    destruct (H ltac:(discriminate)) as [_ Hsource].
    exact (proj1 (Hsource "creatures" eq_refl) creatures (KStr "c1") eq_refl
             eq_refl).
  - destruct (lookup_transform_spec no_float wolf_tables creature_lookup
                (Transform (Some "lookup") (Some "creatures") None None)
                (VStr "c9") eq_refl eq_refl) as [_ H].
    destruct (H ltac:(discriminate)) as [_ Hsource].
    exact (proj1 (Hsource "creatures" eq_refl) creatures (KStr "c9") eq_refl
             eq_refl).
Defined.

(** A creature that is not in the table: the coalesce goes on to the id of
    the creature. *)
Lemma coalesce_skips_lookup_miss_witness :
  returns (coalesce no_float (spawner_context (VStr "c9"))
             [creature_lookup; direct "spawner" "creature_id"] wolf_tables)
          (VStr "c9").
Proof.
  destruct (coalesce_skips_lookup_miss no_float (spawner_context (VStr "c9"))
              wolf_tables creature_lookup [direct "spawner" "creature_id"]
              (Transform (Some "lookup") (Some "creatures") None None)
              "creatures" (VStr "c9") (KStr "c9") creatures eq_refl eq_refl
              eq_refl eq_refl eq_refl eq_refl eq_refl) as [_ Hskip].
  unfold returns. rewrite Hskip. reflexivity.
Defined.

(** A transform with a type the resolver does not know, and a split of a
    number. *)
Lemma transform_leaves_value_witness :
  _apply_transform no_float (VStr "a,b")
    (with_transform (Transform (Some "Split") None None None)
       (direct "item" "tags")) item_tables = ret (VStr "a,b") /\
  _apply_transform no_float (VInt 5)
    (with_transform (Transform (Some "split") None None None)
       (direct "item" "b")) item_tables =
    ([(WARNING, SplitExpectedString (VInt 5))], Return (VInt 5)).
Proof.
  split.
  - destruct (transform_leaves_value no_float item_tables
                (with_transform (Transform (Some "Split") None None None)
                   (direct "item" "tags")) (VStr "a,b")) as [_ H].
    apply (proj1 (H _ eq_refl)). right. right. split; discriminate.
  - destruct (transform_leaves_value no_float item_tables
                (with_transform (Transform (Some "split") None None None)
                   (direct "item" "b")) (VInt 5)) as [_ H].
    apply (proj2 (H _ eq_refl)); [reflexivity | discriminate | discriminate].
Defined.

(** A string of blanks and delimiters. *)
Lemma split_pieces_witness :
  default "," (Some " ") <> "" /\
  _apply_transform no_float (VStr "   ")
    (with_transform (Transform (Some "split") None (Some " ") (Some "int"))
       (direct "item" "ids")) item_tables = ret (VList []).
Proof.
  split; [discriminate|].
  apply (split_pieces_spec no_float item_tables
           (with_transform
              (Transform (Some "split") None (Some " ") (Some "int"))
              (direct "item" "ids"))
           (Transform (Some "split") None (Some " ") (Some "int")) "   "
           eq_refl eq_refl); [discriminate | reflexivity].
Defined.

(** The table [raw] of the items is a list. *)
Lemma non_mapping_table_witness :
  raises (_get_value item_context raising_rule item_tables false)
         AttributeError /\
  raises (field_value no_float item_context "all"
            (list_of "raw" (direct "item" "id") None None) item_tables)
         AttributeError.
Proof.
  destruct (non_mapping_table no_float item_context item_tables "raw"
              (VList []) eq_refl eq_refl) as (Hlinked & Hlist & _).
  split.
  - apply (proj2 (Hlinked raising_rule (direct "item" "b") false eq_refl
                    eq_refl) (VInt 5)); [discriminate | reflexivity
                                        | discriminate].
  - apply (Hlist "all" _ (direct "item" "id") (VStr "i1")); reflexivity.
Defined.

(** The item is listed: the condition on its presence is met, the
    condition on its absence is not. *)
Lemma condition_polarity_witness :
  returns (_check_condition item_context
             (Condition "items" (direct "item" "id") None) item_tables)
          false.
Proof.
  destruct (condition_polarity item_context item_tables "items"
              (direct "item" "id") None ltac:(discriminate))
    as (_ & Hopposite & _).
  apply (Hopposite (VStr "i1") eq_refl ltac:(discriminate) true).
  reflexivity.
Defined.

(** The spawners of a zone, from two contexts with the same zone id. *)
Lemma list_rule_context_free_witness :
  (field_value no_float
     (VDict [(VStr "zone", VDict [(VStr "zone_id", VStr "z1");
                                  (VStr "name", VStr "Marsh")])])
     "spawners" spawner_list zone_tables).2 =
  Return (VList [VDict [(VStr "id", VStr "s1")];
                 VDict [(VStr "id", VStr "s2")]]).
Proof.
  rewrite (list_rule_context_free no_float
             (VDict [(VStr "zone", VDict [(VStr "zone_id", VStr "z1");
                                          (VStr "name", VStr "Marsh")])])
             zone_context zone_tables
             "spawners" spawner_list (direct "zone" "zone_id") (VStr "z1")
             eq_refl eq_refl eq_refl eq_refl eq_refl).
  reflexivity.
Defined.

(** The union of the weapons and the armours, the ids drawn in the order
    in which they were added. *)
Lemma union_stage_witness :
  exists resolved_objects,
    returns (resolution_stage no_float id gear_spec gear_tables)
            resolved_objects /\
    length resolved_objects = 2%nat.
Proof.
  exists [VDict [(VStr "id", VStr "sword")];
          VDict [(VStr "id", VStr "shield")]].
  split; [reflexivity|].
  destruct (union_stage_spec no_float id (fun s => reflexivity s) gear_spec
              gear_tables [("id", context_alias "union_id")]
              [VStr "sword"; VStr "shield"] eq_refl eq_refl eq_refl
              [VDict [(VStr "id", VStr "sword")];
               VDict [(VStr "id", VStr "shield")]]) as [_ Hlen].
  exact (proj1 (Hlen eq_refl)).
Defined.

(** The creatures as the primary table, and a primary table that is
    absent. *)
Lemma primary_stage_witness :
  resolution_stage no_float id creature_stage wolf_tables =
    resolve_data no_float creature_spec wolf_tables
      [VDict [(VStr "name", VStr "Wolf")]] /\
  resolution_stage no_float id creature_stage ∅ = ret [].
Proof.
  split.
  - apply (proj1 (proj2 (primary_stage_spec no_float id creature_stage
                           wolf_tables eq_refl)) "creatures" creatures);
      reflexivity.
  - apply (proj1 (primary_stage_spec no_float id creature_stage ∅ eq_refl)).
    + right. exists "creatures". split; reflexivity.
    + by eexists.
Defined.

(** Two records with distinct keys, from the list to the resolved
    records. *)
Lemma lookup_source_resolved_witness :
  exists table,
    returns (standardize_source (VList distinct_records)
               (SourceSpec "things" None (Some "id"))) (VDict table) /\
    table.*2 = distinct_records.
Proof.
  destruct (lookup_source_resolved no_float id
              (StageSpec (Spec (Some [("n", direct "things" "n")]) None
                            (Some "things")) None)
              ∅ "things" "id" (SourceSpec "things" None (Some "id"))
              distinct_records [("n", direct "things" "n")]
              eq_refl eq_refl eq_refl eq_refl ltac:(discriminate))
    as (table & Hret & _ & Hvalues & _).
  - repeat constructor; eexists; reflexivity.
  - exists table. split; [exact Hret|]. apply Hvalues. compute_done.
Defined.
